(** * ExportMap: the export/import resolution engine of eslint-plugin-import-x

    A shallow embedding of [ExportMap] (the per-file export map, its cache
    and its deep queries [has], [hasDeep], [get], [forEach]) together with
    the documentation capture helpers, followed by the properties that the
    specification states about them.  Further parts cover the builder
    [parse], the memo of [childContext], the tsconfig lookup and the rules
    [max-dependencies] and [no-named-as-default-member]. *)

From Stdlib Require Import String List ZArith Bool Lia.
From stdpp Require Import base option list strings gmap.

Set Warnings "-register-all".

Local Open Scope string_scope.
Local Open Scope list_scope.

(** ** JavaScript [Map]: insertion-ordered, one binding per key *)

Module JsMap.
Section JsMap.
Context {K V : Type} `{EqDecision K}.

Fixpoint get (k : K) (m : list (K * V)) : option V :=
  match m with
  | [] => None
  | (k', v) :: rest => if decide (k = k') then Some v else get k rest
  end.

Definition has (k : K) (m : list (K * V)) : bool :=
  match get k m with Some _ => true | None => false end.

(** [set] overwrites the value of an existing key in place and appends a
    new key at the end, which is the iteration order of a JS [Map]. *)
Fixpoint set (k : K) (v : V) (m : list (K * V)) : list (K * V) :=
  match m with
  | [] => [(k, v)]
  | (k', v') :: rest =>
      if decide (k = k') then (k, v) :: rest else (k', v') :: set k v rest
  end.

Definition size (m : list (K * V)) : nat := length m.
End JsMap.
End JsMap.

(** A JS [Set] of strings: insertion-ordered, no duplicates. *)
Definition set_add (x : string) (s : list string) : list string :=
  if bool_decide (x ∈ s) then s else s ++ [x].

(** ** Data model *)

(** doctrine's annotation: a description and its tags. *)
Record Tag := mkTag { title : string; tag_description : option string }.
Record Annotation := mkAnnotation { description : string; tags : list Tag }.

(** A property key of the [namespace] map.  The builder reads the key as
    [node.name]; on a node without that property the key is [undefined],
    which is [None] here. *)
Definition Key := option string.

(** The lazy [namespace] getter attached to export metadata by
    [addNamespace] (it captures the local name of a namespace import) or by
    an [ExportNamespaceSpecifier] (it captures the source specifier, which
    is [false] when the declaration has none). *)
Inductive NamespaceRef :=
| NsOfLocal (name : string)
| NsOfSource (nsource : option string).

(** Export metadata: what [captureDoc] returns, possibly extended with the
    [namespace] getter. *)
Record ExportMeta := mkMeta {
  meta_doc : option Annotation;
  meta_namespace : option NamespaceRef
}.

Definition emptyMeta : ExportMeta := mkMeta None None.

Record Loc := mkLoc { line : nat; column : nat }.

Record DeclarationMetadata := mkDecl {
  source_value : string;
  source_loc : Loc;
  importedSpecifiers : list string;
  dynamic : option bool;
  isOnlyImportingTypes : option bool
}.

Record ParseError := mkParseError {
  message : string;
  lineNumber : nat;
  err_column : nat
}.

Inductive ParseGoal := ambiguous | Module_ | Script.

(** A getter built by [thunkFor(p, context)]: it captures the target path
    [p] and, when called, answers [ExportMap.for(childContext(p, context))]. *)
Definition Getter := string.

(** An entry of [reexports].  [getImport] is [() => resolveImport(nsource)]:
    [None] when [remotePath(nsource)] is null (the call then returns null),
    otherwise the getter of the resolved path. *)
Record Reexport := mkReexport {
  local : string;
  getImport : option Getter
}.

Record ImportEntry := mkImport {
  getter : Getter;
  declarations : list DeclarationMetadata
}.

Definition VisitorKeys := list (string * list string).

Record ExportMap := mkExportMap {
  path : string;
  namespace : list (Key * ExportMeta);
  reexports : list (string * Reexport);
  dependencies : list Getter;
  imports : list (string * ImportEntry);
  errors : list ParseError;
  parseGoal : ParseGoal;
  visitorKeys : option VisitorKeys;
  mtime : option Z;
  doc : option Annotation
}.

(** [new ExportMap(path)] *)
Definition newExportMap (p : string) : ExportMap :=
  mkExportMap p [] [] [] [] [] ambiguous None None None.

(** What [get] returns: export metadata, [null] or [undefined]. *)
Inductive Value :=
| VMeta (v : ExportMeta)
| VNull
| VUndefined.

(** [{ found, path }] of [hasDeep]. *)
Module Deep.
Record t := mk { found : bool; path : list ExportMap }.
End Deep.

(** One invocation [callback(value, name, map)] made by [forEach]. *)
Record Call := mkCall {
  call_value : Value;
  call_name : Key;
  call_map : ExportMap
}.

Definition is_default (name : string) : bool := String.eqb name "default".

(** ** Deep queries

    The getters of one map are called against the settled cache:
    [exportMapFor p] is what [ExportMap.for(childContext(p, context))]
    answers, [None] for null.  The recursion of the source is unbounded;
    [fuel] bounds the depth of nested calls and [None] is a call stack
    that is exhausted. *)

Section DeepQueries.
Variable exportMapFor : string -> option ExportMap.

Definition callGetter (g : Getter) : option ExportMap := exportMapFor g.

Definition callGetImport (r : Reexport) : option ExportMap :=
  match getImport r with
  | None => None
  | Some g => callGetter g
  end.

Section Step.
(** The queries one level down. *)
Variable has_rec : ExportMap -> string -> option bool.
Variable hasDeep_rec : ExportMap -> string -> option Deep.t.
Variable get_rec : ExportMap -> string -> option Value.
Variable forEach_rec : ExportMap -> option (list Call).
Variable size_rec : ExportMap -> option nat.

Fixpoint has_deps (name : string) (deps : list Getter) : option bool :=
  match deps with
  | [] => Some false
  | dep :: rest =>
      match callGetter dep with
      | None => has_deps name rest
      | Some innerMap =>
          match has_rec innerMap name with
          | None => None
          | Some true => Some true
          | Some false => has_deps name rest
          end
      end
  end.

Definition has_step (this : ExportMap) (name : string) : option bool :=
  if JsMap.has (Some name) (namespace this) then Some true
  else if JsMap.has name (reexports this) then Some true
  else if negb (is_default name) then has_deps name (dependencies this)
  else Some false.

Fixpoint hasDeep_deps (this : ExportMap) (name : string)
    (deps : list Getter) : option Deep.t :=
  match deps with
  | [] => Some (Deep.mk false [this])
  | dep :: rest =>
      match callGetter dep with
      | None => Some (Deep.mk true [this])
      | Some innerMap =>
          if String.eqb (path innerMap) (path this)
          then hasDeep_deps this name rest
          else
            match hasDeep_rec innerMap name with
            | None => None
            | Some innerValue =>
                if Deep.found innerValue
                then Some (Deep.mk (Deep.found innerValue)
                                   (this :: Deep.path innerValue))
                else hasDeep_deps this name rest
            end
      end
  end.

Definition hasDeep_step (this : ExportMap) (name : string)
    : option Deep.t :=
  if JsMap.has (Some name) (namespace this)
  then Some (Deep.mk true [this])
  else
    match JsMap.get name (reexports this) with
    | Some reexports_ =>
        match callGetImport reexports_ with
        | None => Some (Deep.mk true [this])
        | Some imported =>
            if String.eqb (path imported) (path this)
               && String.eqb (local reexports_) name
            then Some (Deep.mk false [this])
            else
              match hasDeep_rec imported (local reexports_) with
              | None => None
              | Some deep =>
                  Some (Deep.mk (Deep.found deep) (this :: Deep.path deep))
              end
        end
    | None =>
        if negb (is_default name)
        then hasDeep_deps this name (dependencies this)
        else Some (Deep.mk false [this])
    end.

Fixpoint get_deps (this : ExportMap) (name : string)
    (deps : list Getter) : option Value :=
  match deps with
  | [] => Some VUndefined
  | dep :: rest =>
      match callGetter dep with
      | None => get_deps this name rest
      | Some innerMap =>
          if String.eqb (path innerMap) (path this)
          then get_deps this name rest
          else
            match get_rec innerMap name with
            | None => None
            | Some VUndefined => get_deps this name rest
            | Some innerValue => Some innerValue
            end
      end
  end.

Definition get_step (this : ExportMap) (name : string) : option Value :=
  match JsMap.get (Some name) (namespace this) with
  | Some v => Some (VMeta v)
  | None =>
      match JsMap.get name (reexports this) with
      | Some reexports_ =>
          match callGetImport reexports_ with
          | None => Some VNull
          | Some imported =>
              if String.eqb (path imported) (path this)
                 && String.eqb (local reexports_) name
              then Some VUndefined
              else get_rec imported (local reexports_)
          end
      | None =>
          if negb (is_default name)
          then get_deps this name (dependencies this)
          else Some VUndefined
      end
  end.

(** [this.namespace.forEach((v, n) => callback(v, n, this))] *)
Definition forEach_namespace (this : ExportMap) : list Call :=
  map (fun '(n, v) => mkCall (VMeta v) n this) (namespace this).

(** [callback(reexported?.get(reexports.local), name, this)] for every
    entry of [reexports]. *)
Fixpoint forEach_reexports (this : ExportMap)
    (entries : list (string * Reexport)) : option (list Call) :=
  match entries with
  | [] => Some []
  | (name, reexports_) :: rest =>
      match
        match callGetImport reexports_ with
        | None => Some VUndefined
        | Some reexported => get_rec reexported (local reexports_)
        end
      with
      | None => None
      | Some v =>
          match forEach_reexports this rest with
          | None => None
          | Some calls => Some (mkCall v (Some name) this :: calls)
          end
      end
  end.

(** The callback handed to [d.forEach]: it forwards every entry but
    ['default'], with [this] as the map. *)
Definition forward (this : ExportMap) (calls : list Call) : list Call :=
  map (fun c => mkCall (call_value c) (call_name c) this)
      (filter (fun c => call_name c ≠ Some "default") calls).

Fixpoint forEach_deps (this : ExportMap) (deps : list Getter)
    : option (list Call) :=
  match deps with
  | [] => Some []
  | dep :: rest =>
      match callGetter dep with
      | None => forEach_deps this rest
      | Some d =>
          match forEach_rec d with
          | None => None
          | Some inner =>
              match forEach_deps this rest with
              | None => None
              | Some calls => Some (forward this inner ++ calls)
              end
          end
      end
  end.

Definition forEach_step (this : ExportMap) : option (list Call) :=
  match forEach_reexports this (reexports this) with
  | None => None
  | Some re =>
      match forEach_deps this (dependencies this) with
      | None => None
      | Some de => Some (forEach_namespace this ++ re ++ de)
      end
  end.

Fixpoint size_deps (acc : nat) (deps : list Getter) : option nat :=
  match deps with
  | [] => Some acc
  | dep :: rest =>
      match callGetter dep with
      | None => size_deps acc rest
      | Some d =>
          match size_rec d with
          | None => None
          | Some n => size_deps (acc + n) rest
          end
      end
  end.

Definition size_step (this : ExportMap) : option nat :=
  size_deps (JsMap.size (namespace this) + JsMap.size (reexports this))
            (dependencies this).
End Step.

Fixpoint has (fuel : nat) (this : ExportMap) (name : string)
    : option bool :=
  match fuel with
  | O => None
  | S k => has_step (has k) this name
  end.

Fixpoint hasDeep (fuel : nat) (this : ExportMap) (name : string)
    : option Deep.t :=
  match fuel with
  | O => None
  | S k => hasDeep_step (hasDeep k) this name
  end.

Fixpoint get (fuel : nat) (this : ExportMap) (name : string)
    : option Value :=
  match fuel with
  | O => None
  | S k => get_step (get k) this name
  end.

Fixpoint forEach (fuel : nat) (this : ExportMap) : option (list Call) :=
  match fuel with
  | O => None
  | S k => forEach_step (get k) (forEach k) this
  end.

Fixpoint size (fuel : nat) (this : ExportMap) : option nat :=
  match fuel with
  | O => None
  | S k => size_step (size k) this
  end.

(** [get hasDefault() { return this.get('default') != null }] *)
Definition hasDefault (fuel : nat) (this : ExportMap) : option bool :=
  match get fuel this "default" with
  | None => None
  | Some (VMeta _) => Some true
  | Some VNull | Some VUndefined => Some false
  end.
End DeepQueries.

(** ** Record updates of an [ExportMap] *)

Definition with_namespace (ns : list (Key * ExportMeta)) (m : ExportMap) :=
  mkExportMap (path m) ns (reexports m) (dependencies m) (imports m)
              (errors m) (parseGoal m) (visitorKeys m) (mtime m) (doc m).

Definition with_reexports (re : list (string * Reexport)) (m : ExportMap) :=
  mkExportMap (path m) (namespace m) re (dependencies m) (imports m)
              (errors m) (parseGoal m) (visitorKeys m) (mtime m) (doc m).

Definition with_dependencies (deps : list Getter) (m : ExportMap) :=
  mkExportMap (path m) (namespace m) (reexports m) deps (imports m)
              (errors m) (parseGoal m) (visitorKeys m) (mtime m) (doc m).

Definition with_imports (im : list (string * ImportEntry)) (m : ExportMap) :=
  mkExportMap (path m) (namespace m) (reexports m) (dependencies m) im
              (errors m) (parseGoal m) (visitorKeys m) (mtime m) (doc m).

Definition with_errors (es : list ParseError) (m : ExportMap) :=
  mkExportMap (path m) (namespace m) (reexports m) (dependencies m)
              (imports m) es (parseGoal m) (visitorKeys m) (mtime m) (doc m).

Definition with_parseGoal (g : ParseGoal) (m : ExportMap) :=
  mkExportMap (path m) (namespace m) (reexports m) (dependencies m)
              (imports m) (errors m) g (visitorKeys m) (mtime m) (doc m).

Definition with_visitorKeys (k : option VisitorKeys) (m : ExportMap) :=
  mkExportMap (path m) (namespace m) (reexports m) (dependencies m)
              (imports m) (errors m) (parseGoal m) k (mtime m) (doc m).

Definition with_mtime (t : option Z) (m : ExportMap) :=
  mkExportMap (path m) (namespace m) (reexports m) (dependencies m)
              (imports m) (errors m) (parseGoal m) (visitorKeys m) t (doc m).

Definition with_doc (d : option Annotation) (m : ExportMap) :=
  mkExportMap (path m) (namespace m) (reexports m) (dependencies m)
              (imports m) (errors m) (parseGoal m) (visitorKeys m) (mtime m) d.

(** [m.namespace.set(key, meta)] *)
Definition namespace_set (key : Key) (meta : ExportMeta) (m : ExportMap) :=
  with_namespace (JsMap.set key meta (namespace m)) m.

(** ** Results of calls that can throw *)

Inductive Outcome (A : Type) :=
| Returned (a : A)
| Thrown (what : string).
Arguments Returned {A} a.
Arguments Thrown {A} what.

(** ** The syntax tree, as far as the builder reads it *)

Inductive CommentType := Block | Line.
Record Comment := mkComment {
  comment_type : CommentType;
  comment_value : string
}.

(** What [captureDoc] reads of a node: [leadingComments] when the parser
    attached an array of them (the legacy behaviour), and [range]. *)
Record NodeInfo := mkNode {
  leadingComments : option (list Comment);
  range : option (nat * nat)
}.

Record Literal := mkLiteral { value : string; loc : Loc }.

(** ['type'], ['typeof'] or ['value'] of [importKind] / [exportKind]. *)
Inductive ImportKind := KindType | KindTypeof | KindValue.

Inductive Specifier :=
| ImportSpecifier (imported : string) (local_name : string)
                  (importKind : option ImportKind)
| ImportDefaultSpecifier (local_name : string)
| ImportNamespaceSpecifier (local_name : string)
| ExportSpecifier (local_name : string) (exported : string)
| ExportDefaultSpecifier (exported : string)
| ExportNamespaceSpecifier (exported : string).

(** Binding patterns.  The properties of an [ObjectPattern] are [Property]
    or [RestElement] nodes; an array hole is [None]. *)
Inductive Pattern :=
| Identifier (name : string)
| ObjectPattern (properties : list Pattern)
| ArrayPattern (elements : list (option Pattern))
| AssignmentPattern (left : Pattern)
| RestElement (argument : Pattern)
| Property (value : Pattern)
| OtherPattern.

Record VariableDeclarator := mkDeclarator {
  declarator_node : NodeInfo;
  declarator_id : Pattern
}.

Inductive DeclarationType :=
| FunctionDeclaration | ClassDeclaration | TypeAlias | InterfaceDeclaration
| DeclareFunction | TSDeclareFunction | TSEnumDeclaration
| TSTypeAliasDeclaration | TSInterfaceDeclaration
| TSAbstractClassDeclaration | TSModuleDeclaration | VariableDeclaration
| OtherDeclaration.

(** The two node kinds that [parse] visits: a dynamic [import(...)]
    expression with its source, and a call expression, of which the
    builder reads whether the callee is the legacy [Import] node and the
    arguments. *)
Inductive CallArgument :=
| LiteralArgument (lit : Literal)
| OtherArgument.

Inductive VisitedNode :=
| ImportExpression (source : CallArgument)
| CallExpression (calleeIsImport : bool) (arguments : list CallArgument).

(** An expression, as far as the builder reads it: an identifier, an
    expression with an [id] (a class or function expression), an import
    or call expression, or another. *)
Inductive Expression :=
| IdentifierExpression (name : string)
| ExpressionWithId (id : option string)
| VisitedExpression (e : VisitedNode)
| OtherExpression.

(** Top-level statements and the members of a namespace block.  A
    declaration carries its [id.name] ([None] when there is no identifier
    with a name), its declarators and, for a [TSModuleDeclaration], its
    body. *)
Inductive Statement :=
| ExportDefaultDeclaration (node : NodeInfo) (declaration : Expression)
| ExportAllDeclaration (node : NodeInfo) (source : Literal)
                       (exportKind : ImportKind) (exported : option string)
| ImportDeclaration (node : NodeInfo) (source : Literal)
                    (importKind : option ImportKind)
                    (specifiers : list Specifier)
| ExportNamedDeclaration (node : NodeInfo) (source : option Literal)
                         (importKind : option ImportKind)
                         (declaration : option Statement)
                         (specifiers : list Specifier)
| Declaration (node : NodeInfo) (type : DeclarationType) (id : Key)
              (declarations : list VariableDeclarator)
              (body : option ModuleBody)
| TSExportAssignment (node : NodeInfo) (expression : Expression)
| TSNamespaceExportDeclaration (node : NodeInfo) (id : string)
| ExpressionStatement (node : NodeInfo) (expression : Expression)
| OtherStatement (node : NodeInfo)
with ModuleBody :=
| NestedModuleDeclaration (node : NodeInfo) (id : Key)
| ModuleBlock (body : list Statement).

Record Program := mkProgram {
  body : list Statement;
  comments : option (list Comment)
}.

(** [makeSourceCode(content, ast)] *)
Record SourceCode := mkSourceCode { text : string; ast : Program }.

Definition nodeOf (n : Statement) : NodeInfo :=
  match n with
  | ExportDefaultDeclaration node _ => node
  | ExportAllDeclaration node _ _ _ => node
  | ImportDeclaration node _ _ _ => node
  | ExportNamedDeclaration node _ _ _ _ => node
  | Declaration node _ _ _ _ => node
  | TSExportAssignment node _ => node
  | TSNamespaceExportDeclaration node _ => node
  | ExpressionStatement node _ => node
  | OtherStatement node => node
  end.

Inductive DocStyle := jsdoc | tomdoc.

Record Settings := mkSettings {
  docstyle : option (list DocStyle);
  other_settings : string
}.

Record ChildContext := mkChildContext {
  cacheKey : option string;
  settings : option Settings;
  parserOptions : string;
  parserPath : string;
  context_path : string;
  filename : option string
}.

(** ** Pattern walker *)

(** [recursivePatternCapture(pattern, callback)]: the nodes handed to the
    callback, in call order. *)
Fixpoint recursivePatternCapture (pattern : Pattern) : list Pattern :=
  match pattern with
  | Identifier _ => [pattern]
  | ObjectPattern properties =>
      flat_map (fun p =>
                  match p with
                  | RestElement argument => [argument]
                  | Property value => recursivePatternCapture value
                  | _ => []
                  end) properties
  | ArrayPattern elements =>
      flat_map (fun element =>
                  match element with
                  | None => []
                  | Some (RestElement argument) => [argument]
                  | Some e => recursivePatternCapture e
                  end) elements
  | AssignmentPattern lhs => [lhs]
  | _ => []
  end.

(** [(id as Identifier).name] *)
Definition nameOf (id : Pattern) : Key :=
  match id with
  | Identifier name => Some name
  | _ => None
  end.

(** ** Documentation capture *)

Definition DocStyleParser := list Comment -> option Annotation.

Section DocCapture.
(** [doctrine.parse(value, { unwrap: true })]; [None] when it throws. *)
Variable doctrine_parse : string -> option Annotation.

(** [source.getCommentsBefore(n)] of the host; [None] when it throws. *)
Variable getCommentsBefore : SourceCode -> NodeInfo -> option (list Comment).

(** [captureJsDoc(comments)]: every block comment that doctrine parses
    overwrites [doc]. *)
Definition captureJsDoc (comments : list Comment) : option Annotation :=
  fold_left
    (fun doc comment =>
       match comment_type comment with
       | Line => doc
       | Block =>
           match doctrine_parse (comment_value comment) with
           | Some parsed => Some parsed
           | None => doc
           end
       end)
    comments None.

(** The comments [captureDoc] looks at for one node: [Thrown] when
    [getCommentsBefore] throws, [Returned None] for [undefined]. *)
Definition leadingCommentsOf (source : SourceCode) (n : NodeInfo)
    : Outcome (option (list Comment)) :=
  match leadingComments n with
  | Some attached => Returned (Some attached)
  | None =>
      match range n with
      | Some _ =>
          match getCommentsBefore source n with
          | Some found => Returned (Some found)
          | None => Thrown "getCommentsBefore"
          end
      | None => Returned None
      end
  end.

(** [for (const parser of Object.values(docStyleParsers))]: every parser
    that yields a doc overwrites [metadata.doc]. *)
Definition applyParsers (docStyleParsers : list DocStyleParser)
    (leading : list Comment) (doc0 : option Annotation)
    : option Annotation :=
  fold_left
    (fun doc parser =>
       match parser leading with
       | Some parsed => Some parsed
       | None => doc
       end)
    docStyleParsers doc0.

(** [nodes.some(n => ...)] of [captureDoc], over the mutable [metadata]. *)
Fixpoint captureDoc_some (source : SourceCode)
    (docStyleParsers : list DocStyleParser) (nodes : list NodeInfo)
    (metadata : ExportMeta) : ExportMeta :=
  match nodes with
  | [] => metadata
  | n :: rest =>
      match leadingCommentsOf source n with
      | Thrown _ => captureDoc_some source docStyleParsers rest metadata
      | Returned None =>
          captureDoc_some source docStyleParsers rest metadata
      | Returned (Some []) =>
          captureDoc_some source docStyleParsers rest metadata
      | Returned (Some leading) =>
          mkMeta (applyParsers docStyleParsers leading (meta_doc metadata))
                 (meta_namespace metadata)
      end
  end.

Definition captureDoc (source : SourceCode)
    (docStyleParsers : list DocStyleParser) (nodes : list NodeInfo)
    : ExportMeta :=
  captureDoc_some source docStyleParsers nodes emptyMeta.
End DocCapture.

(** ** Module-graph builder: [ExportMap.parse] *)

#[global] Instance DocStyle_eq_dec : EqDecision DocStyle.
Proof. solve_decision. Defined.

#[global] Instance DeclarationType_eq_dec : EqDecision DeclarationType.
Proof. solve_decision. Defined.

(** JS truthiness of a string that may be missing. *)
Definition truthy (s : option string) : bool :=
  match s with
  | Some v => negb (String.eqb v "")
  | None => false
  end.

(** ['importKind' in n && (n.importKind === 'type' || ... 'typeof')] *)
Definition isTypeKind (k : option ImportKind) : bool :=
  match k with
  | Some KindType | Some KindTypeof => true
  | _ => false
  end.

Definition specifierImportKind (s : Specifier) : option ImportKind :=
  match s with
  | ImportSpecifier _ _ k => k
  | _ => None
  end.

(** The [importedSpecifiers] set and [specifiersOnlyImportingTypes] that
    [captureDependencyWithSpecifiers] computes from [n.specifiers]. *)
Definition collectSpecifiers (specifiers : list Specifier)
    : list string * bool :=
  fold_left
    (fun acc specifier =>
       let importedSpecifiers :=
         match specifier with
         | ImportSpecifier imported _ _ => set_add imported (fst acc)
         | ImportDefaultSpecifier _ =>
             set_add "ImportDefaultSpecifier" (fst acc)
         | ImportNamespaceSpecifier _ =>
             set_add "ImportNamespaceSpecifier" (fst acc)
         | _ => fst acc
         end in
       (importedSpecifiers,
        snd acc && isTypeKind (specifierImportKind specifier)))
    specifiers ([], (0 <? length specifiers)%nat).

(** The top-level statements that are import or export declarations. *)
Definition isModuleDeclaration (n : Statement) : bool :=
  match n with
  | ImportDeclaration _ _ _ _ => true
  | ExportNamedDeclaration _ _ _ _ _ => true
  | ExportDefaultDeclaration _ _ => true
  | ExportAllDeclaration _ _ _ _ => true
  | _ => false
  end.

(** [thunkFor(p, context)] *)
Definition thunkFor (p : string) : Getter := p.

(** State of the walk over [ast.body]: the map under construction and the
    local [namespaces] map (local name of a namespace import to its
    source). *)
Record Walk := mkWalk {
  walk_map : ExportMap;
  namespaces : list (string * string)
}.

Section Builder.
Variable doctrine_parse : string -> option Annotation.
Variable getCommentsBefore : SourceCode -> NodeInfo -> option (list Comment).
(** [captureTomDoc], a regular-expression scan of the comments. *)
Variable captureTomDoc : DocStyleParser.
(** [parse] of [utils/parse]: the tree and its visitor keys, or the
    parse error it throws. *)
Variable parser :
  string -> string -> ChildContext -> ParseError + Program * option VisitorKeys.
(** [visit] of [utils/visit]: the import expressions and call
    expressions of the tree, in the order the walker reaches them. *)
Variable visit : Program -> option VisitorKeys -> list VisitedNode.
(** [relative] of [utils/resolve]: [None] for null. *)
Variable relative : string -> string -> option Settings -> option string.
(** The answer of the nested [isEsModuleInterop()], which reads the
    nearest tsconfig through [tsconfigCache]. *)
Variable isEsModuleInterop : ChildContext -> bool.
(** [isUnambiguousModule] of [utils/unambiguous], the authoritative check
    on the tree. *)
Variable isUnambiguousModule : Program -> bool.

Definition availableDocStyleParsers (style : DocStyle) : DocStyleParser :=
  match style with
  | jsdoc => captureJsDoc doctrine_parse
  | tomdoc => captureTomDoc
  end.

(** The keys of [docStyleParsers], in the order of their first
    assignment. *)
Definition styleKeys (docStyles : list DocStyle) : list DocStyle :=
  fold_left
    (fun keys style =>
       if bool_decide (style ∈ keys) then keys else keys ++ [style])
    docStyles [].

Definition docStylesOf (context : ChildContext) : list DocStyle :=
  match settings context with
  | Some s =>
      match docstyle s with
      | Some styles => styles
      | None => [jsdoc]
      end
  | None => [jsdoc]
  end.

(** [ast.comments.some(c => ...)]: the first block comment that doctrine
    parses with a [module] tag. *)
Fixpoint moduleDoc (cs : list Comment) : option Annotation :=
  match cs with
  | [] => None
  | c :: rest =>
      match comment_type c with
      | Line => moduleDoc rest
      | Block =>
          match doctrine_parse (comment_value c) with
          | Some parsed =>
              if existsb (fun t => String.eqb (title t) "module")
                         (tags parsed)
              then Some parsed
              else moduleDoc rest
          | None => moduleDoc rest
          end
      end
  end.

Section Parse.
Variable path_ : string.
Variable content : string.
Variable context : ChildContext.

Definition remotePath (v : string) : option string :=
  relative v path_ (settings context).

(** [processDynamicImport(source)] on the pair of [hasDynamicImports]
    and the map; [source] is [None] for a missing first argument. *)
Definition processDynamicImport (source : option CallArgument)
    (m : ExportMap) : Outcome (bool * ExportMap) :=
  match source with
  | None => Thrown "TypeError"
  | Some OtherArgument => Returned (true, m)
  | Some (LiteralArgument lit) =>
      match remotePath (value lit) with
      | None => Returned (true, m)
      | Some p =>
          let entry :=
            mkImport (thunkFor p)
              [mkDecl (value lit) (loc lit) ["ImportNamespaceSpecifier"]
                      (Some true) None] in
          Returned (true, with_imports (JsMap.set p entry (imports m)) m)
      end
  end.

(** The two visitors of [parse], run over the visited nodes. *)
Fixpoint visitDynamicImports (nodes : list VisitedNode)
    (hasDynamicImports : bool) (m : ExportMap)
    : Outcome (bool * ExportMap) :=
  match nodes with
  | [] => Returned (hasDynamicImports, m)
  | ImportExpression source :: rest =>
      match processDynamicImport (Some source) m with
      | Thrown e => Thrown e
      | Returned (h, m') => visitDynamicImports rest h m'
      end
  | CallExpression true arguments :: rest =>
      match processDynamicImport (head arguments) m with
      | Thrown e => Thrown e
      | Returned (h, m') => visitDynamicImports rest h m'
      end
  | CallExpression false _ :: rest =>
      visitDynamicImports rest hasDynamicImports m
  end.

(** [addNamespace(object, identifier)], with [identifier.name]. *)
Definition addNamespace (nss : list (string * string))
    (object : ExportMeta) (identifier_name : Key) : ExportMeta :=
  match identifier_name with
  | Some name =>
      if JsMap.has name nss
      then mkMeta (meta_doc object) (Some (NsOfLocal name))
      else object
  | None => object
  end.

Definition captureDependency (source : option Literal)
    (onlyTypes : bool) (specifierSet : list string) (m : ExportMap)
    : ExportMap * option Getter :=
  match source with
  | None => (m, None)
  | Some src =>
      match remotePath (value src) with
      | None => (m, None)
      | Some p =>
          let declarationMetadata :=
            mkDecl (value src) (loc src) specifierSet None
                   (Some onlyTypes) in
          match JsMap.get p (imports m) with
          | Some existing =>
              (with_imports
                 (JsMap.set p
                    (mkImport (getter existing)
                       (declarations existing ++ [declarationMetadata]))
                    (imports m)) m,
               Some (getter existing))
          | None =>
              (with_imports
                 (JsMap.set p
                    (mkImport (thunkFor p) [declarationMetadata])
                    (imports m)) m,
               Some (thunkFor p))
          end
      end
  end.

Definition captureDependencyWithSpecifiers (source : option Literal)
    (importKind : option ImportKind) (specifiers : list Specifier)
    (m : ExportMap) : ExportMap * option Getter :=
  let declarationIsType := isTypeKind importKind in
  let collected := collectSpecifiers specifiers in
  captureDependency source (declarationIsType || snd collected)
                    (fst collected) m.

(** [processSpecifier(s, n, m)] for a specifier [s] of the named export
    [n], of which [source] is [n.source]. *)
Definition processSpecifier (nss : list (string * string))
    (s : Specifier) (source : option Literal) (m : ExportMap)
    : ExportMap :=
  let nsource := option_map value source in
  let reexport (local_ exported : string) (v : string) :=
    with_reexports
      (JsMap.set exported (mkReexport local_ (remotePath v))
                 (reexports m)) m in
  match s with
  | ExportDefaultSpecifier exported =>
      match nsource with
      | Some v => if truthy nsource then reexport "default" exported v
                  else m
      | None => m
      end
  | ExportNamespaceSpecifier exported =>
      namespace_set (Some exported)
                    (mkMeta None (Some (NsOfSource nsource))) m
  | ExportSpecifier local_ exported =>
      match source with
      | None =>
          namespace_set (Some exported)
                        (addNamespace nss emptyMeta (Some local_)) m
      | Some src => reexport local_ exported (value src)
      end
  | ImportSpecifier _ _ _
  | ImportDefaultSpecifier _
  | ImportNamespaceSpecifier _ => m
  end.

Variable source : SourceCode.
Variable docStyleParsers : list DocStyleParser.
Variable isEsModuleInteropTrue : bool.
(** [ast.body], which the export-assignment forms search. *)
Variable ast_body : list Statement.

Definition docOf (nodes : list NodeInfo) : ExportMeta :=
  captureDoc getCommentsBefore source docStyleParsers nodes.

(** [declarations.forEach(d => recursivePatternCapture(d.id, id =>
    m.namespace.set(id.name, captureDoc(source, docStyleParsers,
    ...nodes))))], where [nodesFor d] are the nodes handed to
    [captureDoc] for the declarator [d]. *)
Definition captureDeclarators
    (nodesFor : VariableDeclarator -> list NodeInfo)
    (ds : list VariableDeclarator) (m : ExportMap) : ExportMap :=
  fold_left
    (fun m1 d =>
       fold_left
         (fun m2 id_ => namespace_set (nameOf id_) (docOf (nodesFor d)) m2)
         (recursivePatternCapture (declarator_id d)) m1)
    ds m.

(** The [switch (n.declaration.type)] of a named export [n]. *)
Definition captureDeclaration (n : NodeInfo)
    (declaration : option Statement) (m : ExportMap) : ExportMap :=
  match declaration with
  | Some (Declaration _ dtype did ds _) =>
      match dtype with
      | VariableDeclaration =>
          captureDeclarators (fun d => [declarator_node d; n]) ds m
      | OtherDeclaration => m
      | _ => namespace_set did (docOf [n]) m
      end
  | _ => m
  end.

(** [exportedName] of an export-assignment form. *)
Definition exportedNameOf (n : Statement) : option string :=
  match n with
  | TSNamespaceExportDeclaration _ id_ => Some id_
  | TSExportAssignment _ (IdentifierExpression name) =>
      if truthy (Some name) then Some name else None
  | TSExportAssignment _ (ExpressionWithId id_) =>
      if truthy id_ then id_ else None
  | _ => None
  end.

Definition declTypes : list DeclarationType :=
  [VariableDeclaration; ClassDeclaration; TSDeclareFunction;
   TSEnumDeclaration; TSTypeAliasDeclaration; TSInterfaceDeclaration;
   TSAbstractClassDeclaration; TSModuleDeclaration].

(** The filter that selects [exportedDecls] from [ast.body]. *)
Definition isExportedDecl (exportedName : option string)
    (node : Statement) : bool :=
  match node, exportedName with
  | Declaration _ dtype did ds _, Some wanted =>
      bool_decide (dtype ∈ declTypes)
      && (bool_decide (did = Some wanted)
          || existsb
               (fun d => bool_decide (nameOf (declarator_id d) = Some wanted))
               ds)
  | _, _ => false
  end.

(** One member of the block of an exported namespace [decl]. *)
Definition captureModuleBlockNode (decl : NodeInfo)
    (moduleBlockNode : Statement) (m : ExportMap) : ExportMap :=
  let namespaceDecl :=
    match moduleBlockNode with
    | ExportNamedDeclaration _ _ _ declaration _ => declaration
    | other => Some other
    end in
  match namespaceDecl with
  | None => m
  | Some (Declaration dnode VariableDeclaration _ ds _) =>
      captureDeclarators
        (fun _ => [decl; dnode; nodeOf moduleBlockNode]) ds m
  | Some (Declaration _ _ did _ _) =>
      namespace_set did (docOf [nodeOf moduleBlockNode]) m
  | Some (TSNamespaceExportDeclaration _ id_) =>
      namespace_set (Some id_) (docOf [nodeOf moduleBlockNode]) m
  | Some _ => m
  end.

(** [exportedDecls.forEach(decl => ...)] for one declaration. *)
Definition captureExportedDecl (decl : Statement) (m : ExportMap)
    : ExportMap :=
  match decl with
  | Declaration dnode TSModuleDeclaration _ _ dbody =>
      match dbody with
      | Some (NestedModuleDeclaration bnode bid) =>
          namespace_set bid (docOf [bnode]) m
      | Some (ModuleBlock members) =>
          fold_left (fun m1 member => captureModuleBlockNode dnode member m1)
                    members m
      | None => m
      end
  | other => namespace_set (Some "default") (docOf [nodeOf other]) m
  end.

(** The export-assignment forms: [TSExportAssignment] and, with
    esModuleInterop, [TSNamespaceExportDeclaration]. *)
Definition isExportAssignment (n : Statement) : bool :=
  match n with
  | TSExportAssignment _ _ => true
  | TSNamespaceExportDeclaration _ _ => isEsModuleInteropTrue
  | _ => false
  end.

Definition captureExportAssignment (n : Statement) (m : ExportMap)
    : ExportMap :=
  let exportedDecls :=
    List.filter (isExportedDecl (exportedNameOf n)) ast_body in
  match exportedDecls with
  | [] => namespace_set (Some "default") (docOf [nodeOf n]) m
  | _ =>
      let m1 :=
        if isEsModuleInteropTrue
           && negb (JsMap.has (Some "default") (namespace m))
        then namespace_set (Some "default") emptyMeta m
        else m in
      fold_left (fun m2 decl => captureExportedDecl decl m2)
                exportedDecls m1
  end.

(** The callback of [ast.body.forEach]. *)
Definition walkStatement (w : Walk) (n : Statement) : Walk :=
  let m := walk_map w in
  let nss := namespaces w in
  match n with
  | ExportDefaultDeclaration node declaration =>
      let exportMeta := docOf [node] in
      let exportMeta' :=
        match declaration with
        | IdentifierExpression name =>
            addNamespace nss exportMeta (Some name)
        | _ => exportMeta
        end in
      mkWalk (namespace_set (Some "default") exportMeta' m) nss
  | ExportAllDeclaration node src exportKind exported =>
      let captured :=
        captureDependency (Some src)
          (match exportKind with KindType => true | _ => false end)
          [] m in
      let m1 :=
        match snd captured with
        | Some g =>
            with_dependencies
              (set_add g (dependencies (fst captured))) (fst captured)
        | None => fst captured
        end in
      let m2 :=
        match exported with
        | Some name =>
            namespace_set (Some name) (addNamespace nss emptyMeta None) m1
        | None => m1
        end in
      mkWalk m2 nss
  | ImportDeclaration node src importKind specifiers =>
      let m1 :=
        fst (captureDependencyWithSpecifiers (Some src) importKind
                                             specifiers m) in
      let ns :=
        List.find (fun s => match s with
                            | ImportNamespaceSpecifier _ => true
                            | _ => false
                            end) specifiers in
      match ns with
      | Some (ImportNamespaceSpecifier local_) =>
          mkWalk m1 (JsMap.set local_ (value src) nss)
      | _ => mkWalk m1 nss
      end
  | ExportNamedDeclaration node src importKind declaration specifiers =>
      let m1 :=
        fst (captureDependencyWithSpecifiers src importKind
                                             specifiers m) in
      let m2 := captureDeclaration node declaration m1 in
      mkWalk (fold_left (fun m3 s => processSpecifier nss s src m3)
                        specifiers m2) nss
  | _ =>
      if isExportAssignment n
      then mkWalk (captureExportAssignment n m) nss
      else w
  end.

Definition walkBody (m : ExportMap) : ExportMap :=
  walk_map (fold_left walkStatement ast_body (mkWalk m [])).
End Parse.

(** [ExportMap.parse(path, content, context)] *)
Definition parse (path_ content : string) (context : ChildContext)
    : Outcome (option ExportMap) :=
  let m := newExportMap path_ in
  let isEsModuleInteropTrue := isEsModuleInterop context in
  match parser path_ content context with
  | inl err => Returned (Some (with_errors (errors m ++ [err]) m))
  | inr (tree, keys) =>
      let m1 := with_visitorKeys keys m in
      match visitDynamicImports path_ context (visit tree keys) false m1 with
      | Thrown e => Thrown e
      | Returned (hasDynamicImports, m2) =>
          let unambiguouslyESM := isUnambiguousModule tree in
          if negb unambiguouslyESM && negb hasDynamicImports
          then Returned None
          else
            let docStyleParsers :=
              map availableDocStyleParsers
                  (styleKeys (docStylesOf context)) in
            let m3 :=
              match comments tree with
              | Some cs =>
                  match moduleDoc cs with
                  | Some d => with_doc (Some d) m2
                  | None => m2
                  end
              | None => m2
              end in
            let m4 :=
              walkBody path_ context (mkSourceCode content tree)
                       docStyleParsers isEsModuleInteropTrue (body tree) m3 in
            let m5 :=
              if isEsModuleInteropTrue
                 && (0 <? JsMap.size (namespace m4))%nat
                 && negb (JsMap.has (Some "default") (namespace m4))
              then namespace_set (Some "default") emptyMeta m4
              else m4 in
            let m6 :=
              if unambiguouslyESM then with_parseGoal Module_ m5 else m5 in
            Returned (Some m6)
      end
  end.
End Builder.

(** ** Resolution cache: [ExportMap.for]

    The module-level [exportCache] and the calls that leave the process
    (file system, filters, parser) are threaded through a small state and
    exception monad; every such call is recorded in [trace]. *)

Inductive Event :=
| StatSync (p : string)
| HasValidExtension (p : string)
| Ignore (p : string)
| ReadFileSync (p : string)
| IsMaybeUnambiguousModule
| Parse (p : string).

Record Process := mkProcess {
  exportCache : gmap string (option ExportMap);
  trace : list Event
}.

Record FileSystem := mkFileSystem {
  statSync_mtime : string -> option Z;
  readFileSync : string -> option string
}.

Module Eff.
Definition M (A : Type) : Type := Process -> Outcome A * Process.

Definition ret {A} (a : A) : M A := fun s => (Returned a, s).

Definition throw {A} (what : string) : M A := fun s => (Thrown what, s).

Definition bind {A B} (c : M A) (k : A -> M B) : M B :=
  fun s =>
    match c s with
    | (Returned a, s') => k a s'
    | (Thrown e, s') => (Thrown e, s')
    end.

Definition emit (e : Event) : M unit :=
  fun s => (Returned tt, mkProcess (exportCache s) (trace s ++ [e])).

(** [exportCache.get(key)]: [None] is [undefined], [Some None] the null
    sentinel. *)
Definition cacheGet (key : string) : M (option (option ExportMap)) :=
  fun s => (Returned (exportCache s !! key), s).

Definition cacheSet (key : string) (v : option ExportMap) : M unit :=
  fun s => (Returned tt, mkProcess (<[key := v]> (exportCache s)) (trace s)).

(** A call that may throw: [None] is the exception. *)
Definition orThrow {A} (what : string) (r : option A) : M A :=
  match r with
  | Some a => ret a
  | None => throw what
  end.

Definition ofOutcome {A} (r : Outcome A) : M A := fun s => (r, s).
End Eff.

Notation "'let!' x ':=' c 'in' k" := (Eff.bind c (fun x => k))
  (at level 10, x name, c at level 200, k at level 200).
Notation "'run!' c 'in' k" := (Eff.bind c (fun _ => k))
  (at level 10, c at level 200, k at level 200).

Section Cache.
Variable doctrine_parse : string -> option Annotation.
Variable getCommentsBefore : SourceCode -> NodeInfo -> option (list Comment).
Variable captureTomDoc : DocStyleParser.
Variable parser :
  string -> string -> ChildContext -> ParseError + Program * option VisitorKeys.
Variable visit : Program -> option VisitorKeys -> list VisitedNode.
Variable relative : string -> string -> option Settings -> option string.
Variable isEsModuleInterop : ChildContext -> bool.
Variable isUnambiguousModule : Program -> bool.
(** [hashObject(context).digest('hex')] *)
Variable hashObject : ChildContext -> string.
(** [hasValidExtension] and [ignore] of [utils/ignore]. *)
Variable hasValidExtension : string -> ChildContext -> bool.
Variable ignore : string -> ChildContext -> bool.
(** [isMaybeUnambiguousModule] of [utils/unambiguous]. *)
Variable isMaybeUnambiguousModule : string -> bool.

(** [context.cacheKey || hashObject(context).digest('hex')] *)
Definition cacheKeyOf (context : ChildContext) : string :=
  if truthy (cacheKey context)
  then default "" (cacheKey context)
  else hashObject context.

(** [exportCache.set(cacheKey, null); return null] *)
Definition cacheNull (key : string) : Eff.M (option ExportMap) :=
  run! Eff.cacheSet key None in Eff.ret None.

(** [ExportMap.for] from the validity checks on: the cache holds no
    usable entry. *)
Definition rebuild (fs : FileSystem) (context : ChildContext)
    (key : string) (stats_mtime : Z) : Eff.M (option ExportMap) :=
  let path_ := context_path context in
  run! Eff.emit (HasValidExtension path_) in
  if negb (hasValidExtension path_ context) then cacheNull key
  else
    run! Eff.emit (Ignore path_) in
    if ignore path_ context then cacheNull key
    else
      run! Eff.emit (ReadFileSync path_) in
      let! content := Eff.orThrow "readFileSync" (readFileSync fs path_) in
      run! Eff.emit IsMaybeUnambiguousModule in
      if negb (isMaybeUnambiguousModule content) then cacheNull key
      else
        run! Eff.emit (Parse path_) in
        let! parsed :=
          Eff.ofOutcome
            (parse doctrine_parse getCommentsBefore captureTomDoc
                   parser visit relative isEsModuleInterop isUnambiguousModule
                   path_ content context) in
        match parsed with
        | None => cacheNull key
        | Some exportMap =>
            let stamped := with_mtime (Some stats_mtime) exportMap in
            run! Eff.cacheSet key (Some stamped) in
            Eff.ret (Some stamped)
        end.

(** [ExportMap.for(context)] *)
Definition for_ (fs : FileSystem) (context : ChildContext)
    : Eff.M (option ExportMap) :=
  let path_ := context_path context in
  let key := cacheKeyOf context in
  let! cached := Eff.cacheGet key in
  match cached with
  | Some None => Eff.ret None
  | _ =>
      run! Eff.emit (StatSync path_) in
      let! stats_mtime :=
        Eff.orThrow "statSync" (statSync_mtime fs path_) in
      match cached with
      | Some (Some exportMap) =>
          match mtime exportMap with
          | None => Eff.throw "TypeError"
          | Some t =>
              if (t - stats_mtime =? 0)%Z
              then Eff.ret (Some exportMap)
              else rebuild fs context key stats_mtime
          end
      | _ => rebuild fs context key stats_mtime
      end
  end.

(** [hashObject({ parserOptions }).digest('hex')] and
    [hashObject({ settings }).digest('hex')]; the module-level memo of
    the two digests does not change what they are. *)
Variable hashParserOptions : string -> string.
Variable hashSettings : option Settings -> string.

(** [childContext(path, context)] for a [ChildContext]. *)
Definition childContext (path_ : string) (context : ChildContext)
    : ChildContext :=
  mkChildContext
    (Some (parserPath context ++ hashParserOptions (parserOptions context)
           ++ hashSettings (settings context) ++ path_)%string)
    (settings context) (parserOptions context) (parserPath context) path_
    (if truthy (filename context) then filename context else None).

(** A getter [thunkFor(p, context)] called in the process state [s]. *)
Definition callThunk (fs : FileSystem) (context : ChildContext)
    (p : Getter) : Eff.M (option ExportMap) :=
  for_ fs (childContext p context).
End Cache.

(** ** A small project used to run the definitions

    [/p/a.ts] has a default export and [export const x]; [/p/b.ts] is
    [export * from './a']; [/p/self.ts] is [export * from './self'];
    [/p/cycle.ts] is [export { x } from './cycle']; [/p/re.ts] is
    [export { default } from 'ext'] with [ext] unresolvable; [/p/dyn.js]
    is [import(name)]; [/p/script.js] has no module syntax; [/p/bad.ts]
    does not parse. *)

Module Fixture.
Definition node0 : NodeInfo := mkNode None None.
Definition loc0 : Loc := mkLoc 1 0.

Definition a_ts : Program :=
  mkProgram
    [ExportDefaultDeclaration node0 OtherExpression;
     ExportNamedDeclaration node0 None None
       (Some (Declaration node0 VariableDeclaration None
                [mkDeclarator node0 (Identifier "x")] None))
       []]
    None.

Definition b_ts : Program :=
  mkProgram [ExportAllDeclaration node0 (mkLiteral "./a" loc0) KindValue None]
            None.

Definition self_ts : Program :=
  mkProgram
    [ExportAllDeclaration node0 (mkLiteral "./self" loc0) KindValue None]
    None.

Definition cycle_ts : Program :=
  mkProgram
    [ExportNamedDeclaration node0 (Some (mkLiteral "./cycle" loc0)) None None
       [ExportSpecifier "x" "x"]]
    None.

Definition re_ts : Program :=
  mkProgram
    [ExportNamedDeclaration node0 (Some (mkLiteral "ext" loc0)) None None
       [ExportSpecifier "default" "default"]]
    None.

Definition dyn_js : Program :=
  mkProgram
    [ExpressionStatement node0
       (VisitedExpression (ImportExpression OtherArgument))]
    None.

Definition script_js : Program := mkProgram [OtherStatement node0] None.

Definition c_ts : Program :=
  mkProgram
    [ExportAllDeclaration node0 (mkLiteral "./script" loc0) KindValue None]
    None.

Definition d_ts : Program :=
  mkProgram
    [ExportNamedDeclaration node0 (Some (mkLiteral "./a" loc0)) None None
       [ExportSpecifier "z" "z"]]
    None.

Definition bad_error : ParseError := mkParseError "Unexpected token" 1 0.

Definition doctrine_parse (v : string) : option Annotation :=
  if String.eqb v "!" then None else Some (mkAnnotation v []).

Definition getCommentsBefore (_ : SourceCode) (_ : NodeInfo)
    : option (list Comment) := Some [].

Definition captureTomDoc (_ : list Comment) : option Annotation := None.

Definition parser (p content : string) (_ : ChildContext)
    : ParseError + Program * option VisitorKeys :=
  if String.eqb p "/p/a.ts" then inr (a_ts, None)
  else if String.eqb p "/p/b.ts" then inr (b_ts, None)
  else if String.eqb p "/p/self.ts" then inr (self_ts, None)
  else if String.eqb p "/p/cycle.ts" then inr (cycle_ts, None)
  else if String.eqb p "/p/re.ts" then inr (re_ts, None)
  else if String.eqb p "/p/dyn.js" then inr (dyn_js, None)
  else if String.eqb p "/p/script.js" then inr (script_js, None)
  else if String.eqb p "/p/c.ts" then inr (c_ts, None)
  else if String.eqb p "/p/d.ts" then inr (d_ts, None)
  else inl bad_error.

(** A walker for these trees: the visited expressions of the top-level
    statements. *)
Definition visit (tree : Program) (_ : option VisitorKeys)
    : list VisitedNode :=
  flat_map
    (fun n =>
       match n with
       | ExpressionStatement _ (VisitedExpression e) => [e]
       | ExportDefaultDeclaration _ (VisitedExpression e) => [e]
       | _ => []
       end)
    (body tree).

Definition relative (specifier from : string) (_ : option Settings)
    : option string :=
  if String.eqb specifier "./a" then Some "/p/a.ts"
  else if String.eqb specifier "./self" then Some "/p/self.ts"
  else if String.eqb specifier "./cycle" then Some "/p/cycle.ts"
  else if String.eqb specifier "./script" then Some "/p/script.js"
  else None.

Definition isEsModuleInterop (_ : ChildContext) : bool := false.

(** Modelled from the spec: [isUnambiguousModule] of [utils/unambiguous],
    the authoritative syntactic check, "presence of top-level
    import/export declarations". *)
Definition isUnambiguousModule (tree : Program) : bool :=
  existsb isModuleDeclaration (body tree).
Definition hashObject (c : ChildContext) : string := context_path c.
Definition hashParserOptions (o : string) : string := o.
Definition hashSettings (_ : option Settings) : string := "".
Definition hasValidExtension (_ : string) (_ : ChildContext) : bool := true.
Definition ignore (_ : string) (_ : ChildContext) : bool := false.
Definition isMaybeUnambiguousModule (_ : string) : bool := true.

Definition fs : FileSystem :=
  mkFileSystem (fun _ => Some 1000%Z) (fun _ => Some "").

Definition context (p : string) : ChildContext :=
  mkChildContext (Some ("espree" ++ p)%string) None "" "espree" p None.

Definition parse (p : string) : Outcome (option ExportMap) :=
  parse doctrine_parse getCommentsBefore captureTomDoc parser visit
        relative isEsModuleInterop isUnambiguousModule p "" (context p).

Definition for_ (c : ChildContext) : Eff.M (option ExportMap) :=
  for_ doctrine_parse getCommentsBefore captureTomDoc parser visit relative
       isEsModuleInterop isUnambiguousModule hashObject hasValidExtension
       ignore isMaybeUnambiguousModule fs c.

Definition emptyProcess : Process := mkProcess ∅ [].

(** What [ExportMap.for] answers for the file [p] of the project. *)
Definition exportMapFor (p : string) : option ExportMap :=
  match fst (for_ (context p) emptyProcess) with
  | Returned r => r
  | Thrown _ => None
  end.

Definition mapOf (p : string) : ExportMap :=
  default (newExportMap "") (exportMapFor p).

Definition a_map : ExportMap := Eval vm_compute in mapOf "/p/a.ts".
Definition b_map : ExportMap := Eval vm_compute in mapOf "/p/b.ts".
Definition c_map : ExportMap := Eval vm_compute in mapOf "/p/c.ts".
Definition d_map : ExportMap := Eval vm_compute in mapOf "/p/d.ts".
Definition self_map : ExportMap := Eval vm_compute in mapOf "/p/self.ts".
Definition cycle_map : ExportMap := Eval vm_compute in mapOf "/p/cycle.ts".
Definition re_map : ExportMap := Eval vm_compute in mapOf "/p/re.ts".

(** The process after [ExportMap.for] has run for [/p/a.ts], and after it
    has then run for [/p/script.js]. *)
Definition after_a : Process := snd (for_ (context "/p/a.ts") emptyProcess).
Definition after_script : Process :=
  snd (for_ (context "/p/script.js") after_a).

(** A node with two leading block comments. *)
Definition two_blocks : list Comment :=
  [mkComment Block "first"; mkComment Block "second"].
Definition documented : NodeInfo := mkNode (Some two_blocks) None.
Definition source0 : SourceCode := mkSourceCode "" a_ts.
End Fixture.

(** The map without the star-dependencies whose getter answers null: what
    "this edge does not exist" means for the map [m]. *)
Definition resolvable (W : string -> option ExportMap) (dep : Getter) : bool :=
  match W dep with
  | Some _ => true
  | None => false
  end.

Definition pruneNull (W : string -> option ExportMap) (m : ExportMap)
    : ExportMap :=
  with_dependencies (List.filter (resolvable W) (dependencies m)) m.

(** The reading "first comment match wins" of the annotation extractor:
    the first block comment that doctrine parses.  [captureJsDoc] is the
    source's function; this one is only compared with it. *)
Fixpoint firstJsDocMatch (doctrine_parse : string -> option Annotation)
    (cs : list Comment) : option Annotation :=
  match cs with
  | [] => None
  | c :: rest =>
      match comment_type c with
      | Line => firstJsDocMatch doctrine_parse rest
      | Block =>
          match doctrine_parse (comment_value c) with
          | Some parsed => Some parsed
          | None => firstJsDocMatch doctrine_parse rest
          end
      end
  end.

(** The visited nodes that make [parse] call [processDynamicImport]. *)
Definition isDynamicImport (v : VisitedNode) : bool :=
  match v with
  | ImportExpression _ => true
  | CallExpression calleeIsImport _ => calleeIsImport
  end.

(** A dynamic import whose source argument is present and not a literal;
    other call expressions are not concerned. *)
Definition nonLiteralSource (v : VisitedNode) : bool :=
  match v with
  | ImportExpression OtherArgument => true
  | ImportExpression (LiteralArgument _) => false
  | CallExpression true (OtherArgument :: _) => true
  | CallExpression true _ => false
  | CallExpression false _ => true
  end.

(** [x] is [m] with another [namespace]. *)
Definition only_namespace (m x : ExportMap) : Prop :=
  x = with_namespace (namespace x) m.

(** The cache entry that a call leaves behind is the value it returned;
    a rebuilt map carries the modification time it was built at. *)
Definition cached_as (s : Process) (key : string) (stats_mtime : Z)
    (r : option ExportMap) : Prop :=
  exportCache s !! key = Some r
  /\ match r with
     | Some exportMap => mtime exportMap = Some stats_mtime
     | None => True
     end.

(** A node at which [captureDoc] goes on to the next one: it has no
    leading comment, or looking for them throws. *)
Definition noLeadingComments
    (getCommentsBefore : SourceCode -> NodeInfo -> option (list Comment))
    (source : SourceCode) (n : NodeInfo) : bool :=
  match leadingCommentsOf getCommentsBefore source n with
  | Returned (Some (_ :: _)) => false
  | _ => true
  end.

(** A comment that [captureJsDoc] passes over. *)
Definition notJsDoc (doctrine_parse : string -> option Annotation)
    (c : Comment) : bool :=
  match comment_type c with
  | Line => true
  | Block =>
      match doctrine_parse (comment_value c) with
      | Some _ => false
      | None => true
      end
  end.

(** A derivation of the absence of [name] along the chain of re-exports
    and star-exports that starts at [m]: [m] does not have the name in
    its [namespace] and, when it re-exports it, the getter answers a map
    that is [m]'s own file under the same name, or a map for which the
    absence of the local name has a derivation in turn; when it does not
    re-export it, the name is ['default'], or its absence has a
    derivation for every star-dependency that answers a map of another
    file.  A derivation is finite, so that there is none on a chain with
    a cycle, whatever the files export: [nowhere_exported] and
    [finite_chain] below state the two conditions apart. *)
Inductive Absent (W : string -> option ExportMap)
    : ExportMap -> string -> Prop :=
| Absent_self_cycle (m : ExportMap) (name : string) (r : Reexport)
    (imported : ExportMap) :
    JsMap.has (Some name) (namespace m) = false ->
    JsMap.get name (reexports m) = Some r ->
    callGetImport W r = Some imported ->
    path imported = path m ->
    local r = name ->
    Absent W m name
| Absent_reexport (m : ExportMap) (name : string) (r : Reexport)
    (imported : ExportMap) :
    JsMap.has (Some name) (namespace m) = false ->
    JsMap.get name (reexports m) = Some r ->
    callGetImport W r = Some imported ->
    Absent W imported (local r) ->
    Absent W m name
| Absent_default (m : ExportMap) :
    JsMap.has (Some "default") (namespace m) = false ->
    JsMap.get "default" (reexports m) = None ->
    Absent W m "default"
| Absent_star (m : ExportMap) (name : string) :
    JsMap.has (Some name) (namespace m) = false ->
    JsMap.get name (reexports m) = None ->
    (forall dep inner,
        dep ∈ dependencies m ->
        callGetter W dep = Some inner ->
        path inner <> path m ->
        Absent W inner name) ->
    Absent W m name.

(** ** A second project, on top of the first

    [/p/e.ts] is [export { x as y } from './a']; [/p/alias.ts] is
    [export const y = 1; export { y as x } from './alias']; [/p/bb.ts] is
    [export * from './a']; [/p/dia.ts] is
    [export * from './b'; export * from './bb']; [/p/ns.ts] is
    [export * as ns from './a']; [/p/twice.js] is
    [import('./a'); import('./a')]; [/p/both.ts] is
    [import a from './a'; import { x } from './a'; export * from './a']. *)

Module Samples.
Definition e_ts : Program :=
  mkProgram
    [ExportNamedDeclaration Fixture.node0
       (Some (mkLiteral "./a" Fixture.loc0)) None None
       [ExportSpecifier "x" "y"]]
    None.

Definition alias_ts : Program :=
  mkProgram
    [ExportNamedDeclaration Fixture.node0 None None
       (Some (Declaration Fixture.node0 VariableDeclaration None
                [mkDeclarator Fixture.node0 (Identifier "y")] None))
       [];
     ExportNamedDeclaration Fixture.node0
       (Some (mkLiteral "./alias" Fixture.loc0)) None None
       [ExportSpecifier "y" "x"]]
    None.

Definition bb_ts : Program :=
  mkProgram
    [ExportAllDeclaration Fixture.node0 (mkLiteral "./a" Fixture.loc0)
       KindValue None]
    None.

Definition dia_ts : Program :=
  mkProgram
    [ExportAllDeclaration Fixture.node0 (mkLiteral "./b" Fixture.loc0)
       KindValue None;
     ExportAllDeclaration Fixture.node0 (mkLiteral "./bb" Fixture.loc0)
       KindValue None]
    None.

Definition ns_ts : Program :=
  mkProgram
    [ExportAllDeclaration Fixture.node0 (mkLiteral "./a" Fixture.loc0)
       KindValue (Some "ns")]
    None.

Definition twice_js : Program :=
  mkProgram
    [ExpressionStatement Fixture.node0
       (VisitedExpression
          (ImportExpression
             (LiteralArgument (mkLiteral "./a" Fixture.loc0))));
     ExpressionStatement Fixture.node0
       (VisitedExpression
          (ImportExpression
             (LiteralArgument (mkLiteral "./a" (mkLoc 2 0)))))]
    None.

Definition both_ts : Program :=
  mkProgram
    [ImportDeclaration Fixture.node0 (mkLiteral "./a" Fixture.loc0) None
       [ImportDefaultSpecifier "a"];
     ImportDeclaration Fixture.node0 (mkLiteral "./a" (mkLoc 2 0)) None
       [ImportSpecifier "x" "x" (Some KindValue)];
     ExportAllDeclaration Fixture.node0 (mkLiteral "./a" (mkLoc 3 0))
       KindValue None]
    None.

Definition parser (p content : string) (c : ChildContext)
    : ParseError + Program * option VisitorKeys :=
  if String.eqb p "/p/e.ts" then inr (e_ts, None)
  else if String.eqb p "/p/alias.ts" then inr (alias_ts, None)
  else if String.eqb p "/p/bb.ts" then inr (bb_ts, None)
  else if String.eqb p "/p/dia.ts" then inr (dia_ts, None)
  else if String.eqb p "/p/ns.ts" then inr (ns_ts, None)
  else if String.eqb p "/p/twice.js" then inr (twice_js, None)
  else if String.eqb p "/p/both.ts" then inr (both_ts, None)
  else Fixture.parser p content c.

Definition relative (specifier from : string) (s : option Settings)
    : option string :=
  if String.eqb specifier "./b" then Some "/p/b.ts"
  else if String.eqb specifier "./bb" then Some "/p/bb.ts"
  else if String.eqb specifier "./alias" then Some "/p/alias.ts"
  else Fixture.relative specifier from s.

(** The same project read with [esModuleInterop] on. *)
Definition interop (c : ChildContext) : bool := true.

Definition parse_interop (p : string) : Outcome (option ExportMap) :=
  parse Fixture.doctrine_parse Fixture.getCommentsBefore
        Fixture.captureTomDoc parser Fixture.visit relative
        interop Fixture.isUnambiguousModule
        p "" (Fixture.context p).

(** The first project after every file was touched. *)
Definition fs_later : FileSystem :=
  mkFileSystem (fun _ => Some 2000%Z) (fun _ => Some "").

Definition for_later (c : ChildContext) : Eff.M (option ExportMap) :=
  for_ Fixture.doctrine_parse Fixture.getCommentsBefore
       Fixture.captureTomDoc Fixture.parser Fixture.visit Fixture.relative
       Fixture.isEsModuleInterop Fixture.isUnambiguousModule
       Fixture.hashObject Fixture.hasValidExtension Fixture.ignore
       Fixture.isMaybeUnambiguousModule fs_later c.

Definition parse (p : string) : Outcome (option ExportMap) :=
  parse Fixture.doctrine_parse Fixture.getCommentsBefore
        Fixture.captureTomDoc parser Fixture.visit relative
        Fixture.isEsModuleInterop Fixture.isUnambiguousModule
        p "" (Fixture.context p).

Definition for_ (c : ChildContext) : Eff.M (option ExportMap) :=
  for_ Fixture.doctrine_parse Fixture.getCommentsBefore
       Fixture.captureTomDoc parser Fixture.visit relative
       Fixture.isEsModuleInterop Fixture.isUnambiguousModule
       Fixture.hashObject Fixture.hasValidExtension Fixture.ignore
       Fixture.isMaybeUnambiguousModule Fixture.fs c.

Definition exportMapFor (p : string) : option ExportMap :=
  match fst (for_ (Fixture.context p) Fixture.emptyProcess) with
  | Returned r => r
  | Thrown _ => None
  end.

Definition mapOf (p : string) : ExportMap :=
  default (newExportMap "") (exportMapFor p).

Definition e_map : ExportMap := Eval vm_compute in mapOf "/p/e.ts".
Definition alias_map : ExportMap := Eval vm_compute in mapOf "/p/alias.ts".
Definition bb_map : ExportMap := Eval vm_compute in mapOf "/p/bb.ts".
Definition dia_map : ExportMap := Eval vm_compute in mapOf "/p/dia.ts".
Definition ns_map : ExportMap := Eval vm_compute in mapOf "/p/ns.ts".
Definition twice_map : ExportMap := Eval vm_compute in mapOf "/p/twice.js".
Definition both_map : ExportMap := Eval vm_compute in mapOf "/p/both.ts".

(** What [parse] itself returns for a file, or an empty map. *)
Definition parsed (r : Outcome (option ExportMap)) : ExportMap :=
  match r with
  | Returned (Some m) => m
  | _ => newExportMap ""
  end.

Definition both_parsed : ExportMap :=
  Eval vm_compute in parsed (parse "/p/both.ts").

Definition alias_interop : ExportMap :=
  Eval vm_compute in parsed (parse_interop "/p/alias.ts").

Definition a_literal : Literal := mkLiteral "./a" (mkLoc 4 0).

(** A parser of another doc style, which reads the first comment. *)
Definition tomdoc_first (comments : list Comment) : option Annotation :=
  match comments with
  | c :: _ => Some (mkAnnotation (comment_value c) [])
  | [] => None
  end.

(** A doctrine that finds a [module] tag in the comment [@module m]. *)
Definition module_doc : Annotation :=
  mkAnnotation "" [mkTag "module" (Some "m")].

Definition doctrine_tags (v : string) : option Annotation :=
  if String.eqb v "@module m" then Some module_doc
  else Fixture.doctrine_parse v.

Definition a_entry : ImportEntry :=
  Eval vm_compute in
    default (mkImport "" []) (JsMap.get "/p/a.ts" (imports both_map)).
End Samples.

(** The fields of a map that the walk over the body never writes. *)
Definition core (m : ExportMap) :=
  (path m, errors m, parseGoal m, visitorKeys m, mtime m, doc m).

(** Every entry of [imports] has a getter for its own key and at least
    one declaration, and every star-dependency is the getter of an entry
    of [imports]. *)
Definition imports_ok (m : ExportMap) : Prop :=
  Forall (fun kv => getter (snd kv) = fst kv /\ declarations (snd kv) <> [])
         (imports m)
  /\ Forall (fun g => JsMap.has g (imports m) = true) (dependencies m).

(** Patterns in which every rest argument and every left-hand side of a
    default value is an identifier. *)
Fixpoint simpleBinders (p : Pattern) : bool :=
  match p with
  | ObjectPattern properties =>
      forallb (fun q =>
                 match q with
                 | RestElement (Identifier _) => true
                 | RestElement _ => false
                 | Property v => simpleBinders v
                 | _ => true
                 end) properties
  | ArrayPattern elements =>
      forallb (fun e =>
                 match e with
                 | None => true
                 | Some (RestElement (Identifier _)) => true
                 | Some (RestElement _) => false
                 | Some q => simpleBinders q
                 end) elements
  | AssignmentPattern (Identifier _) => true
  | AssignmentPattern _ => false
  | _ => true
  end.

(** A comment that [moduleDoc] passes over. *)
Definition notModuleDoc (doctrine_parse : string -> option Annotation)
    (c : Comment) : bool :=
  match comment_type c with
  | Line => true
  | Block =>
      match doctrine_parse (comment_value c) with
      | Some parsed =>
          negb (existsb (fun t => String.eqb (title t) "module")
                        (tags parsed))
      | None => true
      end
  end.

(** The callback of [recursivePatternCapture] gets identifiers only,
    exactly for the patterns of [simpleBinders]. *)
Definition identifiers_iff_simple (p : Pattern) : Prop :=
  simpleBinders p = true
  <-> Forall (fun q => nameOf q <> None) (recursivePatternCapture p).

(** What [ExportMap.for] keeps true of its cache: every map in it carries
    a modification time, is not a script, and satisfies [imports_ok]. *)
Definition cache_ok (s : Process) : Prop :=
  forall key m,
    exportCache s !! key = Some (Some m) ->
    mtime m <> None /\ parseGoal m <> Script /\ imports_ok m.

(** The process in which the entry of [key] is [undefined]. *)
Definition forget (key : string) (s : Process) : Process :=
  mkProcess (delete key (exportCache s)) (trace s).

(** ** Rule [max-dependencies]

    [moduleVisitor] of [utils/module-visitor] decides which sources the
    callback of the rule sees; the rule is run here on the sources it was
    called with, each with the [importKind] of its node.  [max] is an
    integer here. *)

Module MaxDependencies.
Definition DEFAULT_MAX : Z := 10.
Definition DEFAULT_IGNORE_TYPE_IMPORTS : bool := false.

(** [context.options[0]]; a missing property is [None]. *)
Record Options := mkOptions {
  max : option Z;
  ignoreTypeImports : option bool
}.

(** [context.report(lastNode, `Maximum number of dependencies (${max})
    exceeded.`)] *)
Record Report := mkReport {
  report_node : option Literal;
  report_max : Z
}.

Record State := mkState {
  dependencies : list string;
  lastNode : option Literal
}.

(** [countDependencies(dependencies, lastNode, context)]; the comparison
    with an [undefined] [max] is false. *)
Definition countDependencies (dependencies : list string)
    (lastNode : option Literal) (options0 : option Options)
    : list Report :=
  let max_ :=
    match options0 with
    | Some o => max o
    | None => Some DEFAULT_MAX
    end in
  match max_ with
  | Some limit =>
      if (limit <? Z.of_nat (length dependencies))%Z
      then [mkReport lastNode limit]
      else []
  | None => []
  end.

(** The callback handed to [moduleVisitor]. *)
Definition visitSource (options0 : option Options) (st : State)
    (visited : Literal * option ImportKind) : State :=
  let ignoreTypeImports_ :=
    match options0 with
    | Some o => default DEFAULT_IGNORE_TYPE_IMPORTS (ignoreTypeImports o)
    | None => DEFAULT_IGNORE_TYPE_IMPORTS
    end in
  let source := fst visited in
  let isType :=
    match snd visited with
    | Some KindType => true
    | _ => false
    end in
  mkState
    (if negb isType || negb ignoreTypeImports_
     then set_add (value source) (dependencies st)
     else dependencies st)
    (Some source).

(** The rule on one file: the visits, then [Program:exit]. *)
Definition run (options0 : option Options)
    (visits : list (Literal * option ImportKind)) : list Report :=
  let st := fold_left (visitSource options0) visits (mkState [] None) in
  countDependencies (dependencies st) (lastNode st) options0.

(** A visit that leaves the set of dependencies as it is: a source that
    was counted before, or a type import that the options ignore. *)
Definition uncounted (options0 : option Options)
    (before : list (Literal * option ImportKind))
    (visited : Literal * option ImportKind) : Prop :=
  value (fst visited)
  ∈ dependencies
      (fold_left (visitSource options0) before (mkState [] None))
  \/ (snd visited = Some KindType
      /\ exists o, options0 = Some o /\ ignoreTypeImports o = Some true).
End MaxDependencies.

(** ** Rule [no-named-as-default-member]

    The rule is run on what its visitors are called with:
    [ExportMap.get(declaration.source.value, context)] is the [exportMap]
    of an [ImportDefaultSpecifier]; a [VariableDeclarator] is here when
    it destructures an identifier, with [key.name] and the key node of
    each property, [None] for a property without key. *)

Module NoNamedAsDefaultMember.
Inductive Visit :=
| ImportDefaultSpecifier (local_name : string) (source_value : string)
                         (exportMap : option ExportMap)
| MemberExpression (objectName propName : Key) (node : NodeInfo)
| VariableDeclarator (objectName : string)
                     (properties : list (option (Key * NodeInfo))).

Record FileImport := mkFileImport {
  import_exportMap : ExportMap;
  sourcePath : string
}.

Record Lookup := mkLookup { lookup_node : NodeInfo; propName : Key }.

Inductive Report :=
| ParseErrors (source_value : string) (errors : list ParseError)
| Caution (node : NodeInfo) (objectName propName : Key)
          (sourcePath : string).

Record State := mkState {
  fileImports : list (string * FileImport);
  allPropertyLookups : list (Key * list Lookup);
  reports : list Report
}.

Definition storePropertyLookup (objectName propName : Key)
    (node : NodeInfo) (all : list (Key * list Lookup))
    : list (Key * list Lookup) :=
  let lookups := default [] (JsMap.get objectName all) in
  JsMap.set objectName (lookups ++ [mkLookup node propName]) all.

Definition visit (st : State) (v : Visit) : State :=
  match v with
  | ImportDefaultSpecifier local_name source_value None => st
  | ImportDefaultSpecifier local_name source_value (Some exportMap) =>
      match errors exportMap with
      | _ :: _ =>
          mkState (fileImports st) (allPropertyLookups st)
                  (reports st
                   ++ [ParseErrors source_value (errors exportMap)])
      | [] =>
          mkState
            (JsMap.set local_name (mkFileImport exportMap source_value)
                       (fileImports st))
            (allPropertyLookups st) (reports st)
      end
  | MemberExpression objectName propName node =>
      mkState (fileImports st)
              (storePropertyLookup objectName propName node
                                   (allPropertyLookups st))
              (reports st)
  | VariableDeclarator objectName properties =>
      mkState (fileImports st)
              (fold_left
                 (fun all property =>
                    match property with
                    | None => all
                    | Some (key_name, key) =>
                        storePropertyLookup (Some objectName) key_name key
                                            all
                    end)
                 properties (allPropertyLookups st))
              (reports st)
  end.

(** [fileImports.get(objectName)]; the keys of [fileImports] are
    strings, so an [undefined] name finds nothing. *)
Definition fileImportOf (objectName : Key)
    (imports_ : list (string * FileImport)) : option FileImport :=
  match objectName with
  | Some name => JsMap.get name imports_
  | None => None
  end.

(** ['Program:exit'] *)
Definition programExit (st : State) : list Report :=
  flat_map
    (fun entry =>
       match fileImportOf (fst entry) (fileImports st) with
       | None => []
       | Some fileImport =>
           flat_map
             (fun lookup =>
                if bool_decide (propName lookup = Some "default") then []
                else if negb (JsMap.has (propName lookup)
                                (namespace (import_exportMap fileImport)))
                then []
                else [Caution (lookup_node lookup) (fst entry)
                              (propName lookup) (sourcePath fileImport)])
             (snd entry)
       end)
    (allPropertyLookups st).

Definition run (visits : list Visit) : list Report :=
  let st := fold_left visit visits (mkState [] [] []) in
  reports st ++ programExit st.

(** The property lookups among the visits: what [storePropertyLookup] is
    called with. *)
Definition lookupsOf (v : Visit) : list (Key * Lookup) :=
  match v with
  | ImportDefaultSpecifier _ _ _ => []
  | MemberExpression objectName propName_ node =>
      [(objectName, mkLookup node propName_)]
  | VariableDeclarator objectName properties =>
      flat_map
        (fun property =>
           match property with
           | None => []
           | Some (key_name, key) =>
               [(Some objectName, mkLookup key key_name)]
           end)
        properties
  end.

(** The default imports that the visits register: those with a map
    without parse errors. *)
Definition registered (v : Visit) : option (string * FileImport) :=
  match v with
  | ImportDefaultSpecifier local_name source_value (Some exportMap) =>
      match errors exportMap with
      | [] => Some (local_name, mkFileImport exportMap source_value)
      | _ => None
      end
  | _ => None
  end.

(** The last default import registered under the local name [name]. *)
Definition importedAs (name : string) (visits : list Visit)
    : option FileImport :=
  fold_left
    (fun found v =>
       match registered v with
       | Some (local_name, fileImport) =>
           if decide (name = local_name) then Some fileImport else found
       | None => found
       end)
    visits None.

(** [all] holds the lookups [stored], under their object names. *)
Definition stores (all : list (Key * list Lookup))
    (stored : list (Key * Lookup)) : Prop :=
  NoDup (map fst all)
  /\ forall o l,
       (exists ls, (o, ls) ∈ all /\ l ∈ ls) <-> (o, l) ∈ stored.
End NoNamedAsDefaultMember.

(** ** The memo of [childContext]

    [childContext] keeps the last settings and parser options it hashed,
    as their [JSON.stringify] text, and the two digests; a text of
    [None] is [undefined]. *)

Record HashMemo := mkHashMemo {
  parserOptionsHash : string;
  prevParserOptions : option string;
  settingsHash : string;
  prevSettings : option string
}.

(** [let parserOptionsHash = ''], [let prevParserOptions = ''], ... *)
Definition initialMemo : HashMemo := mkHashMemo "" (Some "") "" (Some "").

Section ChildContextMemo.
Variable stringifySettings : option Settings -> option string.
Variable stringifyParserOptions : string -> option string.
Variable hashParserOptions : string -> string.
Variable hashSettings : option Settings -> string.

Definition childContextMemo (path_ : string) (context : ChildContext)
    (memo : HashMemo) : ChildContext * HashMemo :=
  let memo1 :=
    if bool_decide (stringifySettings (settings context)
                    <> prevSettings memo)
    then mkHashMemo (parserOptionsHash memo) (prevParserOptions memo)
                    (hashSettings (settings context))
                    (stringifySettings (settings context))
    else memo in
  let memo2 :=
    if bool_decide (stringifyParserOptions (parserOptions context)
                    <> prevParserOptions memo1)
    then mkHashMemo (hashParserOptions (parserOptions context))
                    (stringifyParserOptions (parserOptions context))
                    (settingsHash memo1) (prevSettings memo1)
    else memo1 in
  (mkChildContext
     (Some (parserPath context ++ parserOptionsHash memo2
            ++ settingsHash memo2 ++ path_)%string)
     (settings context) (parserOptions context) (parserPath context) path_
     (if truthy (filename context) then filename context else None),
   memo2).

(** The memo holds the digests of what it last hashed. *)
Definition memo_ok (memo : HashMemo) : Prop :=
  (prevSettings memo = Some ""
   \/ exists x, prevSettings memo = stringifySettings x
                /\ settingsHash memo = hashSettings x)
  /\ (prevParserOptions memo = Some ""
      \/ exists o, prevParserOptions memo = stringifyParserOptions o
                   /\ parserOptionsHash memo = hashParserOptions o).
End ChildContextMemo.

(** ** The nested [isEsModuleInterop] of [parse]

    [getTsconfig] of [get-tsconfig] answers the [config] of the tsconfig
    it finds, [None] for null; [tsconfigCache] is passed through. *)

Module TsConfig.
Inductive ProjectEntry :=
| ProjectTrue
| ProjectPath (p : string).

(** [parserOptions.project]: one entry or an array of them. *)
Inductive Project :=
| OneProject (entry : ProjectEntry)
| ManyProjects (entries : list ProjectEntry).

Record ParserOptions := mkParserOptions {
  tsconfigRootDir : option string;
  project : option Project
}.

Record CompilerOptions := mkCompilerOptions {
  esModuleInterop : option bool
}.

Record TsConfigJson := mkTsConfigJson {
  compilerOptions : option CompilerOptions
}.

Abbreviation Cache := (gmap string (option TsConfigJson)).

(** JS truthiness of [project]: an array is truthy, the empty string is
    not. *)
Definition projectTruthy (p : option Project) : bool :=
  match p with
  | Some (OneProject ProjectTrue) => true
  | Some (OneProject (ProjectPath s)) => negb (String.eqb s "")
  | Some (ManyProjects _) => true
  | None => false
  end.

Definition projectsOf (p : option Project) : list ProjectEntry :=
  match p with
  | Some (OneProject entry) => [entry]
  | Some (ManyProjects entries) => entries
  | None => []
  end.

Section IsEsModuleInterop.
(** [hashObject({ tsconfigRootDir, project }).digest('hex')] *)
Variable hashKey : option string -> option Project -> string.
Variable pathResolve : string -> string -> string.
(** [process.cwd()] *)
Variable cwd : string.
Variable getTsconfig : option string -> option TsConfigJson.

(** [tsconfigRootDir || process.cwd()] *)
Definition rootDir (tsconfigRootDir : option string) : string :=
  if truthy tsconfigRootDir then default "" tsconfigRootDir else cwd.

(** [project === true ? context.filename
     : pathResolve(tsconfigRootDir, project)] *)
Definition searchPath (root : string) (filename : option string)
    (entry : ProjectEntry) : option string :=
  match entry with
  | ProjectTrue => filename
  | ProjectPath p => Some (pathResolve root p)
  end.

(** The [for (const project of projects)] loop: [tsconfigResult] after
    it, starting from [undefined]. *)
Fixpoint searchProjects (root : string) (filename : option string)
    (projects : list ProjectEntry) : option TsConfigJson :=
  match projects with
  | [] => None
  | entry :: rest =>
      match getTsconfig (searchPath root filename entry) with
      | Some found => Some found
      | None => searchProjects root filename rest
      end
  end.

(** [isEsModuleInterop()] for the [parserOptions] and the [filename] of
    the context; the answer is [None] when [esModuleInterop] is not a
    property of the compiler options. *)
Definition isEsModuleInterop (parserOptions : ParserOptions)
    (filename : option string) (tsconfigCache : Cache)
    : option bool * Cache :=
  let cacheKey :=
    hashKey (tsconfigRootDir parserOptions) (project parserOptions) in
  let looked :=
    match tsconfigCache !! cacheKey with
    | Some tsConfig => (tsConfig, tsconfigCache)
    | None =>
        let root := rootDir (tsconfigRootDir parserOptions) in
        let tsConfig :=
          if projectTruthy (project parserOptions)
          then searchProjects root filename
                              (projectsOf (project parserOptions))
          else getTsconfig (Some root) in
        (tsConfig, <[cacheKey := tsConfig]> tsconfigCache)
    end in
  (match fst looked with
   | Some tsConfig =>
       match compilerOptions tsConfig with
       | Some options => esModuleInterop options
       | None => Some false
       end
   | None => Some false
   end,
   snd looked).
End IsEsModuleInterop.
End TsConfig.

(** Settings, parser options and a tsconfig for the first project. *)
Module ConfigSamples.
Definition stringifySettings (s : option Settings) : option string :=
  match s with
  | Some _ => Some "{}"
  | None => None
  end.

Definition stringifyParserOptions (o : string) : option string :=
  Some ("o" ++ o)%string.

Definition hashKey (root : option string) (p : option TsConfig.Project)
    : string :=
  default "" root.

Definition pathResolve (root p : string) : string :=
  (root ++ "/" ++ p)%string.

Definition interop_config : TsConfig.TsConfigJson :=
  TsConfig.mkTsConfigJson (Some (TsConfig.mkCompilerOptions (Some true))).

(** The only tsconfig is the one found from [/p/a.ts]. *)
Definition getTsconfig (searchPath : option string)
    : option TsConfig.TsConfigJson :=
  match searchPath with
  | Some p => if String.eqb p "/p/a.ts" then Some interop_config else None
  | None => None
  end.

Definition noTsconfig (searchPath : option string)
    : option TsConfig.TsConfigJson := None.

Definition project_options : TsConfig.ParserOptions :=
  TsConfig.mkParserOptions None
    (Some (TsConfig.OneProject TsConfig.ProjectTrue)).

(** [isEsModuleInterop] in a process started in [/p]. *)
Definition interopOf
    (getTsconfig : option string -> option TsConfig.TsConfigJson) :=
  TsConfig.isEsModuleInterop hashKey pathResolve "/p" getTsconfig.
End ConfigSamples.

(** [x] has every export name, re-exported name, star-dependency and
    imported file of [m]. *)
Definition grows (m x : ExportMap) : Prop :=
  (forall k, JsMap.has k (namespace m) = true ->
             JsMap.has k (namespace x) = true)
  /\ (forall k, JsMap.has k (reexports m) = true ->
                JsMap.has k (reexports x) = true)
  /\ (forall g, g ∈ dependencies m -> g ∈ dependencies x)
  /\ (forall p, JsMap.has p (imports m) = true ->
                JsMap.has p (imports x) = true).

(** [namespace ns { class Hidden {}; export class Shown {} }; export = ns] *)
Module ExportAssignmentSample.
Definition hidden : Statement :=
  Declaration Fixture.node0 ClassDeclaration (Some "Hidden") [] None.

Definition shown : Statement :=
  ExportNamedDeclaration Fixture.node0 None None
    (Some (Declaration Fixture.node0 ClassDeclaration (Some "Shown") []
             None))
    [].

Definition ns : Statement :=
  Declaration Fixture.node0 TSModuleDeclaration (Some "ns") []
    (Some (ModuleBlock [hidden; shown])).

Definition assignment : Statement :=
  TSExportAssignment Fixture.node0 (IdentifierExpression "ns").

Definition body : list Statement := [ns; assignment].
End ExportAssignmentSample.

(** ** The chain behind a name

    The maps and names that [get(n)] on [m] goes on to ask: the source
    and local name of the re-export of [n], unless the path-and-name
    guard stops it, or else, for a name other than ['default'], every
    star-dependency that answers a map of another file. *)
Definition chain_next (W : string -> option ExportMap) (m : ExportMap)
    (n : string) : list (ExportMap * string) :=
  if JsMap.has (Some n) (namespace m) then []
  else
    match JsMap.get n (reexports m) with
    | Some r =>
        match callGetImport W r with
        | None => []
        | Some imported =>
            if String.eqb (path imported) (path m)
               && String.eqb (local r) n
            then []
            else [(imported, local r)]
        end
    | None =>
        if is_default n then []
        else
          flat_map
            (fun dep =>
               match callGetter W dep with
               | None => []
               | Some inner =>
                   if String.eqb (path inner) (path m) then []
                   else [(inner, n)]
               end)
            (dependencies m)
    end.

Definition chain_step (W : string -> option ExportMap)
    (x y : ExportMap * string) : Prop :=
  y ∈ chain_next W (fst x) (snd x).

(** No export named [n] anywhere along the chain that starts at [m], and
    no re-export on it with an unanalyzable target: no map on the chain
    has the name it is asked for in its [namespace], and every getter of
    a re-export of that name answers a map. *)
Definition nowhere_exported (W : string -> option ExportMap)
    (m : ExportMap) (n : string) : Prop :=
  forall m' n',
    rtc (chain_step W) (m, n) (m', n') ->
    JsMap.has (Some n') (namespace m') = false
    /\ forall r, JsMap.get n' (reexports m') = Some r ->
                 callGetImport W r <> None.

(** The chain that starts at [m] and [n] is finite: following it never
    goes on for ever, which is to say that it has no cycle. *)
Definition finite_chain (W : string -> option ExportMap)
    (m : ExportMap) (n : string) : Prop :=
  Acc (fun y x => chain_step W x y) (m, n).

(** ** A project with a star cycle

    [/q/a.ts] is [export * from './b'], [/q/b.ts] is
    [export * from './a'] and [/q/m.ts] is [export { n } from './a']. *)

Module StarCycle.
Definition a_ts : Program :=
  mkProgram
    [ExportAllDeclaration Fixture.node0 (mkLiteral "./b" Fixture.loc0)
       KindValue None]
    None.

Definition b_ts : Program :=
  mkProgram
    [ExportAllDeclaration Fixture.node0 (mkLiteral "./a" Fixture.loc0)
       KindValue None]
    None.

Definition m_ts : Program :=
  mkProgram
    [ExportNamedDeclaration Fixture.node0
       (Some (mkLiteral "./a" Fixture.loc0)) None None
       [ExportSpecifier "n" "n"]]
    None.

Definition parser (p content : string) (c : ChildContext)
    : ParseError + Program * option VisitorKeys :=
  if String.eqb p "/q/a.ts" then inr (a_ts, None)
  else if String.eqb p "/q/b.ts" then inr (b_ts, None)
  else if String.eqb p "/q/m.ts" then inr (m_ts, None)
  else inl Fixture.bad_error.

Definition relative (specifier from : string) (s : option Settings)
    : option string :=
  if String.eqb specifier "./a" then Some "/q/a.ts"
  else if String.eqb specifier "./b" then Some "/q/b.ts"
  else None.

(** What [ExportMap.for] answers for the file [p] of this project. *)
Definition exportMapFor (p : string) : option ExportMap :=
  match
    fst (for_ Fixture.doctrine_parse Fixture.getCommentsBefore
           Fixture.captureTomDoc parser Fixture.visit relative
           Fixture.isEsModuleInterop Fixture.isUnambiguousModule
           Fixture.hashObject Fixture.hasValidExtension Fixture.ignore
           Fixture.isMaybeUnambiguousModule Fixture.fs
           (Fixture.context p) Fixture.emptyProcess)
  with
  | Returned r => r
  | Thrown _ => None
  end.

Definition mapOf (p : string) : ExportMap :=
  default (newExportMap "") (exportMapFor p).

Definition a_map : ExportMap := Eval vm_compute in mapOf "/q/a.ts".
Definition b_map : ExportMap := Eval vm_compute in mapOf "/q/b.ts".
Definition m_map : ExportMap := Eval vm_compute in mapOf "/q/m.ts".
End StarCycle.

(** * Properties *)

(** ** JS maps *)

Lemma jsmap_has_false_get {K V : Type} `{EqDecision K} (k : K)
    (m : list (K * V)) :
  JsMap.has k m = false -> JsMap.get k m = None.
Proof.
  unfold JsMap.has. destruct (JsMap.get k m); [discriminate | reflexivity].
Qed.

Lemma jsmap_get_has {K V : Type} `{EqDecision K} (k : K) (v : V)
    (m : list (K * V)) :
  JsMap.get k m = Some v -> JsMap.has k m = true.
Proof. unfold JsMap.has. intros ->. reflexivity. Qed.

Lemma jsmap_get_none_has {K V : Type} `{EqDecision K} (k : K)
    (m : list (K * V)) :
  JsMap.get k m = None -> JsMap.has k m = false.
Proof. unfold JsMap.has. intros ->. reflexivity. Qed.

(** ** Deep queries: the name ['default'] *)

Section DefaultFacts.
Variable W : string -> option ExportMap.

Lemma has_default (fuel : nat) (m : ExportMap) :
  has W (S fuel) m "default"
  = Some (JsMap.has (Some "default") (namespace m)
          || JsMap.has "default" (reexports m)).
Proof.
  cbn [has]. unfold has_step.
  destruct (JsMap.has (Some "default") (namespace m)); [reflexivity |].
  destruct (JsMap.has "default" (reexports m)); reflexivity.
Qed.

Lemma hasDeep_default_absent (fuel : nat) (m : ExportMap) :
  JsMap.has (Some "default") (namespace m) = false ->
  JsMap.has "default" (reexports m) = false ->
  hasDeep W (S fuel) m "default" = Some (Deep.mk false [m]).
Proof.
  intros Hns Hre. cbn [hasDeep]. unfold hasDeep_step.
  rewrite Hns, (jsmap_has_false_get _ _ Hre). reflexivity.
Qed.

Lemma get_default_absent (fuel : nat) (m : ExportMap) :
  JsMap.has (Some "default") (namespace m) = false ->
  JsMap.has "default" (reexports m) = false ->
  get W (S fuel) m "default" = Some VUndefined.
Proof.
  intros Hns Hre. cbn [get]. unfold get_step.
  rewrite (jsmap_has_false_get _ _ Hns), (jsmap_has_false_get _ _ Hre).
  reflexivity.
Qed.

Lemma forward_no_default (this : ExportMap) (calls : list Call) :
  Forall (fun c => call_name c <> Some "default") (forward this calls).
Proof.
  unfold forward. apply Forall_map, Forall_forall.
  intros c Hc. apply list_elem_of_filter in Hc. exact (proj1 Hc).
Qed.

Lemma forEach_deps_no_default (forEach_rec : ExportMap -> option (list Call))
    (this : ExportMap) (deps : list Getter) :
  match forEach_deps W forEach_rec this deps with
  | Some calls => Forall (fun c => call_name c <> Some "default") calls
  | None => True
  end.
Proof.
  induction deps as [| dep rest IH]; cbn [forEach_deps].
  - constructor.
  - destruct (callGetter W dep) as [d |]; [| exact IH].
    destruct (forEach_rec d) as [inner |]; [| exact I].
    destruct (forEach_deps W forEach_rec this rest) as [calls |]; [| exact I].
    apply Forall_app. split; [apply forward_no_default | exact IH].
Qed.
End DefaultFacts.

(** ** Deep queries: re-exports *)

Section ReexportFacts.
Variable W : string -> option ExportMap.

Lemma hasDeep_reexport_null (fuel : nat) (m : ExportMap) (n : string)
    (r : Reexport) :
  JsMap.has (Some n) (namespace m) = false ->
  JsMap.get n (reexports m) = Some r ->
  callGetImport W r = None ->
  hasDeep W (S fuel) m n = Some (Deep.mk true [m]).
Proof.
  intros Hns Hre Hnull. cbn [hasDeep]. unfold hasDeep_step.
  rewrite Hns, Hre, Hnull. reflexivity.
Qed.

Lemma get_reexport_null (fuel : nat) (m : ExportMap) (n : string)
    (r : Reexport) :
  JsMap.has (Some n) (namespace m) = false ->
  JsMap.get n (reexports m) = Some r ->
  callGetImport W r = None ->
  get W (S fuel) m n = Some VNull.
Proof.
  intros Hns Hre Hnull. cbn [get]. unfold get_step.
  rewrite (jsmap_has_false_get _ _ Hns), Hre, Hnull. reflexivity.
Qed.

(** Along the star-dependencies, a [hasDeep] that ends not found has
    gone through every edge that [get] goes through. *)
Lemma get_deps_of_hasDeep_deps
    (hasDeep_rec : ExportMap -> string -> option Deep.t)
    (get_rec : ExportMap -> string -> option Value)
    (this : ExportMap) (n : string) (deps : list Getter) (d : Deep.t) :
  (forall im r, hasDeep_rec im n = Some r -> Deep.found r = false ->
                get_rec im n = Some VUndefined) ->
  hasDeep_deps W hasDeep_rec this n deps = Some d ->
  Deep.found d = false ->
  get_deps W get_rec this n deps = Some VUndefined.
Proof.
  intros Hrec. induction deps as [| dep rest IH]; cbn; intros Hd Hf.
  - reflexivity.
  - destruct (callGetter W dep) as [innerMap |].
    + destruct (String.eqb (path innerMap) (path this)); [auto |].
      destruct (hasDeep_rec innerMap n) as [innerValue |] eqn:Hinner;
        [| discriminate].
      destruct (Deep.found innerValue) eqn:Hfound.
      * inversion Hd; subst d. cbn in Hf. discriminate.
      * rewrite (Hrec _ _ Hinner Hfound). auto.
    + inversion Hd; subst d. cbn in Hf. discriminate.
Qed.

Lemma get_undefined_of_hasDeep_not_found (fuel : nat) :
  forall (m : ExportMap) (n : string) (d : Deep.t),
    hasDeep W fuel m n = Some d ->
    Deep.found d = false ->
    get W fuel m n = Some VUndefined.
Proof.
  induction fuel as [| k IH]; intros m n d Hd Hf; [discriminate |].
  cbn [hasDeep get] in *. unfold hasDeep_step in Hd. unfold get_step.
  destruct (JsMap.has (Some n) (namespace m)) eqn:Hns.
  { inversion Hd; subst d. discriminate. }
  rewrite (jsmap_has_false_get _ _ Hns).
  destruct (JsMap.get n (reexports m)) as [r |].
  - destruct (callGetImport W r) as [imported |].
    + destruct (String.eqb (path imported) (path m)
                && String.eqb (local r) n); [reflexivity |].
      destruct (hasDeep W k imported (local r)) as [deep |] eqn:Hdeep;
        [| discriminate].
      inversion Hd; subst d. cbn in Hf. eauto.
    + inversion Hd; subst d. discriminate.
  - destruct (negb (is_default n)); [| reflexivity].
    eapply get_deps_of_hasDeep_deps; eauto.
Qed.

Lemma hasDefault_true_has (fuel : nat) (m : ExportMap) :
  hasDefault W fuel m = Some true -> has W fuel m "default" = Some true.
Proof.
  unfold hasDefault. destruct fuel as [| k]; [discriminate |].
  rewrite has_default. cbn [get]. unfold get_step.
  destruct (JsMap.get (Some "default") (namespace m)) eqn:Hns.
  { rewrite (jsmap_get_has _ _ _ Hns). reflexivity. }
  destruct (JsMap.get "default" (reexports m)) eqn:Hre.
  { rewrite (jsmap_get_has _ _ _ Hre), orb_true_r. reflexivity. }
  cbn. discriminate.
Qed.

(** One depth that is enough for every star-dependency. *)
Lemma get_deps_absent (this : ExportMap) (n : string) (deps : list Getter) :
  (forall dep inner,
      dep ∈ deps -> callGetter W dep = Some inner ->
      path inner <> path this ->
      exists fuel, forall k, fuel <= k -> get W k inner n = Some VUndefined) ->
  exists fuel, forall k,
    fuel <= k -> get_deps W (get W k) this n deps = Some VUndefined.
Proof.
  induction deps as [| dep rest IH]; intros Hdeps.
  - exists 0. reflexivity.
  - destruct IH as [f Hf].
    { intros d inner Hin. apply Hdeps. apply list_elem_of_further, Hin. }
    cbn [get_deps].
    destruct (callGetter W dep) as [inner |] eqn:Hdep; [| exists f; exact Hf].
    destruct (String.eqb (path inner) (path this)) eqn:Hsame;
      [exists f; exact Hf |].
    destruct (Hdeps dep inner (list_elem_of_here _ _) Hdep) as [f' Hf'].
    { apply String.eqb_neq. exact Hsame. }
    exists (Nat.max f f'). intros k Hk.
    rewrite Hf' by lia. apply Hf. lia.
Qed.

Lemma get_undefined_of_absent (m : ExportMap) (n : string) :
  Absent W m n ->
  exists fuel, forall k, fuel <= k -> get W k m n = Some VUndefined.
Proof.
  induction 1 as [m n r imported Hns Hre Himp Hpath Hlocal
                 | m n r imported Hns Hre Himp _ [f Hf]
                 | m Hns Hre
                 | m n Hns Hre _ IH].
  - exists 1. intros [| k] Hk; [lia |]. cbn [get]. unfold get_step.
    rewrite (jsmap_has_false_get _ _ Hns), Hre, Himp, Hpath, Hlocal,
      !String.eqb_refl.
    reflexivity.
  - exists (S f). intros [| k] Hk; [lia |]. cbn [get]. unfold get_step.
    rewrite (jsmap_has_false_get _ _ Hns), Hre, Himp.
    destruct (String.eqb (path imported) (path m) && String.eqb (local r) n);
      [reflexivity |].
    apply Hf. lia.
  - exists 1. intros [| k] Hk; [lia |]. cbn [get]. unfold get_step.
    rewrite (jsmap_has_false_get _ _ Hns), Hre. reflexivity.
  - destruct (get_deps_absent m n (dependencies m) IH) as [f Hf].
    exists (S f). intros [| k] Hk; [lia |]. cbn [get]. unfold get_step.
    rewrite (jsmap_has_false_get _ _ Hns), Hre.
    destruct (negb (is_default n)); [| reflexivity].
    apply Hf. lia.
Qed.
End ReexportFacts.

(** ** Deep queries: star-dependencies *)

Section StarFacts.
Variable W : string -> option ExportMap.

Lemma has_deps_prune (has_rec : ExportMap -> string -> option bool)
    (n : string) (deps : list Getter) :
  has_deps W has_rec n (List.filter (resolvable W) deps)
  = has_deps W has_rec n deps.
Proof.
  induction deps as [| dep rest IH]; [reflexivity |].
  cbn [List.filter has_deps]. unfold resolvable, callGetter in *.
  destruct (W dep) as [innerMap |] eqn:Hdep; [| exact IH].
  cbn [has_deps]. unfold callGetter. rewrite Hdep.
  destruct (has_rec innerMap n) as [[|] |]; auto.
Qed.

Lemma get_deps_prune (get_rec : ExportMap -> string -> option Value)
    (this this' : ExportMap) (n : string) (deps : list Getter) :
  path this' = path this ->
  get_deps W get_rec this' n (List.filter (resolvable W) deps)
  = get_deps W get_rec this n deps.
Proof.
  intros Hpath. induction deps as [| dep rest IH]; [reflexivity |].
  cbn [List.filter get_deps]. unfold resolvable, callGetter in *.
  destruct (W dep) as [innerMap |] eqn:Hdep; [| exact IH].
  cbn [get_deps]. unfold callGetter. rewrite Hdep, Hpath.
  destruct (String.eqb (path innerMap) (path this)); [exact IH |].
  destruct (get_rec innerMap n) as [[| |] |]; auto.
Qed.

Lemma has_prune (fuel : nat) (m : ExportMap) (n : string) :
  has W fuel (pruneNull W m) n = has W fuel m n.
Proof.
  destruct fuel as [| k]; [reflexivity |].
  cbn [has]. unfold has_step. cbn.
  rewrite has_deps_prune. reflexivity.
Qed.

Lemma get_prune (fuel : nat) (m : ExportMap) (n : string) :
  get W fuel (pruneNull W m) n = get W fuel m n.
Proof.
  destruct fuel as [| k]; [reflexivity |].
  cbn [get]. unfold get_step. cbn.
  rewrite (get_deps_prune _ m) by reflexivity. reflexivity.
Qed.

(** [hasDeep] answers found at the first star-dependency whose getter
    answers null, when the edges before it are skipped or not found. *)
Lemma hasDeep_deps_null (hasDeep_rec : ExportMap -> string -> option Deep.t)
    (this : ExportMap) (n : string) (pre post : list Getter)
    (dep : Getter) :
  callGetter W dep = None ->
  Forall
    (fun d => exists im,
       callGetter W d = Some im
       /\ (path im = path this
           \/ exists r, hasDeep_rec im n = Some r /\ Deep.found r = false))
    pre ->
  hasDeep_deps W hasDeep_rec this n (pre ++ dep :: post)
  = Some (Deep.mk true [this]).
Proof.
  intros Hnull Hpre. induction Hpre as [| d pre' [im [Him Hskip]] _ IH].
  - cbn. rewrite Hnull. reflexivity.
  - cbn [app hasDeep_deps]. rewrite Him.
    destruct (String.eqb (path im) (path this)) eqn:Heq; [exact IH |].
    destruct Hskip as [Hsame | [r [Hr Hf]]].
    + apply String.eqb_neq in Heq. contradiction.
    + rewrite Hr, Hf. exact IH.
Qed.

(** A map that star-exports itself: [has] has no guard, so a name that
    is not found before that edge is looked up in the same map again. *)
Lemma has_self_star (m : ExportMap) (n : string) (rest : list Getter)
    (dep : Getter) :
  JsMap.has (Some n) (namespace m) = false ->
  JsMap.has n (reexports m) = false ->
  is_default n = false ->
  dependencies m = dep :: rest ->
  callGetter W dep = Some m ->
  forall fuel, has W fuel m n = None.
Proof.
  intros Hns Hre Hdef Hdeps Hself fuel.
  induction fuel as [| k IH]; [reflexivity |].
  cbn [has]. unfold has_step.
  rewrite Hns, Hre, Hdef, Hdeps. cbn. rewrite Hself, IH. reflexivity.
Qed.

Lemma forEach_deps_stuck (forEach_rec : ExportMap -> option (list Call))
    (this d : ExportMap) (deps : list Getter) (dep : Getter) :
  dep ∈ deps ->
  callGetter W dep = Some d ->
  forEach_rec d = None ->
  forEach_deps W forEach_rec this deps = None.
Proof.
  intros Hin Hdep Hrec. induction deps as [| dep' rest IH].
  - inversion Hin.
  - cbn [forEach_deps]. apply elem_of_cons in Hin as [<- | Hin].
    + rewrite Hdep, Hrec. reflexivity.
    + rewrite (IH Hin).
      destruct (callGetter W dep') as [d' |]; [| reflexivity].
      destruct (forEach_rec d'); reflexivity.
Qed.

Lemma forEach_self_star (m : ExportMap) (dep : Getter) :
  dep ∈ dependencies m ->
  callGetter W dep = Some m ->
  forall fuel, forEach W fuel m = None.
Proof.
  intros Hin Hself fuel. induction fuel as [| k IH]; [reflexivity |].
  cbn [forEach]. unfold forEach_step.
  rewrite (forEach_deps_stuck _ m m _ dep Hin Hself IH).
  destruct (forEach_reexports W (get W k) m (reexports m)); reflexivity.
Qed.

Lemma hasDeep_self_star_only (m : ExportMap) (n : string) (dep : Getter) :
  JsMap.has (Some n) (namespace m) = false ->
  JsMap.has n (reexports m) = false ->
  dependencies m = [dep] ->
  callGetter W dep = Some m ->
  forall fuel,
    hasDeep W (S fuel) m n = Some (Deep.mk false [m])
    /\ get W (S fuel) m n = Some VUndefined.
Proof.
  intros Hns Hre Hdeps Hself fuel. cbn [hasDeep get].
  unfold hasDeep_step, get_step.
  rewrite Hns, (jsmap_has_false_get _ _ Hns), (jsmap_has_false_get _ _ Hre),
    Hdeps.
  destruct (negb (is_default n)); [| split; reflexivity].
  cbn. rewrite Hself, String.eqb_refl. split; reflexivity.
Qed.
End StarFacts.

(** ** The claims about the deep queries *)

(** C2.  A map [m] whose [reexports] binds [n] to the local name [n]
    itself, with a getter that answers a map of the same path as [m], and
    whose [namespace] does not have [n]: [hasDeep] returns not found with
    the path [[m]] and [get] returns [undefined], both without a nested
    call (one level of the call stack is enough). *)
Theorem self_reexport_is_not_followed
    (W : string -> option ExportMap) (m imported : ExportMap) (n : string)
    (r : Reexport) (fuel : nat) :
  JsMap.has (Some n) (namespace m) = false ->
  JsMap.get n (reexports m) = Some r ->
  local r = n ->
  callGetImport W r = Some imported ->
  path imported = path m ->
  hasDeep W (S fuel) m n = Some (Deep.mk false [m])
  /\ get W (S fuel) m n = Some VUndefined.
Proof.
  intros Hns Hre Hlocal Himp Hpath. cbn [hasDeep get].
  unfold hasDeep_step, get_step.
  rewrite Hns, (jsmap_has_false_get _ _ Hns), Hre, Himp, Hpath, Hlocal.
  rewrite !String.eqb_refl. split; reflexivity.
Qed.

Lemma self_reexport_is_not_followed_witness :
  hasDeep Fixture.exportMapFor 1 Fixture.cycle_map "x"
  = Some (Deep.mk false [Fixture.cycle_map])
  /\ get Fixture.exportMapFor 1 Fixture.cycle_map "x" = Some VUndefined.
Proof.
  apply (self_reexport_is_not_followed Fixture.exportMapFor
           Fixture.cycle_map Fixture.cycle_map "x"
           (mkReexport "x" (Some "/p/cycle.ts")) 0);
    vm_compute; reflexivity.
Defined.

(** C3, at the file [/p/self.ts] that is [export * from './self'].  Its
    map has itself as a star-dependency.  [hasDeep] and [get] skip that
    edge and return; [has] and [forEach] have no such guard and call
    themselves on the same map at every depth: no call stack is deep
    enough for them to return. *)
Theorem self_star_export_exhausts_has_and_forEach (fuel : nat) :
  Fixture.exportMapFor "/p/self.ts" = Some Fixture.self_map
  /\ dependencies Fixture.self_map = ["/p/self.ts"]
  /\ has Fixture.exportMapFor fuel Fixture.self_map "y" = None
  /\ forEach Fixture.exportMapFor fuel Fixture.self_map = None
  /\ hasDeep Fixture.exportMapFor (S fuel) Fixture.self_map "y"
     = Some (Deep.mk false [Fixture.self_map])
  /\ get Fixture.exportMapFor (S fuel) Fixture.self_map "y" = Some VUndefined.
Proof.
  assert (Hself : callGetter Fixture.exportMapFor "/p/self.ts"
                  = Some Fixture.self_map) by (vm_compute; reflexivity).
  split; [exact Hself |]. split; [reflexivity |].
  split.
  { apply (has_self_star _ _ _ [] "/p/self.ts");
      first [exact Hself | reflexivity]. }
  split.
  { apply (forEach_self_star _ _ "/p/self.ts"); [| exact Hself].
    cbn. apply list_elem_of_here. }
  apply (hasDeep_self_star_only _ _ _ "/p/self.ts");
    first [exact Hself | reflexivity].
Qed.

(** ** The chain behind a name: finite chains and cycles *)

Lemma chain_invariant (W : string -> option ExportMap)
    (P : ExportMap * string -> Prop) (x y : ExportMap * string) :
  (forall u v, P u -> chain_step W u v -> P v) ->
  rtc (chain_step W) x y -> P x -> P y.
Proof.
  intros Hstep Hrtc. induction Hrtc as [| u v w Huv _ IH]; [auto |].
  intros Hu. apply IH. eapply Hstep; eauto.
Qed.

Lemma nowhere_exported_of_invariant (W : string -> option ExportMap)
    (P : ExportMap * string -> Prop) (m : ExportMap) (n : string) :
  P (m, n) ->
  (forall u v, P u -> chain_step W u v -> P v) ->
  (forall m' n',
      P (m', n') ->
      JsMap.has (Some n') (namespace m') = false
      /\ forall r, JsMap.get n' (reexports m') = Some r ->
                   callGetImport W r <> None) ->
  nowhere_exported W m n.
Proof.
  intros Hstart Hstep Hgood m' n' Hrtc. apply Hgood.
  exact (chain_invariant W P _ _ Hstep Hrtc Hstart).
Qed.

Lemma nowhere_exported_next (W : string -> option ExportMap)
    (m : ExportMap) (n : string) (y : ExportMap * string) :
  nowhere_exported W m n ->
  y ∈ chain_next W m n ->
  nowhere_exported W (fst y) (snd y).
Proof.
  intros Hno Hy m' n' Hrtc. apply Hno.
  apply (rtc_l _ _ y); [exact Hy |]. destruct y. exact Hrtc.
Qed.

(** On a finite chain along which nothing exports the name and every
    re-export resolves, the absence of the name has a derivation. *)
Lemma absent_of_finite_chain (W : string -> option ExportMap)
    (m : ExportMap) (n : string) :
  nowhere_exported W m n -> finite_chain W m n -> Absent W m n.
Proof.
  intros Hno Hfinite. unfold finite_chain in Hfinite.
  remember (m, n) as x eqn:Hx. revert m n Hx Hno.
  induction Hfinite as [x _ IH]. intros m n -> Hno.
  destruct (Hno m n (rtc_refl _ _)) as [Hns Hresolves].
  assert (Hnext : forall y, y ∈ chain_next W m n ->
                            Absent W (fst y) (snd y)).
  { intros [m' n'] Hy. apply (IH (m', n')); [exact Hy | reflexivity |].
    exact (nowhere_exported_next W m n (m', n') Hno Hy). }
  unfold chain_next in Hnext. rewrite Hns in Hnext.
  destruct (JsMap.get n (reexports m)) as [r |] eqn:Hre.
  - destruct (callGetImport W r) as [imported |] eqn:Himp;
      [| exfalso; exact (Hresolves r eq_refl Himp)].
    destruct (String.eqb (path imported) (path m)
              && String.eqb (local r) n) eqn:Hguard.
    + apply andb_true_iff in Hguard as [Hpath Hlocal].
      apply String.eqb_eq in Hpath, Hlocal.
      eapply Absent_self_cycle; eauto.
    + eapply Absent_reexport; eauto.
      apply (Hnext (imported, local r)). apply list_elem_of_here.
  - destruct (is_default n) eqn:Hdefault.
    + apply String.eqb_eq in Hdefault. subst n.
      apply Absent_default; [exact Hns | exact Hre].
    + apply Absent_star; [exact Hns | exact Hre |].
      intros dep inner Hin Hinner Hpath.
      apply (Hnext (inner, n)).
      apply list_elem_of_In, in_flat_map. exists dep.
      split; [apply list_elem_of_In; exact Hin |].
      rewrite Hinner. apply String.eqb_neq in Hpath. rewrite Hpath.
      left. reflexivity.
Qed.

Lemma finite_chain_of_next (W : string -> option ExportMap)
    (m : ExportMap) (n : string) :
  (forall y, y ∈ chain_next W m n -> finite_chain W (fst y) (snd y)) ->
  finite_chain W m n.
Proof.
  intros Hnext. constructor. intros [m' n'] Hy.
  exact (Hnext (m', n') Hy).
Qed.

(** Two files that star-export each other: [get] of a name that neither
    has goes from one to the other at every depth. *)
Lemma get_stuck_on_star_cycle (W : string -> option ExportMap)
    (a b : ExportMap) (n : string) (da db : Getter) :
  JsMap.get (Some n) (namespace a) = None ->
  JsMap.get n (reexports a) = None ->
  dependencies a = [da] ->
  callGetter W da = Some b ->
  JsMap.get (Some n) (namespace b) = None ->
  JsMap.get n (reexports b) = None ->
  dependencies b = [db] ->
  callGetter W db = Some a ->
  path a <> path b ->
  is_default n = false ->
  forall fuel, get W fuel a n = None /\ get W fuel b n = None.
Proof.
  intros Hnsa Hrea Hdepsa Hda Hnsb Hreb Hdepsb Hdb Hpath Hdefault.
  assert (Hab : String.eqb (path a) (path b) = false)
    by (apply String.eqb_neq; exact Hpath).
  assert (Hba : String.eqb (path b) (path a) = false)
    by (apply String.eqb_neq; congruence).
  induction fuel as [| k [IHa IHb]]; [split; reflexivity |].
  split; cbn [get]; unfold get_step.
  - rewrite Hnsa, Hrea, Hdefault, Hdepsa. cbn [negb get_deps].
    rewrite Hda, Hba, IHb. reflexivity.
  - rewrite Hnsb, Hreb, Hdefault, Hdepsb. cbn [negb get_deps].
    rewrite Hdb, Hab, IHa. reflexivity.
Qed.

Lemma get_stuck_behind_reexport (W : string -> option ExportMap)
    (m imported : ExportMap) (n : string) (r : Reexport) :
  JsMap.get (Some n) (namespace m) = None ->
  JsMap.get n (reexports m) = Some r ->
  callGetImport W r = Some imported ->
  String.eqb (path imported) (path m) && String.eqb (local r) n = false ->
  (forall fuel, get W fuel imported (local r) = None) ->
  forall fuel, get W fuel m n = None.
Proof.
  intros Hns Hre Himp Hguard Hstuck [| k]; [reflexivity |].
  cbn [get]. unfold get_step. rewrite Hns, Hre, Himp, Hguard.
  apply Hstuck.
Qed.

Lemma star_cycle_next :
  chain_next StarCycle.exportMapFor StarCycle.m_map "n"
  = [(StarCycle.a_map, "n")]
  /\ chain_next StarCycle.exportMapFor StarCycle.a_map "n"
     = [(StarCycle.b_map, "n")]
  /\ chain_next StarCycle.exportMapFor StarCycle.b_map "n"
     = [(StarCycle.a_map, "n")].
Proof. repeat split; vm_compute; reflexivity. Qed.

(** C4 as stated fails for [get]: [/q/m.ts] is [export { n } from './a'],
    [/q/a.ts] is [export * from './b'] and [/q/b.ts] is
    [export * from './a'].  The name [n] is re-exported by [m], is not in
    its [namespace], the getter of the re-export answers a map, and no
    export named [n] exists anywhere along the chain; yet [get('n')]
    does not return [undefined]: it goes round the two star-exports at
    every depth of the call stack and never returns.  The chain is not
    finite. *)
Lemma get_on_star_cycle_counterexample :
  JsMap.has (Some "n") (namespace StarCycle.m_map) = false
  /\ JsMap.get "n" (reexports StarCycle.m_map)
     = Some (mkReexport "n" (Some "/q/a.ts"))
  /\ callGetImport StarCycle.exportMapFor (mkReexport "n" (Some "/q/a.ts"))
     = Some StarCycle.a_map
  /\ nowhere_exported StarCycle.exportMapFor StarCycle.m_map "n"
  /\ (forall fuel,
        get StarCycle.exportMapFor fuel StarCycle.m_map "n" = None)
  /\ ~ finite_chain StarCycle.exportMapFor StarCycle.m_map "n".
Proof.
  destruct star_cycle_next as [Hm [Ha Hb]].
  split; [vm_compute; reflexivity |].
  split; [vm_compute; reflexivity |].
  split; [vm_compute; reflexivity |].
  split; [| split].
  - apply (nowhere_exported_of_invariant _
             (fun x => x = (StarCycle.m_map, "n")
                       \/ x = (StarCycle.a_map, "n")
                       \/ x = (StarCycle.b_map, "n"))).
    + left. reflexivity.
    + intros u v Hu Huv. unfold chain_step in Huv.
      destruct Hu as [-> | [-> | ->]]; cbn [fst snd] in Huv.
      * rewrite Hm in Huv. apply list_elem_of_singleton in Huv. auto.
      * rewrite Ha in Huv. apply list_elem_of_singleton in Huv. auto.
      * rewrite Hb in Huv. apply list_elem_of_singleton in Huv. auto.
    + intros m' n' [H | [H | H]]; inversion H; subst; clear H;
        (split; [vm_compute; reflexivity |]);
        intros r Hr; vm_compute in Hr; inversion Hr; subst;
        vm_compute; discriminate.
  - apply (get_stuck_behind_reexport _ _ StarCycle.a_map _
             (mkReexport "n" (Some "/q/a.ts")));
      [vm_compute; reflexivity .. |].
    intros fuel.
    apply (get_stuck_on_star_cycle StarCycle.exportMapFor
             StarCycle.a_map StarCycle.b_map "n" "/q/b.ts" "/q/a.ts");
      first [vm_compute; reflexivity | discriminate].
  - intros Hfinite.
    assert (Hround : forall x,
      Acc (fun y x => chain_step StarCycle.exportMapFor x y) x ->
      x = (StarCycle.a_map, "n") \/ x = (StarCycle.b_map, "n") -> False).
    { induction 1 as [x _ IH]. intros [-> | ->].
      - apply (IH (StarCycle.b_map, "n")); [| auto].
        unfold chain_step. cbn [fst snd]. rewrite Ha.
        apply list_elem_of_here.
      - apply (IH (StarCycle.a_map, "n")); [| auto].
        unfold chain_step. cbn [fst snd]. rewrite Hb.
        apply list_elem_of_here. }
    apply (Hround (StarCycle.a_map, "n")); [| auto].
    apply (Acc_inv Hfinite). unfold chain_step. cbn [fst snd].
    rewrite Hm. apply list_elem_of_here.
Qed.

(** C4, amended.  For a name [n] that [m] re-exports and does not have in
    its [namespace], a getter that answers null makes [hasDeep] return
    found with the path [[m]] and [get] return [null].  When no export
    named [n2] exists anywhere along the chain of a map [m2], no
    re-export on that chain has an unanalyzable target, and the chain is
    finite (it has no cycle), [get] returns [undefined] at every depth of
    the call stack from some depth on; and whenever [hasDeep] returns not
    found for a map [m1], [get] returns [undefined] at that depth.
    [null] and [undefined] are distinct. *)
Theorem reexport_null_versus_absent
    (W : string -> option ExportMap) (m : ExportMap) (n : string)
    (r : Reexport) (fuel : nat) (m1 : ExportMap) (n1 : string)
    (d : Deep.t) (fuel1 : nat) (m2 : ExportMap) (n2 : string) :
  JsMap.has (Some n) (namespace m) = false ->
  JsMap.get n (reexports m) = Some r ->
  callGetImport W r = None ->
  hasDeep W fuel1 m1 n1 = Some d ->
  Deep.found d = false ->
  nowhere_exported W m2 n2 ->
  finite_chain W m2 n2 ->
  hasDeep W (S fuel) m n = Some (Deep.mk true [m])
  /\ get W (S fuel) m n = Some VNull
  /\ (exists enough, forall k,
        enough <= k -> get W k m2 n2 = Some VUndefined)
  /\ get W fuel1 m1 n1 = Some VUndefined
  /\ VNull <> VUndefined.
Proof.
  intros Hns Hre Hnull Hd Hf Hnowhere Hfinite.
  split; [eapply hasDeep_reexport_null; eauto |].
  split; [eapply get_reexport_null; eauto |].
  split; [apply get_undefined_of_absent, absent_of_finite_chain;
          assumption |].
  split; [eapply get_undefined_of_hasDeep_not_found; eauto | discriminate].
Qed.

Lemma d_chain_next :
  chain_next Fixture.exportMapFor Fixture.d_map "z" = [(Fixture.a_map, "z")]
  /\ chain_next Fixture.exportMapFor Fixture.a_map "z" = [].
Proof. split; vm_compute; reflexivity. Qed.

Lemma d_chain_nowhere_exported :
  nowhere_exported Fixture.exportMapFor Fixture.d_map "z".
Proof.
  destruct d_chain_next as [Hd Ha].
  apply (nowhere_exported_of_invariant _
           (fun x => x = (Fixture.d_map, "z") \/ x = (Fixture.a_map, "z"))).
  - left. reflexivity.
  - intros u v Hu Huv. unfold chain_step in Huv.
    destruct Hu as [-> | ->]; cbn [fst snd] in Huv.
    + rewrite Hd in Huv. apply list_elem_of_singleton in Huv. auto.
    + rewrite Ha in Huv. inversion Huv.
  - intros m' n' [H | H]; inversion H; subst; clear H;
      (split; [vm_compute; reflexivity |]);
      intros r Hr; vm_compute in Hr; inversion Hr; subst;
      vm_compute; discriminate.
Qed.

Lemma d_chain_finite : finite_chain Fixture.exportMapFor Fixture.d_map "z".
Proof.
  destruct d_chain_next as [Hd Ha].
  apply finite_chain_of_next. intros y Hy. rewrite Hd in Hy.
  apply list_elem_of_singleton in Hy. subst y. cbn [fst snd].
  apply finite_chain_of_next. intros y Hy. rewrite Ha in Hy.
  inversion Hy.
Qed.

Lemma reexport_null_versus_absent_witness :
  hasDeep Fixture.exportMapFor 1 Fixture.re_map "default"
  = Some (Deep.mk true [Fixture.re_map])
  /\ get Fixture.exportMapFor 1 Fixture.re_map "default" = Some VNull
  /\ (exists enough, forall k,
        enough <= k
        -> get Fixture.exportMapFor k Fixture.d_map "z" = Some VUndefined)
  /\ get Fixture.exportMapFor 2 Fixture.d_map "z" = Some VUndefined
  /\ VNull <> VUndefined.
Proof.
  apply (reexport_null_versus_absent Fixture.exportMapFor Fixture.re_map
           "default" (mkReexport "default" None) 0 Fixture.d_map "z"
           (Deep.mk false [Fixture.d_map; Fixture.a_map]) 2
           Fixture.d_map "z");
    [vm_compute; reflexivity .. | |].
  - exact d_chain_nowhere_exported.
  - exact d_chain_finite.
Defined.

(** C5 as stated fails for [hasDeep]: [/p/c.ts] is
    [export * from './script'] and [ExportMap.for] answers null for
    [/p/script.js]; [hasDeep] reports the name found, and reports it not
    found once that edge is taken away. *)
Lemma hasDeep_null_star_counterexample :
  callGetter Fixture.exportMapFor "/p/script.js" = None
  /\ dependencies Fixture.c_map = ["/p/script.js"]
  /\ dependencies (pruneNull Fixture.exportMapFor Fixture.c_map) = []
  /\ Deep.found <$> hasDeep Fixture.exportMapFor 1 Fixture.c_map "x"
     = Some true
  /\ Deep.found
       <$> hasDeep Fixture.exportMapFor 1
             (pruneNull Fixture.exportMapFor Fixture.c_map) "x"
     = Some false.
Proof. repeat split; vm_compute; reflexivity. Qed.

(** C5, amended.  A star-dependency whose getter answers null is skipped
    by [has] and [get]: their answer for [m] is the answer for [m] without
    those edges.  [hasDeep] instead answers found, with the path [[m']],
    when it reaches such an edge of [m'], the edges before it being
    skipped as cycles or not found. *)
Theorem null_star_dependency
    (W : string -> option ExportMap) (m : ExportMap) (n : string)
    (fuel : nat) (m' : ExportMap) (n' : string) (fuel' : nat)
    (pre post : list Getter) (dep : Getter) :
  JsMap.has (Some n') (namespace m') = false ->
  JsMap.has n' (reexports m') = false ->
  is_default n' = false ->
  dependencies m' = pre ++ dep :: post ->
  callGetter W dep = None ->
  Forall
    (fun d => exists im,
       callGetter W d = Some im
       /\ (path im = path m'
           \/ exists r, hasDeep W fuel' im n' = Some r
                        /\ Deep.found r = false))
    pre ->
  has W fuel (pruneNull W m) n = has W fuel m n
  /\ get W fuel (pruneNull W m) n = get W fuel m n
  /\ hasDeep W (S fuel') m' n' = Some (Deep.mk true [m']).
Proof.
  intros Hns Hre Hdef Hdeps Hnull Hpre.
  split; [apply has_prune |]. split; [apply get_prune |].
  cbn [hasDeep]. unfold hasDeep_step.
  rewrite Hns, (jsmap_has_false_get _ _ Hre), Hdef, Hdeps. cbn [negb].
  apply hasDeep_deps_null; assumption.
Qed.

Lemma null_star_dependency_witness :
  has Fixture.exportMapFor 2
      (pruneNull Fixture.exportMapFor Fixture.c_map) "x"
  = has Fixture.exportMapFor 2 Fixture.c_map "x"
  /\ get Fixture.exportMapFor 2
         (pruneNull Fixture.exportMapFor Fixture.c_map) "x"
     = get Fixture.exportMapFor 2 Fixture.c_map "x"
  /\ hasDeep Fixture.exportMapFor 1 Fixture.c_map "x"
     = Some (Deep.mk true [Fixture.c_map]).
Proof.
  apply (null_star_dependency Fixture.exportMapFor Fixture.c_map "x" 2
           Fixture.c_map "x" 0 [] [] "/p/script.js");
    [vm_compute; reflexivity .. | constructor].
Defined.

(** C10.  [hasDefault] is true exactly when [get('default')] is neither
    [null] nor [undefined]; whenever it is true, [has('default')] is true;
    and for a map [m'] that only re-exports ['default'] through a getter
    that answers null, [hasDefault] is false while [has('default')] is
    true. *)
Theorem hasDefault_stronger_than_has
    (W : string -> option ExportMap) (m : ExportMap) (fuel : nat)
    (m' : ExportMap) (r : Reexport) (fuel' : nat) :
  JsMap.has (Some "default") (namespace m') = false ->
  JsMap.get "default" (reexports m') = Some r ->
  callGetImport W r = None ->
  (hasDefault W fuel m = Some true
   <-> exists v, get W fuel m "default" = Some v
                 /\ v <> VNull /\ v <> VUndefined)
  /\ (hasDefault W fuel m = Some false
      <-> get W fuel m "default" = Some VNull
          \/ get W fuel m "default" = Some VUndefined)
  /\ (hasDefault W fuel m = Some true -> has W fuel m "default" = Some true)
  /\ hasDefault W (S fuel') m' = Some false
  /\ has W (S fuel') m' "default" = Some true.
Proof.
  intros Hns Hre Hnull.
  split.
  { unfold hasDefault. destruct (get W fuel m "default") as [[v | |] |].
    - split; [intros _; exists (VMeta v); repeat split; discriminate | auto].
    - split; [discriminate | intros [v [Hv [Hn _]]]; inversion Hv; congruence].
    - split; [discriminate | intros [v [Hv [_ Hu]]]; inversion Hv; congruence].
    - split; [discriminate | intros [v [Hv _]]; discriminate]. }
  split.
  { unfold hasDefault. destruct (get W fuel m "default") as [[v | |] |].
    - split; [discriminate | intros [H | H]; discriminate].
    - split; auto.
    - split; auto.
    - split; [discriminate | intros [H | H]; discriminate]. }
  split; [apply hasDefault_true_has |].
  split.
  - unfold hasDefault. rewrite (get_reexport_null W fuel' m' "default" r); auto.
  - rewrite has_default, (jsmap_get_has _ _ _ Hre), orb_true_r. reflexivity.
Qed.

Lemma hasDefault_stronger_than_has_witness :
  hasDefault Fixture.exportMapFor 1 Fixture.re_map = Some false
  /\ has Fixture.exportMapFor 1 Fixture.re_map "default" = Some true.
Proof.
  apply (hasDefault_stronger_than_has Fixture.exportMapFor Fixture.a_map 1
           Fixture.re_map (mkReexport "default" None) 0);
    vm_compute; reflexivity.
Defined.

(** ** The builder *)

Lemma fold_left_invariant {A B : Type} (f : A -> B -> A) (P : A -> Prop)
    (l : list B) (a : A) :
  (forall x b, P x -> P (f x b)) -> P a -> P (fold_left f l a).
Proof.
  intros Hstep. revert a. induction l as [| b l IH]; intros a Ha; cbn; auto.
Qed.

Section BuilderFacts.
Variable doctrine_parse : string -> option Annotation.
Variable getCommentsBefore : SourceCode -> NodeInfo -> option (list Comment).
Variable captureTomDoc : DocStyleParser.
Variable parser :
  string -> string -> ChildContext -> ParseError + Program * option VisitorKeys.
Variable visit : Program -> option VisitorKeys -> list VisitedNode.
Variable relative : string -> string -> option Settings -> option string.
Variable isEsModuleInterop : ChildContext -> bool.
Variable isUnambiguousModule : Program -> bool.

Abbreviation parse_ :=
  (parse doctrine_parse getCommentsBefore captureTomDoc parser visit
         relative isEsModuleInterop isUnambiguousModule).

(** *** Dynamic imports *)

Lemma processDynamicImport_flag (p : string) (c : ChildContext)
    (source_ : option CallArgument) (m : ExportMap) (h : bool)
    (m' : ExportMap) :
  processDynamicImport relative p c source_ m = Returned (h, m') ->
  h = true.
Proof.
  unfold processDynamicImport.
  destruct source_ as [[lit |] |]; [| congruence | discriminate].
  destruct (remotePath relative p c (value lit)); congruence.
Qed.

Lemma visitDynamicImports_flag (p : string) (c : ChildContext)
    (nodes : list VisitedNode) :
  forall (h : bool) (m : ExportMap) (h' : bool) (m' : ExportMap),
    visitDynamicImports relative p c nodes h m = Returned (h', m') ->
    h' = h || existsb isDynamicImport nodes.
Proof.
  induction nodes as [| v rest IH]; intros h m h' m' Hrun.
  - cbn in Hrun. inversion Hrun. cbn. rewrite orb_false_r. reflexivity.
  - destruct v as [source_ | [|] arguments_];
      cbn [visitDynamicImports existsb isDynamicImport] in *.
    + destruct (processDynamicImport relative p c (Some source_) m)
        as [[h1 m1] | e] eqn:Hp; [| discriminate].
      apply IH in Hrun. subst h'.
      rewrite (processDynamicImport_flag _ _ _ _ _ _ Hp), orb_true_r.
      reflexivity.
    + destruct (processDynamicImport relative p c (head arguments_) m)
        as [[h1 m1] | e] eqn:Hp; [| discriminate].
      apply IH in Hrun. subst h'.
      rewrite (processDynamicImport_flag _ _ _ _ _ _ Hp), orb_true_r.
      reflexivity.
    + apply IH in Hrun. exact Hrun.
Qed.

Lemma visitDynamicImports_none (p : string) (c : ChildContext)
    (nodes : list VisitedNode) (h : bool) (m : ExportMap) :
  existsb isDynamicImport nodes = false ->
  visitDynamicImports relative p c nodes h m = Returned (h, m).
Proof.
  induction nodes as [| v rest IH]; cbn; intros Hnone; [reflexivity |].
  apply orb_false_iff in Hnone as [Hv Hrest].
  destruct v as [source_ | [|] arguments_]; cbn in Hv; try discriminate.
  auto.
Qed.

Lemma visitDynamicImports_non_literal (p : string) (c : ChildContext)
    (nodes : list VisitedNode) :
  forallb nonLiteralSource nodes = true ->
  forall (h : bool) (m : ExportMap),
    visitDynamicImports relative p c nodes h m
    = Returned (h || existsb isDynamicImport nodes, m).
Proof.
  induction nodes as [| v rest IH]; cbn; intros Hall h m.
  - rewrite orb_false_r. reflexivity.
  - apply andb_true_iff in Hall as [Hv Hrest].
    destruct v as [[lit |] | [|] [| [lit |] args]]; cbn in Hv;
      try discriminate; cbn; rewrite (IH Hrest); try reflexivity.
    + rewrite orb_true_r. reflexivity.
    + rewrite orb_true_r. reflexivity.
Qed.
End BuilderFacts.

(** *** What the walk over the body leaves alone *)

Lemma only_namespace_refl (m : ExportMap) : only_namespace m m.
Proof. destruct m; reflexivity. Qed.

Lemma only_namespace_set (m x : ExportMap) (k : Key) (v : ExportMeta) :
  only_namespace m x -> only_namespace m (namespace_set k v x).
Proof.
  unfold only_namespace, namespace_set. intros Hx.
  rewrite Hx at 2. reflexivity.
Qed.

Lemma only_namespace_imports (m x : ExportMap) :
  only_namespace m x -> imports x = imports m.
Proof. intros ->. reflexivity. Qed.

Lemma only_namespace_parseGoal (m x : ExportMap) :
  only_namespace m x -> parseGoal x = parseGoal m.
Proof. intros ->. reflexivity. Qed.

Lemma only_namespace_trans (m x y : ExportMap) :
  only_namespace m x -> only_namespace x y -> only_namespace m y.
Proof.
  unfold only_namespace. intros Hx Hy. rewrite Hy, Hx. reflexivity.
Qed.

Section WalkFacts.
Variable getCommentsBefore : SourceCode -> NodeInfo -> option (list Comment).
Variable relative : string -> string -> option Settings -> option string.
Variable path_ : string.
Variable context : ChildContext.
Variable source : SourceCode.
Variable docStyleParsers : list DocStyleParser.
Variable isEsModuleInteropTrue : bool.
Variable ast_body : list Statement.

Lemma captureDeclarators_only_namespace
    (nodesFor : VariableDeclarator -> list NodeInfo)
    (ds : list VariableDeclarator) (m x : ExportMap) :
  only_namespace m x ->
  only_namespace m
    (captureDeclarators getCommentsBefore source docStyleParsers nodesFor ds x).
Proof.
  intros Hx. unfold captureDeclarators.
  apply fold_left_invariant; [| exact Hx].
  intros y d Hy. apply fold_left_invariant; [| exact Hy].
  intros z id_ Hz. apply only_namespace_set. exact Hz.
Qed.

Lemma captureDeclaration_only_namespace (n : NodeInfo)
    (declaration : option Statement) (m : ExportMap) :
  only_namespace m
    (captureDeclaration getCommentsBefore source docStyleParsers n
                        declaration m).
Proof.
  unfold captureDeclaration.
  destruct declaration as [[] |]; try apply only_namespace_refl.
  destruct type;
    first [ apply captureDeclarators_only_namespace, only_namespace_refl
          | apply only_namespace_set, only_namespace_refl
          | apply only_namespace_refl ].
Qed.

Lemma captureModuleBlockNode_only_namespace (decl : NodeInfo)
    (member : Statement) (m x : ExportMap) :
  only_namespace m x ->
  only_namespace m
    (captureModuleBlockNode getCommentsBefore source docStyleParsers decl
                            member x).
Proof.
  intros Hx. unfold captureModuleBlockNode.
  destruct member as [| | | ? ? ? [[] |] ? | | | | |]; try exact Hx;
    try (apply only_namespace_set; exact Hx);
    try (destruct type;
         first [ apply captureDeclarators_only_namespace; exact Hx
               | apply only_namespace_set; exact Hx ]).
Qed.

Lemma captureExportedDecl_only_namespace (decl : Statement)
    (m x : ExportMap) :
  only_namespace m x ->
  only_namespace m
    (captureExportedDecl getCommentsBefore source docStyleParsers decl x).
Proof.
  intros Hx. unfold captureExportedDecl.
  destruct decl; try (apply only_namespace_set; exact Hx).
  destruct type; try (apply only_namespace_set; exact Hx).
  destruct body0 as [[] |]; try exact Hx.
  - apply only_namespace_set; exact Hx.
  - apply fold_left_invariant; [| exact Hx].
    intros y member Hy. apply captureModuleBlockNode_only_namespace. exact Hy.
Qed.

Lemma captureExportAssignment_only_namespace (n : Statement)
    (m : ExportMap) :
  only_namespace m
    (captureExportAssignment getCommentsBefore source docStyleParsers
                             isEsModuleInteropTrue ast_body n m).
Proof.
  unfold captureExportAssignment.
  destruct (List.filter _ ast_body) as [| decl rest].
  - apply only_namespace_set, only_namespace_refl.
  - apply fold_left_invariant.
    + intros y d Hy. apply captureExportedDecl_only_namespace. exact Hy.
    + destruct (isEsModuleInteropTrue && _);
        [apply only_namespace_set |]; apply only_namespace_refl.
Qed.

Lemma captureDependency_parseGoal (src : option Literal) (onlyTypes : bool)
    (specifierSet : list string) (m : ExportMap) :
  parseGoal
    (fst (captureDependency relative path_ context src onlyTypes
                            specifierSet m))
  = parseGoal m.
Proof.
  unfold captureDependency. destruct src as [s |]; [| reflexivity].
  destruct (remotePath relative path_ context (value s)); [| reflexivity].
  destruct (JsMap.get _ (imports m)); reflexivity.
Qed.

Lemma processSpecifier_parseGoal (nss : list (string * string))
    (s : Specifier) (src : option Literal) (m : ExportMap) :
  parseGoal (processSpecifier relative path_ context nss s src m)
  = parseGoal m.
Proof.
  unfold processSpecifier. destruct s; try reflexivity.
  - destruct src; reflexivity.
  - destruct (option_map value src); [| reflexivity].
    destruct (truthy _); reflexivity.
Qed.

Lemma walkStatement_parseGoal (w : Walk) (n : Statement) :
  parseGoal
    (walk_map
       (walkStatement getCommentsBefore relative path_ context source
                      docStyleParsers isEsModuleInteropTrue ast_body w n))
  = parseGoal (walk_map w).
Proof.
  assert (Hassign : forall n0,
    parseGoal
      (walk_map
         (if isExportAssignment isEsModuleInteropTrue n0
          then mkWalk
                 (captureExportAssignment getCommentsBefore source
                    docStyleParsers isEsModuleInteropTrue ast_body n0
                    (walk_map w))
                 (namespaces w)
          else w))
    = parseGoal (walk_map w)).
  { intros n0. destruct (isExportAssignment isEsModuleInteropTrue n0);
      [| reflexivity].
    cbn. apply only_namespace_parseGoal,
           captureExportAssignment_only_namespace. }
  destruct n; cbn [walkStatement]; try apply Hassign.
  - reflexivity.
  - set (captured := captureDependency _ _ _ _ _ _ _).
    assert (Hc : parseGoal (fst captured) = parseGoal (walk_map w))
      by apply captureDependency_parseGoal.
    destruct (snd captured), exported; cbn [walk_map]; exact Hc.
  - unfold captureDependencyWithSpecifiers.
    destruct (List.find _ specifiers) as [[] |]; cbn [walk_map];
      apply captureDependency_parseGoal.
  - cbn [walk_map]. apply (fold_left_invariant _
                  (fun x => parseGoal x = parseGoal (walk_map w))).
    + intros x s Hx. rewrite processSpecifier_parseGoal. exact Hx.
    + rewrite (only_namespace_parseGoal _ _
                 (captureDeclaration_only_namespace _ _ _)).
      apply captureDependency_parseGoal.
Qed.

Lemma walkStatement_imports (w : Walk) (n : Statement) :
  isModuleDeclaration n = false ->
  imports
    (walk_map
       (walkStatement getCommentsBefore relative path_ context source
                      docStyleParsers isEsModuleInteropTrue ast_body w n))
  = imports (walk_map w).
Proof.
  intros Hn. destruct n; try discriminate; cbn [walkStatement];
    destruct (isExportAssignment _ _); try reflexivity;
    cbn; apply only_namespace_imports, captureExportAssignment_only_namespace.
Qed.

Lemma walk_parseGoal (stmts : list Statement) (w : Walk) :
  parseGoal
    (walk_map
       (fold_left
          (walkStatement getCommentsBefore relative path_ context source
                         docStyleParsers isEsModuleInteropTrue ast_body)
          stmts w))
  = parseGoal (walk_map w).
Proof.
  revert w. induction stmts as [| n rest IH]; intros w; [reflexivity |].
  cbn [fold_left]. rewrite IH. apply walkStatement_parseGoal.
Qed.

Lemma walk_imports (stmts : list Statement) (w : Walk) :
  existsb isModuleDeclaration stmts = false ->
  imports
    (walk_map
       (fold_left
          (walkStatement getCommentsBefore relative path_ context source
                         docStyleParsers isEsModuleInteropTrue ast_body)
          stmts w))
  = imports (walk_map w).
Proof.
  revert w. induction stmts as [| n rest IH]; intros w Hnone;
    [reflexivity |].
  cbn in Hnone. apply orb_false_iff in Hnone as [Hn Hrest].
  cbn [fold_left]. rewrite (IH _ Hrest). apply walkStatement_imports.
  exact Hn.
Qed.
End WalkFacts.

(** *** [parse] as a whole *)

Section ParseFacts.
Variable doctrine_parse : string -> option Annotation.
Variable getCommentsBefore : SourceCode -> NodeInfo -> option (list Comment).
Variable captureTomDoc : DocStyleParser.
Variable parser :
  string -> string -> ChildContext -> ParseError + Program * option VisitorKeys.
Variable visit : Program -> option VisitorKeys -> list VisitedNode.
Variable relative : string -> string -> option Settings -> option string.
Variable isEsModuleInterop : ChildContext -> bool.
Variable isUnambiguousModule : Program -> bool.

Abbreviation parse_ :=
  (parse doctrine_parse getCommentsBefore captureTomDoc parser visit
         relative isEsModuleInterop isUnambiguousModule).

Lemma parse_of_error (p content : string) (c : ChildContext)
    (err : ParseError) :
  parser p content c = inl err ->
  parse_ p content c = Returned (Some (with_errors [err] (newExportMap p))).
Proof. intros Herr. unfold parse. rewrite Herr. reflexivity. Qed.

Lemma parse_null_iff (p content : string) (c : ChildContext) :
  parse_ p content c = Returned None
  <-> exists tree keys,
        parser p content c = inr (tree, keys)
        /\ isUnambiguousModule tree = false
        /\ existsb isDynamicImport (visit tree keys) = false.
Proof.
  unfold parse. split.
  - destruct (parser p content c) as [err | [tree keys]] eqn:Hparser;
      [discriminate |].
    destruct (visitDynamicImports relative p c (visit tree keys) false _)
      as [[h m2] | e] eqn:Hvisit; [| discriminate].
    apply visitDynamicImports_flag in Hvisit. cbn in Hvisit. subst h.
    destruct (isUnambiguousModule tree) eqn:Hmodule; [discriminate |].
    destruct (existsb isDynamicImport (visit tree keys)) eqn:Hnone;
      [discriminate |].
    intros _. exists tree, keys. auto.
  - intros [tree [keys [Hparser [Hmodule Hnone]]]].
    rewrite Hparser, (visitDynamicImports_none _ _ _ _ _ _ Hnone), Hmodule.
    reflexivity.
Qed.

Lemma processDynamicImport_parseGoal (p : string) (c : ChildContext)
    (source_ : option CallArgument) (m : ExportMap) (h : bool)
    (m' : ExportMap) :
  processDynamicImport relative p c source_ m = Returned (h, m') ->
  parseGoal m' = parseGoal m.
Proof.
  unfold processDynamicImport.
  destruct source_ as [[lit |] |];
    [| intros H; inversion H; reflexivity | discriminate].
  destruct (remotePath relative p c (value lit));
    intros H; inversion H; reflexivity.
Qed.

Lemma visitDynamicImports_parseGoal (p : string) (c : ChildContext)
    (nodes : list VisitedNode) :
  forall (h : bool) (m : ExportMap) (h' : bool) (m' : ExportMap),
    visitDynamicImports relative p c nodes h m = Returned (h', m') ->
    parseGoal m' = parseGoal m.
Proof.
  induction nodes as [| v rest IH]; intros h m h' m' Hrun.
  - cbn in Hrun. inversion Hrun. reflexivity.
  - destruct v as [source_ | [|] arguments_];
      cbn [visitDynamicImports] in Hrun.
    + destruct (processDynamicImport relative p c (Some source_) m)
        as [[h1 m1] | e] eqn:Hp; [| discriminate].
      rewrite (IH _ _ _ _ Hrun).
      exact (processDynamicImport_parseGoal _ _ _ _ _ _ Hp).
    + destruct (processDynamicImport relative p c (head arguments_) m)
        as [[h1 m1] | e] eqn:Hp; [| discriminate].
      rewrite (IH _ _ _ _ Hrun).
      exact (processDynamicImport_parseGoal _ _ _ _ _ _ Hp).
    + eauto.
Qed.

(** The goal of a map that [parse] returns. *)
Lemma parse_parseGoal (p content : string) (c : ChildContext)
    (m : ExportMap) :
  parse_ p content c = Returned (Some m) ->
  parseGoal m
  = match parser p content c with
    | inr (tree, _) => if isUnambiguousModule tree then Module_ else ambiguous
    | inl _ => ambiguous
    end.
Proof.
  unfold parse.
  destruct (parser p content c) as [err | [tree keys]].
  { intros Hm. inversion Hm. reflexivity. }
  destruct (visitDynamicImports relative p c (visit tree keys) false _)
    as [[h m2] | e] eqn:Hvisit; [| discriminate].
  apply visitDynamicImports_parseGoal in Hvisit. cbn in Hvisit.
  destruct (negb (isUnambiguousModule tree) && negb h); [discriminate |].
  intros Hm. inversion Hm as [Hm']. clear Hm Hm'.
  destruct (isUnambiguousModule tree); [reflexivity |].
  match goal with
  | |- parseGoal (if ?cond then _ else _) = _ => destruct cond
  end; cbn [namespace_set with_namespace parseGoal];
    unfold walkBody; rewrite walk_parseGoal; cbn [walk_map];
    destruct (comments tree) as [cs |]; try exact Hvisit;
    destruct (moduleDoc doctrine_parse cs); exact Hvisit.
Qed.

(** A file whose visited nodes are dynamic imports without a literal
    source, and that has no import or export declaration: the map is
    returned, with the goal [ambiguous] and no import. *)
Lemma parse_dynamic_only (p content : string) (c : ChildContext)
    (tree : Program) (keys : option VisitorKeys) :
  parser p content c = inr (tree, keys) ->
  isUnambiguousModule tree = false ->
  existsb isModuleDeclaration (body tree) = false ->
  existsb isDynamicImport (visit tree keys) = true ->
  forallb nonLiteralSource (visit tree keys) = true ->
  exists m,
    parse_ p content c = Returned (Some m)
    /\ parseGoal m = ambiguous
    /\ imports m = [].
Proof.
  intros Hparser Hmodule Hnone Hdyn Hsrc. unfold parse.
  rewrite Hparser, (visitDynamicImports_non_literal _ _ _ _ Hsrc), Hdyn,
    Hmodule.
  cbn [negb orb andb]. eexists. split; [reflexivity |].
  split.
  - match goal with
    | |- parseGoal (if ?cond then _ else _) = _ => destruct cond
    end; cbn [namespace_set with_namespace parseGoal];
      unfold walkBody; rewrite walk_parseGoal; cbn [walk_map];
      destruct (comments tree) as [cs |]; try reflexivity;
      destruct (moduleDoc doctrine_parse cs); reflexivity.
  - match goal with
    | |- imports (if ?cond then _ else _) = _ => destruct cond
    end; cbn [namespace_set with_namespace imports];
      unfold walkBody; rewrite walk_imports by exact Hnone;
      cbn [walk_map];
      destruct (comments tree) as [cs |]; try reflexivity;
      destruct (moduleDoc doctrine_parse cs); reflexivity.
Qed.

(** The map of a file that is a single [export * from '...']. *)
Lemma parse_star_only (p content : string) (c : ChildContext)
    (node : NodeInfo) (src : Literal) (kind : ImportKind)
    (cs : option (list Comment)) (keys : option VisitorKeys) (pa : string)
    (b : ExportMap) :
  let tree := mkProgram [ExportAllDeclaration node src kind None] cs in
  parser p content c = inr (tree, keys) ->
  existsb isDynamicImport (visit tree keys) = false ->
  relative (value src) p (settings c) = Some pa ->
  parse_ p content c = Returned (Some b) ->
  namespace b = [] /\ reexports b = [] /\ dependencies b = [pa].
Proof.
  intros tree Hparser Hvisit Hrel. unfold parse.
  rewrite Hparser, (visitDynamicImports_none _ _ _ _ _ _ Hvisit).
  destruct (negb (isUnambiguousModule tree) && negb false);
    [discriminate |].
  intros Hb. inversion Hb as [Hb']. clear Hb Hb'.
  match goal with
  | |- context [walkBody _ _ _ _ _ _ _ _ ?m3] =>
      assert (Hm3 : namespace m3 = [] /\ reexports m3 = []
                    /\ dependencies m3 = [] /\ imports m3 = [])
        by (cbn; destruct cs as [l |];
            [destruct (moduleDoc doctrine_parse l) |]; cbn; auto);
      generalize dependent m3
  end.
  intros [? ns re deps im ? ? ? ? ?].
  cbn [namespace reexports dependencies imports].
  intros [-> [-> [-> ->]]].
  unfold walkBody. cbn [body tree fold_left walkStatement walk_map namespaces].
  unfold captureDependency, remotePath. rewrite Hrel.
  cbn. rewrite andb_false_r.
  destruct (isUnambiguousModule tree); cbn; auto.
Qed.
End ParseFacts.

(** ** [forEach] and the name ['default'] *)

Lemma jsmap_has_false_keys {K V : Type} `{EqDecision K} (k : K)
    (m : list (K * V)) :
  JsMap.has k m = false -> Forall (fun kv => fst kv <> k) m.
Proof.
  unfold JsMap.has. induction m as [| [k' v] rest IH]; cbn; intros Hk.
  - constructor.
  - destruct (decide (k = k')) as [-> | Hne]; [discriminate |].
    constructor; [cbn; congruence | auto].
Qed.

Lemma forEach_reexports_names (W : string -> option ExportMap)
    (get_rec : ExportMap -> string -> option Value) (this : ExportMap)
    (P : Key -> Prop) (entries : list (string * Reexport)) :
  Forall (fun kv => P (Some (fst kv))) entries ->
  match forEach_reexports W get_rec this entries with
  | Some calls => Forall (fun c => P (call_name c)) calls
  | None => True
  end.
Proof.
  induction 1 as [| [name r] rest Hname _ IH]; cbn [forEach_reexports].
  - constructor.
  - destruct (match callGetImport W r with
              | Some reexported => get_rec reexported (local r)
              | None => Some VUndefined
              end); [| exact I].
    destruct (forEach_reexports W get_rec this rest); [| exact I].
    constructor; [exact Hname | exact IH].
Qed.

Lemma forEach_no_default (W : string -> option ExportMap) (fuel : nat)
    (m : ExportMap) :
  JsMap.has (Some "default") (namespace m) = false ->
  JsMap.has "default" (reexports m) = false ->
  match forEach W fuel m with
  | Some calls => Forall (fun c => call_name c <> Some "default") calls
  | None => True
  end.
Proof.
  intros Hns Hre. destruct fuel as [| k]; [exact I |].
  cbn [forEach]. unfold forEach_step.
  pose proof (forEach_reexports_names W (get W k) m
                (fun n => n <> Some "default") (reexports m)) as Hnames.
  destruct (forEach_reexports W (get W k) m (reexports m)) as [re |];
    [| exact I].
  pose proof (forEach_deps_no_default W (forEach W k) m (dependencies m))
    as Hdeps.
  destruct (forEach_deps W (forEach W k) m (dependencies m)) as [de |];
    [| exact I].
  rewrite !Forall_app. split; [| split; [| exact Hdeps]].
  - unfold forEach_namespace. apply Forall_map.
    eapply Forall_impl; [exact (jsmap_has_false_keys _ _ Hns) |].
    intros [n v]. cbn. auto.
  - apply Hnames.
    eapply Forall_impl; [exact (jsmap_has_false_keys _ _ Hre) |].
    intros [n v]. cbn. congruence.
Qed.

(** ** The claims about the builder *)

Section BuilderClaims.
Variable doctrine_parse : string -> option Annotation.
Variable getCommentsBefore : SourceCode -> NodeInfo -> option (list Comment).
Variable captureTomDoc : DocStyleParser.
Variable parser :
  string -> string -> ChildContext -> ParseError + Program * option VisitorKeys.
Variable visit : Program -> option VisitorKeys -> list VisitedNode.
Variable relative : string -> string -> option Settings -> option string.
Variable isEsModuleInterop : ChildContext -> bool.
Variable isUnambiguousModule : Program -> bool.

Abbreviation parse_ :=
  (parse doctrine_parse getCommentsBefore captureTomDoc parser visit
         relative isEsModuleInterop isUnambiguousModule).

(** C1.  Let [b] be the map that [parse] builds from a file that is only
    [export * from './a'], where ['./a'] resolves to a map [a] that has
    both [default] and [x] in its namespace: [b.has('default')] is false
    and [b.has('x')] is true.  For every map [m] that neither has nor
    re-exports [default], whatever its star-dependencies are:
    [has('default')] is false, [hasDeep('default')] is not found with the
    path [[m]], [get('default')] is [undefined], and [forEach] calls the
    callback with no name ['default']; and for every map the calls that
    [forEach] forwards from its star-dependencies never carry the name
    ['default']. *)
Theorem default_never_through_star
    (W : string -> option ExportMap) (p content : string) (c : ChildContext)
    (node : NodeInfo) (src : Literal) (kind : ImportKind)
    (cs : option (list Comment)) (keys : option VisitorKeys)
    (pa : string) (a b m m' : ExportMap) (fuel : nat) :
  parser p content c
  = inr (mkProgram [ExportAllDeclaration node src kind None] cs, keys) ->
  existsb isDynamicImport
    (visit (mkProgram [ExportAllDeclaration node src kind None] cs) keys)
  = false ->
  relative (value src) p (settings c) = Some pa ->
  parse_ p content c = Returned (Some b) ->
  W pa = Some a ->
  JsMap.has (Some "default") (namespace a) = true ->
  JsMap.has (Some "x") (namespace a) = true ->
  JsMap.has (Some "default") (namespace m) = false ->
  JsMap.has "default" (reexports m) = false ->
  has W (S (S fuel)) b "default" = Some false
  /\ has W (S (S fuel)) b "x" = Some true
  /\ has W (S fuel) m "default" = Some false
  /\ hasDeep W (S fuel) m "default" = Some (Deep.mk false [m])
  /\ get W (S fuel) m "default" = Some VUndefined
  /\ match forEach W fuel m with
     | Some calls => Forall (fun k => call_name k <> Some "default") calls
     | None => True
     end
  /\ match forEach_deps W (forEach W fuel) m' (dependencies m') with
     | Some calls => Forall (fun k => call_name k <> Some "default") calls
     | None => True
     end.
Proof.
  intros Hparser Hvisit Hrel Hb Ha Hdefault Hx Hns Hre.
  destruct (parse_star_only doctrine_parse getCommentsBefore captureTomDoc
              parser visit relative isEsModuleInterop isUnambiguousModule
              p content c node src kind cs keys pa b Hparser Hvisit Hrel Hb)
    as [Hbns [Hbre Hbdeps]].
  split.
  { rewrite has_default, Hbns, Hbre. reflexivity. }
  split.
  { cbn [has]. unfold has_step at 1. rewrite Hbns, Hbre, Hbdeps. cbn.
    unfold callGetter. rewrite Ha. unfold has_step. rewrite Hx. reflexivity. }
  split; [rewrite has_default, Hns, Hre; reflexivity |].
  split; [apply hasDeep_default_absent; assumption |].
  split; [apply get_default_absent; assumption |].
  split; [apply forEach_no_default; assumption |].
  apply forEach_deps_no_default.
Qed.

(** C7.  [parse] returns null exactly when the parser succeeded, the tree
    is not an unambiguous module and the walker met no dynamic import.
    When the parser throws [err], [parse] returns a map whose [errors] is
    that error and whose [namespace], [reexports], [dependencies] and
    [imports] are empty. *)
Theorem parse_null_exactly_when_not_a_module
    (p content : string) (c : ChildContext)
    (p' content' : string) (c' : ChildContext) (err : ParseError) :
  parser p' content' c' = inl err ->
  (parse_ p content c = Returned None
   <-> exists tree keys,
         parser p content c = inr (tree, keys)
         /\ isUnambiguousModule tree = false
         /\ existsb isDynamicImport (visit tree keys) = false)
  /\ exists m,
       parse_ p' content' c' = Returned (Some m)
       /\ errors m = [err]
       /\ namespace m = [] /\ reexports m = []
       /\ dependencies m = [] /\ imports m = [].
Proof.
  intros Herr. split; [apply parse_null_iff |].
  eexists. split; [apply parse_of_error; exact Herr |].
  cbn. auto 6.
Qed.

(** C8.  A file for which the parser succeeds, whose tree fails the
    unambiguous-module check and has no import or export declaration, and
    in which the walker meets at least one dynamic import and only dynamic
    imports whose source is not a literal: [parse] returns a map with
    [parseGoal] ambiguous and no entry in [imports].
    For every map [m'] that [parse] returns, [parseGoal] is [Module]
    exactly when the parser succeeded and the unambiguous check passed on
    its tree. *)
Theorem dynamic_import_alone_stays_ambiguous
    (p content : string) (c : ChildContext) (tree : Program)
    (keys : option VisitorKeys)
    (p' content' : string) (c' : ChildContext) (m' : ExportMap) :
  parser p content c = inr (tree, keys) ->
  isUnambiguousModule tree = false ->
  existsb isModuleDeclaration (body tree) = false ->
  existsb isDynamicImport (visit tree keys) = true ->
  forallb nonLiteralSource (visit tree keys) = true ->
  parse_ p' content' c' = Returned (Some m') ->
  (exists m,
     parse_ p content c = Returned (Some m)
     /\ parseGoal m = ambiguous
     /\ imports m = [])
  /\ (parseGoal m' = Module_
      <-> exists tree' keys',
            parser p' content' c' = inr (tree', keys')
            /\ isUnambiguousModule tree' = true).
Proof.
  intros Hparser Hmodule Hnone Hdyn Hsrc Hm'.
  split; [eapply parse_dynamic_only; eauto |].
  rewrite (parse_parseGoal _ _ _ _ _ _ _ _ _ _ _ _ Hm').
  destruct (parser p' content' c') as [err | [tree' keys']] eqn:Hp'.
  - split; [discriminate | intros [? [? [? _]]]; discriminate].
  - destruct (isUnambiguousModule tree') eqn:Hu.
    + split; [intros _; eauto | reflexivity].
    + split; [discriminate |].
      intros [t [k [Heq Ht]]]. inversion Heq; subst. congruence.
Qed.
End BuilderClaims.

Lemma default_never_through_star_witness :
  has Fixture.exportMapFor 2 Fixture.b_map "default" = Some false
  /\ has Fixture.exportMapFor 2 Fixture.b_map "x" = Some true.
Proof.
  pose proof
    (default_never_through_star Fixture.doctrine_parse
       Fixture.getCommentsBefore Fixture.captureTomDoc Fixture.parser
       Fixture.visit Fixture.relative Fixture.isEsModuleInterop
       Fixture.isUnambiguousModule
       Fixture.exportMapFor "/p/b.ts" "" (Fixture.context "/p/b.ts")
       Fixture.node0 (mkLiteral "./a" Fixture.loc0) KindValue None None
       "/p/a.ts" Fixture.a_map
       (with_mtime None Fixture.b_map) Fixture.b_map Fixture.b_map 0) as H.
  destruct H as [H1 [H2 _]]; try (vm_compute; reflexivity).
  split; [exact H1 | exact H2].
Defined.

Lemma parse_null_exactly_when_not_a_module_witness :
  Fixture.parse "/p/script.js" = Returned None
  /\ exists m,
       Fixture.parse "/p/bad.ts" = Returned (Some m)
       /\ errors m = [Fixture.bad_error]
       /\ namespace m = [] /\ reexports m = []
       /\ dependencies m = [] /\ imports m = [].
Proof.
  destruct
    (parse_null_exactly_when_not_a_module Fixture.doctrine_parse
       Fixture.getCommentsBefore Fixture.captureTomDoc Fixture.parser
       Fixture.visit Fixture.relative Fixture.isEsModuleInterop
       Fixture.isUnambiguousModule
       "/p/script.js" "" (Fixture.context "/p/script.js")
       "/p/bad.ts" "" (Fixture.context "/p/bad.ts") Fixture.bad_error
       eq_refl)
    as [Hnull Herr].
  split; [| exact Herr].
  apply Hnull. exists Fixture.script_js, None.
  repeat split; reflexivity.
Defined.

Lemma dynamic_import_alone_stays_ambiguous_witness :
  (exists m,
     Fixture.parse "/p/dyn.js" = Returned (Some m)
     /\ parseGoal m = ambiguous
     /\ imports m = [])
  /\ (parseGoal Fixture.a_map = Module_
      <-> exists tree' keys',
            Fixture.parser "/p/a.ts" "" (Fixture.context "/p/a.ts")
            = inr (tree', keys')
            /\ Fixture.isUnambiguousModule tree' = true).
Proof.
  apply (dynamic_import_alone_stays_ambiguous Fixture.doctrine_parse
           Fixture.getCommentsBefore Fixture.captureTomDoc Fixture.parser
           Fixture.visit Fixture.relative Fixture.isEsModuleInterop
       Fixture.isUnambiguousModule
           "/p/dyn.js" "" (Fixture.context "/p/dyn.js") Fixture.dyn_js None
           "/p/a.ts" "" (Fixture.context "/p/a.ts")
           (with_mtime None Fixture.a_map));
    vm_compute; reflexivity.
Defined.

(** ** The resolution cache *)

Section CacheFacts.
Variable doctrine_parse : string -> option Annotation.
Variable getCommentsBefore : SourceCode -> NodeInfo -> option (list Comment).
Variable captureTomDoc : DocStyleParser.
Variable parser :
  string -> string -> ChildContext -> ParseError + Program * option VisitorKeys.
Variable visit : Program -> option VisitorKeys -> list VisitedNode.
Variable relative : string -> string -> option Settings -> option string.
Variable isEsModuleInterop : ChildContext -> bool.
Variable isUnambiguousModule : Program -> bool.
Variable hashObject : ChildContext -> string.
Variable hasValidExtension : string -> ChildContext -> bool.
Variable ignore : string -> ChildContext -> bool.
Variable isMaybeUnambiguousModule : string -> bool.

Abbreviation ExportMap_for :=
  (for_ doctrine_parse getCommentsBefore captureTomDoc parser visit relative
        isEsModuleInterop isUnambiguousModule hashObject hasValidExtension
        ignore isMaybeUnambiguousModule).

Abbreviation rebuild_ :=
  (rebuild doctrine_parse getCommentsBefore captureTomDoc parser visit
           relative isEsModuleInterop isUnambiguousModule hasValidExtension
           ignore isMaybeUnambiguousModule).

Abbreviation keyOf := (cacheKeyOf hashObject).

Lemma rebuild_caches_result (fs : FileSystem) (c : ChildContext)
    (stats_mtime : Z) (s s' : Process) (r : option ExportMap) :
  rebuild_ fs c (keyOf c) stats_mtime s = (Returned r, s') ->
  cached_as s' (keyOf c) stats_mtime r.
Proof.
  unfold rebuild, cacheNull, cached_as, Eff.bind, Eff.emit, Eff.cacheSet,
    Eff.ret, Eff.orThrow, Eff.throw, Eff.ofOutcome.
  cbn [exportCache trace].
  intros Hrun.
  repeat match type of Hrun with
         | context [if ?b then _ else _] => destruct b
         | context [match ?x with _ => _ end] => destruct x
         end;
    inversion Hrun; subst; cbn [exportCache];
    rewrite lookup_insert_eq; split; reflexivity.
Qed.

Lemma for_of_sentinel (fs : FileSystem) (c : ChildContext) (s : Process) :
  exportCache s !! keyOf c = Some None ->
  ExportMap_for fs c s = (Returned None, s).
Proof.
  intros Hnull. unfold for_, Eff.bind, Eff.cacheGet. rewrite Hnull.
  reflexivity.
Qed.

Lemma for_of_fresh_entry (fs : FileSystem) (c : ChildContext) (s : Process)
    (exportMap : ExportMap) (t : Z) :
  exportCache s !! keyOf c = Some (Some exportMap) ->
  mtime exportMap = Some t ->
  statSync_mtime fs (context_path c) = Some t ->
  ExportMap_for fs c s
  = (Returned (Some exportMap),
     mkProcess (exportCache s) (trace s ++ [StatSync (context_path c)])).
Proof.
  intros Hhit Hmtime Hstat.
  unfold for_, Eff.bind, Eff.cacheGet, Eff.emit, Eff.orThrow, Eff.ret.
  rewrite Hhit, Hstat. cbn. rewrite Hmtime, Z.sub_diag. reflexivity.
Qed.

Lemma for_caches_result (fs : FileSystem) (c : ChildContext)
    (s s' : Process) (r : option ExportMap) :
  ExportMap_for fs c s = (Returned r, s') ->
  exportCache s' !! keyOf c = Some r
  /\ match r with
     | Some exportMap =>
         exists t, statSync_mtime fs (context_path c) = Some t
                   /\ mtime exportMap = Some t
     | None => True
     end.
Proof.
  unfold for_, Eff.bind, Eff.cacheGet, Eff.emit, Eff.orThrow, Eff.ret,
    Eff.throw.
  cbn [exportCache trace].
  destruct (exportCache s !! keyOf c) as [[exportMap |] |] eqn:Hget.
  - destruct (statSync_mtime fs (context_path c)) as [t |]; [| discriminate].
    destruct (mtime exportMap) as [t' |] eqn:Hmtime; [| discriminate].
    destruct (t' - t =? 0)%Z eqn:Hsame.
    + intros Hrun. inversion Hrun; subst. cbn. split; [exact Hget |].
      exists t. split; [reflexivity |].
      rewrite Hmtime. f_equal. apply Z.eqb_eq in Hsame. lia.
    + intros Hrun. apply rebuild_caches_result in Hrun as [Hc Hm].
      split; [exact Hc |]. destruct r; eauto.
  - intros Hrun. inversion Hrun; subst. auto.
  - destruct (statSync_mtime fs (context_path c)) as [t |]; [| discriminate].
    intros Hrun. apply rebuild_caches_result in Hrun as [Hc Hm].
    split; [exact Hc |]. destruct r; eauto.
Qed.

(** C6.  After a call of [ExportMap.for] that returned, a second call for
    the same context, with the file's modification time unchanged, returns
    the value that the cache holds, the one the first call returned: the
    cache is left as it is and nothing is run but [statSync] (and not
    even that for the null sentinel).  When the cache holds the null
    sentinel for the key, [ExportMap.for] returns null at once: no stat,
    no filter, no parser. *)
Theorem for_twice_returns_cached_instance
    (fs fs' : FileSystem) (c : ChildContext) (s s' : Process)
    (r : option ExportMap)
    (fs0 : FileSystem) (c0 : ChildContext) (s0 : Process) :
  ExportMap_for fs c s = (Returned r, s') ->
  statSync_mtime fs' (context_path c) = statSync_mtime fs (context_path c) ->
  exportCache s0 !! keyOf c0 = Some None ->
  exportCache s' !! keyOf c = Some r
  /\ ExportMap_for fs' c s'
     = (Returned r,
        mkProcess (exportCache s')
          (trace s'
           ++ match r with
              | Some _ => [StatSync (context_path c)]
              | None => []
              end))
  /\ ExportMap_for fs0 c0 s0 = (Returned None, s0).
Proof.
  intros Hfirst Hsame Hnull.
  apply for_caches_result in Hfirst as [Hcached Hmtime].
  split; [exact Hcached |].
  split; [| apply for_of_sentinel; exact Hnull].
  destruct r as [exportMap |].
  - destruct Hmtime as [t [Hstat Ht]].
    apply for_of_fresh_entry with (t := t); congruence.
  - rewrite for_of_sentinel by exact Hcached.
    rewrite app_nil_r. destruct s'; reflexivity.
Qed.
End CacheFacts.

Lemma for_twice_returns_cached_instance_witness :
  exportCache Fixture.after_a !! "espree/p/a.ts" = Some (Some Fixture.a_map)
  /\ Fixture.for_ (Fixture.context "/p/a.ts") Fixture.after_a
     = (Returned (Some Fixture.a_map),
        mkProcess (exportCache Fixture.after_a)
                  (trace Fixture.after_a ++ [StatSync "/p/a.ts"]))
  /\ Fixture.for_ (Fixture.context "/p/script.js") Fixture.after_script
     = (Returned None, Fixture.after_script).
Proof.
  apply (for_twice_returns_cached_instance Fixture.doctrine_parse
           Fixture.getCommentsBefore Fixture.captureTomDoc Fixture.parser
           Fixture.visit Fixture.relative Fixture.isEsModuleInterop
       Fixture.isUnambiguousModule
           Fixture.hashObject Fixture.hasValidExtension Fixture.ignore
           Fixture.isMaybeUnambiguousModule
           Fixture.fs Fixture.fs (Fixture.context "/p/a.ts")
           Fixture.emptyProcess Fixture.after_a (Some Fixture.a_map)
           Fixture.fs (Fixture.context "/p/script.js") Fixture.after_script);
    vm_compute; reflexivity.
Defined.

(** ** Documentation capture *)

Section DocFacts.
Variable doctrine_parse : string -> option Annotation.
Variable getCommentsBefore : SourceCode -> NodeInfo -> option (list Comment).

Lemma captureJsDoc_app (cs cs' : list Comment) :
  captureJsDoc doctrine_parse (cs ++ cs')
  = match captureJsDoc doctrine_parse cs' with
    | Some parsed => Some parsed
    | None => captureJsDoc doctrine_parse cs
    end.
Proof.
  unfold captureJsDoc. rewrite fold_left_app.
  generalize (fold_left
                (fun doc comment =>
                   match comment_type comment with
                   | Block =>
                       match doctrine_parse (comment_value comment) with
                       | Some parsed => Some parsed
                       | None => doc
                       end
                   | Line => doc
                   end) cs None).
  induction cs' as [| c rest IH]; intros doc0; cbn [fold_left].
  - destruct doc0; reflexivity.
  - rewrite IH. rewrite (IH (match comment_type c with
                             | Block => _ | Line => None end)).
    destruct (fold_left _ rest None); [reflexivity |].
    destruct (comment_type c); [| destruct doc0; reflexivity].
    destruct (doctrine_parse (comment_value c)); [reflexivity |].
    destruct doc0; reflexivity.
Qed.

Lemma captureJsDoc_passed_over (cs : list Comment) :
  forallb (notJsDoc doctrine_parse) cs = true ->
  captureJsDoc doctrine_parse cs = None.
Proof.
  unfold captureJsDoc.
  induction cs as [| c rest IH]; cbn; [reflexivity |].
  intros Hall. apply andb_true_iff in Hall as [Hc Hrest].
  unfold notJsDoc in Hc. destruct (comment_type c); [| auto].
  destruct (doctrine_parse (comment_value c)); [discriminate | auto].
Qed.

Lemma captureDoc_some_skips (source : SourceCode)
    (docStyleParsers : list DocStyleParser) (pre rest : list NodeInfo)
    (metadata : ExportMeta) :
  forallb (noLeadingComments getCommentsBefore source) pre = true ->
  captureDoc_some getCommentsBefore source docStyleParsers (pre ++ rest)
                  metadata
  = captureDoc_some getCommentsBefore source docStyleParsers rest metadata.
Proof.
  induction pre as [| n pre' IH]; cbn [forallb app]; [reflexivity |].
  intros Hall. apply andb_true_iff in Hall as [Hn Hpre].
  cbn [captureDoc_some]. unfold noLeadingComments in Hn.
  destruct (leadingCommentsOf getCommentsBefore source n) as [[[| c cs] |] | e];
    try discriminate; auto.
Qed.

(** C9, amended.  [captureDoc] goes through the candidate nodes in order
    and stops at the first one that has leading comments: the nodes after
    it are not looked at, and the doc it attaches comes from the comments
    of that node alone.  On these comments it runs the parser of every
    configured doc style, in order, and attaches the doc of the last
    parser that yields one; with no doc style configured it attaches
    nothing.  [captureJsDoc] yields the last block comment that doctrine
    parses, not the first; so with the jsdoc style alone, which is the
    default, the doc attached is the last block comment of that node
    that parses. *)
Theorem captureDoc_first_node_last_comment
    (source : SourceCode) (docStyleParsers : list DocStyleParser)
    (pre post : list NodeInfo) (n : NodeInfo) (c0 : Comment)
    (leading : list Comment)
    (cs cs' : list Comment) (v : string) (d : Annotation) :
  forallb (noLeadingComments getCommentsBefore source) pre = true ->
  leadingCommentsOf getCommentsBefore source n
  = Returned (Some (c0 :: leading)) ->
  doctrine_parse v = Some d ->
  forallb (notJsDoc doctrine_parse) cs' = true ->
  captureDoc getCommentsBefore source docStyleParsers (pre ++ n :: post)
  = mkMeta (applyParsers docStyleParsers (c0 :: leading) None) None
  /\ (forall (before after : list DocStyleParser) (parser : DocStyleParser)
             (found : Annotation),
        parser (c0 :: leading) = Some found ->
        Forall (fun q => q (c0 :: leading) = None) after ->
        captureDoc getCommentsBefore source (before ++ parser :: after)
                   (pre ++ n :: post)
        = mkMeta (Some found) None)
  /\ captureDoc getCommentsBefore source [] (pre ++ n :: post)
     = mkMeta None None
  /\ captureDoc getCommentsBefore source [captureJsDoc doctrine_parse]
                (pre ++ n :: post)
     = mkMeta (captureJsDoc doctrine_parse (c0 :: leading)) None
  /\ captureJsDoc doctrine_parse (cs ++ mkComment Block v :: cs') = Some d.
Proof.
  intros Hpre Hn Hv Hcs'.
  assert (Hstop : forall parsers,
    captureDoc getCommentsBefore source parsers (pre ++ n :: post)
    = mkMeta (applyParsers parsers (c0 :: leading) None) None).
  { intros parsers. unfold captureDoc.
    rewrite captureDoc_some_skips by exact Hpre.
    cbn [captureDoc_some]. rewrite Hn. reflexivity. }
  split; [apply Hstop |]. split; [| split; [| split]].
  - intros before after parser found Hfound Hafter.
    rewrite Hstop. f_equal. unfold applyParsers.
    rewrite fold_left_app. cbn [fold_left]. rewrite Hfound.
    clear Hfound. induction Hafter as [| q rest Hq _ IH]; cbn [fold_left];
      [reflexivity |].
    rewrite Hq. exact IH.
  - rewrite Hstop. reflexivity.
  - rewrite Hstop. cbn [applyParsers fold_left].
    destruct (captureJsDoc doctrine_parse (c0 :: leading)); reflexivity.
  - rewrite captureJsDoc_app.
    change (mkComment Block v :: cs') with ([mkComment Block v] ++ cs').
    rewrite captureJsDoc_app, (captureJsDoc_passed_over _ Hcs').
    unfold captureJsDoc. cbn. rewrite Hv. reflexivity.
Qed.
End DocFacts.

(** C9 as stated fails: of two block comments that doctrine both parses,
    [captureJsDoc] returns the annotation of the second, and that is the
    doc [captureDoc] attaches, where "first comment match wins" gives the
    first. *)
Lemma captureJsDoc_first_match_counterexample :
  firstJsDocMatch Fixture.doctrine_parse Fixture.two_blocks
  = Some (mkAnnotation "first" [])
  /\ captureJsDoc Fixture.doctrine_parse Fixture.two_blocks
     = Some (mkAnnotation "second" [])
  /\ captureDoc Fixture.getCommentsBefore Fixture.source0
                [captureJsDoc Fixture.doctrine_parse] [Fixture.documented]
     = mkMeta (Some (mkAnnotation "second" [])) None
  /\ captureJsDoc Fixture.doctrine_parse Fixture.two_blocks
     <> firstJsDocMatch Fixture.doctrine_parse Fixture.two_blocks.
Proof. repeat split; try (vm_compute; reflexivity). discriminate. Qed.

Lemma captureDoc_first_node_last_comment_witness :
  captureDoc Fixture.getCommentsBefore Fixture.source0
             ([captureJsDoc Fixture.doctrine_parse]
              ++ Samples.tomdoc_first :: [Fixture.captureTomDoc])
             ([Fixture.node0] ++ Fixture.documented :: [Fixture.node0])
  = mkMeta (Some (mkAnnotation "first" [])) None
  /\ captureDoc Fixture.getCommentsBefore Fixture.source0 []
                ([Fixture.node0] ++ Fixture.documented :: [Fixture.node0])
     = mkMeta None None
  /\ captureDoc Fixture.getCommentsBefore Fixture.source0
                [captureJsDoc Fixture.doctrine_parse]
                ([Fixture.node0] ++ Fixture.documented :: [Fixture.node0])
     = mkMeta (Some (mkAnnotation "second" [])) None
  /\ captureJsDoc Fixture.doctrine_parse
       ([mkComment Block "first"] ++ mkComment Block "second"
          :: [mkComment Line "x"; mkComment Block "!"])
     = Some (mkAnnotation "second" []).
Proof.
  destruct
    (captureDoc_first_node_last_comment Fixture.doctrine_parse
       Fixture.getCommentsBefore Fixture.source0
       [captureJsDoc Fixture.doctrine_parse] [Fixture.node0]
       [Fixture.node0] Fixture.documented (mkComment Block "first")
       [mkComment Block "second"] [mkComment Block "first"]
       [mkComment Line "x"; mkComment Block "!"] "second"
       (mkAnnotation "second" []))
    as [_ [Hstyles [Hnone [Hdoc Hlast]]]]; try reflexivity.
  split; [| split; [exact Hnone | split; [exact Hdoc | exact Hlast]]].
  apply Hstyles; [reflexivity |].
  constructor; [reflexivity | constructor].
Defined.

(** * Further properties of the deep queries *)

Section QueryConsistency.
Variable W : string -> option ExportMap.

Lemma get_deps_of_has_deps
    (has_rec : ExportMap -> string -> option bool)
    (get_rec : ExportMap -> string -> option Value)
    (this : ExportMap) (n : string) (deps : list Getter) :
  (forall im, has_rec im n = Some false -> get_rec im n = Some VUndefined) ->
  has_deps W has_rec n deps = Some false ->
  get_deps W get_rec this n deps = Some VUndefined.
Proof.
  intros Hrec. induction deps as [| dep rest IH]; cbn; intros Hhas.
  - reflexivity.
  - destruct (callGetter W dep) as [innerMap |]; [| auto].
    destruct (has_rec innerMap n) as [[|] |] eqn:Hinner; try discriminate.
    destruct (String.eqb (path innerMap) (path this)); [auto |].
    rewrite (Hrec _ Hinner). auto.
Qed.

(** [has] and [get] agree on absence: at a depth of the call stack at
    which [has(name)] answers false, [get(name)] answers [undefined]; it
    yields neither metadata nor [null] for a name that [has] denies. *)
Theorem has_false_get_undefined (fuel : nat) :
  forall (m : ExportMap) (n : string),
    has W fuel m n = Some false ->
    get W fuel m n = Some VUndefined.
Proof.
  induction fuel as [| k IH]; intros m n Hhas; [discriminate |].
  cbn [has get] in *. unfold has_step in Hhas. unfold get_step.
  destruct (JsMap.has (Some n) (namespace m)) eqn:Hns; [discriminate |].
  destruct (JsMap.has n (reexports m)) eqn:Hre; [discriminate |].
  rewrite (jsmap_has_false_get _ _ Hns), (jsmap_has_false_get _ _ Hre).
  destruct (negb (is_default n)); [| reflexivity].
  eapply get_deps_of_has_deps; eauto.
Qed.

Lemma hasDeep_deps_path
    (hasDeep_rec : ExportMap -> string -> option Deep.t)
    (this : ExportMap) (n : string) (bound : nat) (deps : list Getter)
    (d : Deep.t) :
  (forall im r, hasDeep_rec im n = Some r ->
     exists rest, Deep.path r = im :: rest
       /\ Forall (fun x => exists p, W p = Some x) rest
       /\ length (Deep.path r) <= bound) ->
  Forall (fun dep => forall im, callGetter W dep = Some im ->
                                exists p, W p = Some im) deps ->
  hasDeep_deps W hasDeep_rec this n deps = Some d ->
  exists rest, Deep.path d = this :: rest
    /\ Forall (fun x => exists p, W p = Some x) rest
    /\ length (Deep.path d) <= S bound.
Proof.
  intros Hrec Hdeps. induction Hdeps as [| dep rest Hdep _ IH]; cbn.
  - intros Hd. inversion Hd. exists []. cbn. repeat split; [constructor | lia].
  - destruct (callGetter W dep) as [innerMap |] eqn:Hcall.
    + destruct (String.eqb (path innerMap) (path this)); [exact IH |].
      destruct (hasDeep_rec innerMap n) as [innerValue |] eqn:Hinner;
        [| discriminate].
      destruct (Deep.found innerValue); [| exact IH].
      intros Hd. inversion Hd. cbn.
      destruct (Hrec _ _ Hinner) as [tl [Hpath [Hall Hlen]]].
      exists (Deep.path innerValue). repeat split; [| lia].
      rewrite Hpath. constructor; [eauto | exact Hall].
    + intros Hd. inversion Hd. exists []. cbn.
      repeat split; [constructor | lia].
Qed.

(** The path that [hasDeep] reports starts with the map it was called on;
    every further map on it was answered by a getter; and the path is no
    longer than the depth of the call stack that was needed. *)
Theorem hasDeep_path_shape (fuel : nat) :
  forall (m : ExportMap) (n : string) (d : Deep.t),
    hasDeep W fuel m n = Some d ->
    exists rest,
      Deep.path d = m :: rest
      /\ Forall (fun x => exists p, W p = Some x) rest
      /\ length (Deep.path d) <= fuel.
Proof.
  induction fuel as [| k IH]; intros m n d Hd; [discriminate |].
  cbn [hasDeep] in Hd. unfold hasDeep_step in Hd.
  assert (Hone : forall f, Some (Deep.mk f [m]) = Some d ->
    exists rest, Deep.path d = m :: rest
      /\ Forall (fun x => exists p, W p = Some x) rest
      /\ length (Deep.path d) <= S k).
  { intros f Hf. inversion Hf. exists []. cbn.
    repeat split; [constructor | lia]. }
  destruct (JsMap.has (Some n) (namespace m)); [eauto |].
  destruct (JsMap.get n (reexports m)) as [r |].
  - unfold callGetImport in Hd.
    destruct (getImport r) as [g |]; [| eauto].
    destruct (callGetter W g) as [imported |] eqn:Hcall; [| eauto].
    destruct (String.eqb (path imported) (path m) && String.eqb (local r) n);
      [eauto |].
    destruct (hasDeep W k imported (local r)) as [deep |] eqn:Hdeep;
      [| discriminate].
    inversion Hd. cbn.
    destruct (IH _ _ _ Hdeep) as [tl [Hpath [Hall Hlen]]].
    exists (Deep.path deep). repeat split; [| lia].
    rewrite Hpath. constructor; [eauto | exact Hall].
  - destruct (negb (is_default n)); [| eauto].
    eapply hasDeep_deps_path; [| | exact Hd].
    + intros im r Hr. exact (IH _ _ _ Hr).
    + apply Forall_forall. intros dep _ im Him. eauto.
Qed.

Lemma forward_map (this : ExportMap) (calls : list Call) :
  Forall (fun c => call_map c = this) (forward this calls).
Proof.
  unfold forward. apply Forall_map, Forall_forall. intros c _. reflexivity.
Qed.

(** Every call that [forEach] makes passes the map it was called on as
    the third argument, also for the names that come from a
    star-dependency. *)
Theorem forEach_passes_this (fuel : nat) (m : ExportMap)
    (calls : list Call) :
  forEach W fuel m = Some calls ->
  Forall (fun c => call_map c = m) calls.
Proof.
  destruct fuel as [| k]; [discriminate |].
  cbn [forEach]. unfold forEach_step.
  destruct (forEach_reexports W (get W k) m (reexports m)) as [re |] eqn:Hre;
    [| discriminate].
  destruct (forEach_deps W (forEach W k) m (dependencies m)) as [de |] eqn:Hde;
    [| discriminate].
  intros Hcalls. inversion Hcalls. rewrite !Forall_app. repeat split.
  - unfold forEach_namespace. apply Forall_map, Forall_forall.
    intros [n v] _. reflexivity.
  - clear -Hre. revert re Hre.
    induction (reexports m) as [| [name r] rest IH]; cbn; intros re Hre.
    + inversion Hre. constructor.
    + destruct (match callGetImport W r with
                | Some reexported => get W k reexported (local r)
                | None => Some VUndefined
                end); [| discriminate].
      destruct (forEach_reexports W (get W k) m rest); [| discriminate].
      inversion Hre. constructor; [reflexivity | auto].
  - clear -Hde. revert de Hde.
    induction (dependencies m) as [| dep rest IH]; cbn; intros de Hde.
    + inversion Hde. constructor.
    + destruct (callGetter W dep) as [d |]; [| auto].
      destruct (forEach W k d); [| discriminate].
      destruct (forEach_deps W (forEach W k) m rest); [| discriminate].
      inversion Hde. apply Forall_app. split; [apply forward_map | auto].
Qed.
End QueryConsistency.

Section SizeFacts.
Variable W : string -> option ExportMap.

Lemma forEach_reexports_length
    (get_rec : ExportMap -> string -> option Value) (this : ExportMap)
    (entries : list (string * Reexport)) (calls : list Call) :
  forEach_reexports W get_rec this entries = Some calls ->
  length calls = length entries.
Proof.
  revert calls. induction entries as [| [name r] rest IH]; cbn; intros calls.
  - intros H. inversion H. reflexivity.
  - destruct (match callGetImport W r with
              | Some reexported => get_rec reexported (local r)
              | None => Some VUndefined
              end); [| discriminate].
    destruct (forEach_reexports W get_rec this rest) as [tl |];
      [| discriminate].
    intros H. inversion H. cbn. f_equal. auto.
Qed.

Lemma forward_length (this : ExportMap) (calls : list Call) :
  length (forward this calls) <= length calls.
Proof.
  unfold forward. rewrite length_map. apply length_filter.
Qed.

Lemma size_deps_bounds_forEach_deps
    (forEach_rec : ExportMap -> option (list Call))
    (size_rec : ExportMap -> option nat) (this : ExportMap)
    (deps : list Getter) :
  (forall d inner, forEach_rec d = Some inner ->
     exists s, size_rec d = Some s /\ length inner <= s) ->
  forall (acc : nat) (calls : list Call),
    forEach_deps W forEach_rec this deps = Some calls ->
    exists s, size_deps W size_rec acc deps = Some s
              /\ acc + length calls <= s.
Proof.
  intros Hrec. induction deps as [| dep rest IH]; cbn; intros acc calls.
  - intros H. inversion H. exists acc. cbn. split; [reflexivity | lia].
  - destruct (callGetter W dep) as [d |]; [| apply IH].
    destruct (forEach_rec d) as [inner |] eqn:Hinner; [| discriminate].
    destruct (forEach_deps W forEach_rec this rest) as [tl |] eqn:Htl;
      [| discriminate].
    intros H. inversion H.
    destruct (Hrec _ _ Hinner) as [s [Hs Hle]]. rewrite Hs.
    destruct (IH (acc + s) tl eq_refl) as [s' [Hs' Hle']].
    exists s'. split; [exact Hs' |].
    rewrite length_app. pose proof (forward_length this inner). lia.
Qed.

(** When [forEach] returns, the [size] getter returns too, and the number
    of calls [forEach] made is at most [size]: [size] also counts the
    ['default'] of the star-dependencies, which [forEach] leaves out. *)
Theorem forEach_calls_at_most_size (fuel : nat) :
  forall (m : ExportMap) (calls : list Call),
    forEach W fuel m = Some calls ->
    exists s, size W fuel m = Some s /\ length calls <= s.
Proof.
  induction fuel as [| k IH]; intros m calls Hcalls; [discriminate |].
  cbn [forEach size] in *. unfold forEach_step in Hcalls. unfold size_step.
  destruct (forEach_reexports W (get W k) m (reexports m)) as [re |] eqn:Hre;
    [| discriminate].
  destruct (forEach_deps W (forEach W k) m (dependencies m)) as [de |] eqn:Hde;
    [| discriminate].
  inversion Hcalls.
  destruct (size_deps_bounds_forEach_deps (forEach W k) (size W k) m
              (dependencies m) (fun d inner H => IH d inner H)
              (JsMap.size (namespace m) + JsMap.size (reexports m)) de Hde)
    as [s [Hs Hle]].
  exists s. split; [exact Hs |].
  rewrite !length_app, (forEach_reexports_length _ _ _ _ Hre).
  unfold forEach_namespace. rewrite length_map. unfold JsMap.size in Hle.
  lia.
Qed.

Lemma size_deps_prune (size_rec : ExportMap -> option nat) (acc : nat)
    (deps : list Getter) :
  size_deps W size_rec acc (List.filter (resolvable W) deps)
  = size_deps W size_rec acc deps.
Proof.
  revert acc. induction deps as [| dep rest IH]; intros acc; [reflexivity |].
  cbn [List.filter size_deps]. unfold resolvable, callGetter in *.
  destruct (W dep) as [d |] eqn:Hdep; [| apply IH].
  cbn [size_deps]. unfold callGetter. rewrite Hdep.
  destruct (size_rec d); auto.
Qed.

(** A star-dependency whose getter answers null counts for nothing in
    [size]: the size of [m] is the size of [m] without those edges. *)
Theorem size_ignores_null_dependencies (fuel : nat) (m : ExportMap) :
  size W fuel (pruneNull W m) = size W fuel m.
Proof.
  destruct fuel as [| k]; [reflexivity |].
  cbn [size]. unfold size_step. cbn. apply size_deps_prune.
Qed.

Lemma size_deps_stuck (size_rec : ExportMap -> option nat) (d : ExportMap)
    (deps : list Getter) (dep : Getter) :
  dep ∈ deps ->
  callGetter W dep = Some d ->
  size_rec d = None ->
  forall acc, size_deps W size_rec acc deps = None.
Proof.
  intros Hin Hdep Hrec. induction deps as [| dep' rest IH]; intros acc.
  - inversion Hin.
  - cbn [size_deps]. apply elem_of_cons in Hin as [<- | Hin].
    + rewrite Hdep, Hrec. reflexivity.
    + destruct (callGetter W dep') as [d' |]; [| auto].
      destruct (size_rec d'); auto.
Qed.

(** The [size] getter has no guard against a map that star-exports its
    own file: when a star-dependency of [m] answers [m] itself, [size]
    asks [m] for its size again at every depth and never returns. *)
Theorem size_of_self_star_never_returns (m : ExportMap) (dep : Getter)
    (fuel : nat) :
  dep ∈ dependencies m ->
  callGetter W dep = Some m ->
  size W fuel m = None.
Proof.
  intros Hin Hself. induction fuel as [| k IH]; [reflexivity |].
  cbn [size]. unfold size_step.
  apply (size_deps_stuck _ m _ dep Hin Hself IH).
Qed.

(** [has] does not check a re-exported name in the module it comes from:
    it answers true for every name in [reexports], while [get] answers
    [undefined] when no export of the local name exists anywhere along
    the chain behind the re-export, every re-export on that chain
    resolves, and the chain is finite. *)
Theorem has_trusts_reexports (m imported : ExportMap) (n : string)
    (r : Reexport) (fuel : nat) :
  JsMap.has (Some n) (namespace m) = false ->
  JsMap.get n (reexports m) = Some r ->
  callGetImport W r = Some imported ->
  nowhere_exported W imported (local r) ->
  finite_chain W imported (local r) ->
  has W (S fuel) m n = Some true
  /\ exists enough, forall k,
       enough <= k -> get W k m n = Some VUndefined.
Proof.
  intros Hns Hre Himp Hnowhere Hfinite. split.
  - cbn [has]. unfold has_step.
    rewrite Hns, (jsmap_get_has _ _ _ Hre). reflexivity.
  - apply get_undefined_of_absent.
    eapply Absent_reexport; eauto.
    apply absent_of_finite_chain; assumption.
Qed.

(** A re-export under another name is followed to the local name in the
    module it comes from, also when that module is the same file: for
    [export { y as x } from ...], [get('x')] is the metadata of [y] there
    and [hasDeep('x')] reports the two maps. *)
Theorem get_follows_renamed_reexport (m imported : ExportMap) (n : string)
    (r : Reexport) (v : ExportMeta) (fuel : nat) :
  JsMap.has (Some n) (namespace m) = false ->
  JsMap.get n (reexports m) = Some r ->
  callGetImport W r = Some imported ->
  path imported <> path m \/ local r <> n ->
  JsMap.get (Some (local r)) (namespace imported) = Some v ->
  get W (S (S fuel)) m n = Some (VMeta v)
  /\ hasDeep W (S (S fuel)) m n = Some (Deep.mk true [m; imported]).
Proof.
  intros Hns Hre Himp Hguard Hv.
  assert (Hoff : String.eqb (path imported) (path m)
                 && String.eqb (local r) n = false).
  { apply andb_false_iff.
    destruct Hguard as [H | H]; [left | right]; apply String.eqb_neq; exact H. }
  split.
  - cbn [get]. unfold get_step at 1.
    rewrite (jsmap_has_false_get _ _ Hns), Hre, Himp, Hoff.
    unfold get_step. rewrite Hv. reflexivity.
  - cbn [hasDeep]. unfold hasDeep_step at 1.
    rewrite Hns, Hre, Himp, Hoff.
    unfold hasDeep_step. rewrite (jsmap_get_has _ _ _ Hv). reflexivity.
Qed.

Lemma get_deps_first_match (get_rec : ExportMap -> string -> option Value)
    (this inner : ExportMap) (n : string) (pre post : list Getter)
    (dep : Getter) (v : Value) :
  Forall
    (fun d => match callGetter W d with
              | None => True
              | Some im => path im = path this
                           \/ get_rec im n = Some VUndefined
              end) pre ->
  callGetter W dep = Some inner ->
  path inner <> path this ->
  get_rec inner n = Some v ->
  v <> VUndefined ->
  get_deps W get_rec this n (pre ++ dep :: post) = Some v.
Proof.
  intros Hpre Hdep Hpath Hv Hdef.
  induction Hpre as [| d pre' Hd _ IH]; cbn [app get_deps].
  - rewrite Hdep. apply String.eqb_neq in Hpath. rewrite Hpath, Hv.
    destruct v; [reflexivity | reflexivity | contradiction].
  - destruct (callGetter W d) as [im |]; [| exact IH].
    destruct (String.eqb (path im) (path this)) eqn:Heq; [exact IH |].
    destruct Hd as [Hsame | Hundef].
    + apply String.eqb_neq in Heq. contradiction.
    + rewrite Hundef. exact IH.
Qed.

(** Star-dependencies are searched in the order of the [export *]
    statements and the first one that yields a value decides: when the
    dependencies before it answer null, are the same file or yield
    [undefined], [get] returns what that dependency's [get] returns. *)
Theorem get_takes_first_star_match (m inner : ExportMap) (n : string)
    (pre post : list Getter) (dep : Getter) (v : Value) (fuel : nat) :
  JsMap.has (Some n) (namespace m) = false ->
  JsMap.has n (reexports m) = false ->
  is_default n = false ->
  dependencies m = pre ++ dep :: post ->
  Forall
    (fun d => match callGetter W d with
              | None => True
              | Some im => path im = path m
                           \/ get W fuel im n = Some VUndefined
              end) pre ->
  callGetter W dep = Some inner ->
  path inner <> path m ->
  get W fuel inner n = Some v ->
  v <> VUndefined ->
  get W (S fuel) m n = Some v.
Proof.
  intros Hns Hre Hdef Hdeps Hpre Hdep Hpath Hv Hne.
  cbn [get]. unfold get_step.
  rewrite (jsmap_has_false_get _ _ Hns), (jsmap_has_false_get _ _ Hre),
    Hdef, Hdeps.
  cbn [negb]. eapply get_deps_first_match; eauto.
Qed.
End SizeFacts.

Lemma has_false_get_undefined_witness :
  get Fixture.exportMapFor 2 Fixture.b_map "nope" = Some VUndefined.
Proof.
  apply (has_false_get_undefined Fixture.exportMapFor 2 Fixture.b_map "nope").
  vm_compute. reflexivity.
Defined.

Lemma hasDeep_path_shape_witness :
  exists rest,
    [Fixture.d_map; Fixture.a_map] = Fixture.d_map :: rest
    /\ Forall (fun x => exists p, Fixture.exportMapFor p = Some x) rest
    /\ 2 <= 2.
Proof.
  apply (hasDeep_path_shape Fixture.exportMapFor 2 Fixture.d_map "z"
           (Deep.mk false [Fixture.d_map; Fixture.a_map])).
  vm_compute. reflexivity.
Defined.

Lemma forEach_passes_this_witness :
  Forall (fun c => call_map c = Fixture.b_map)
         [mkCall (VMeta emptyMeta) (Some "x") Fixture.b_map].
Proof.
  apply (forEach_passes_this Fixture.exportMapFor 2 Fixture.b_map).
  vm_compute. reflexivity.
Defined.

Lemma forEach_calls_at_most_size_witness :
  exists s, size Fixture.exportMapFor 2 Fixture.b_map = Some s /\ 1 <= s.
Proof.
  apply (forEach_calls_at_most_size Fixture.exportMapFor 2 Fixture.b_map
           [mkCall (VMeta emptyMeta) (Some "x") Fixture.b_map]).
  vm_compute. reflexivity.
Defined.

Lemma size_of_self_star_never_returns_witness :
  size Fixture.exportMapFor 7 Fixture.self_map = None.
Proof.
  apply (size_of_self_star_never_returns Fixture.exportMapFor
           Fixture.self_map "/p/self.ts" 7).
  - cbn. apply list_elem_of_here.
  - vm_compute. reflexivity.
Defined.

Lemma a_chain_nowhere_exported :
  nowhere_exported Fixture.exportMapFor Fixture.a_map "z".
Proof.
  destruct d_chain_next as [_ Ha].
  apply (nowhere_exported_of_invariant _
           (fun x => x = (Fixture.a_map, "z"))).
  - reflexivity.
  - intros u v -> Huv. unfold chain_step in Huv. cbn [fst snd] in Huv.
    rewrite Ha in Huv. inversion Huv.
  - intros m' n' H. inversion H. subst. clear H.
    split; [vm_compute; reflexivity |].
    intros r Hr. vm_compute in Hr. discriminate.
Qed.

Lemma a_chain_finite : finite_chain Fixture.exportMapFor Fixture.a_map "z".
Proof.
  destruct d_chain_next as [_ Ha].
  apply finite_chain_of_next. intros y Hy. rewrite Ha in Hy.
  inversion Hy.
Qed.

Lemma has_trusts_reexports_witness :
  has Fixture.exportMapFor 1 Fixture.d_map "z" = Some true
  /\ exists enough, forall k,
       enough <= k
       -> get Fixture.exportMapFor k Fixture.d_map "z" = Some VUndefined.
Proof.
  apply (has_trusts_reexports Fixture.exportMapFor Fixture.d_map
           Fixture.a_map "z" (mkReexport "z" (Some "/p/a.ts")) 0);
    [vm_compute; reflexivity .. | |].
  - exact a_chain_nowhere_exported.
  - exact a_chain_finite.
Defined.

Lemma get_follows_renamed_reexport_witness :
  get Samples.exportMapFor 2 Samples.alias_map "x" = Some (VMeta emptyMeta)
  /\ hasDeep Samples.exportMapFor 2 Samples.alias_map "x"
     = Some (Deep.mk true [Samples.alias_map; Samples.alias_map]).
Proof.
  apply (get_follows_renamed_reexport Samples.exportMapFor
           Samples.alias_map Samples.alias_map "x"
           (mkReexport "y" (Some "/p/alias.ts")) emptyMeta 0);
    [vm_compute; reflexivity .. | | vm_compute; reflexivity].
  right. discriminate.
Defined.

Lemma get_takes_first_star_match_witness :
  get Samples.exportMapFor 3 Samples.dia_map "x" = Some (VMeta emptyMeta).
Proof.
  apply (get_takes_first_star_match Samples.exportMapFor Samples.dia_map
           Fixture.b_map "x" [] ["/p/bb.ts"] "/p/b.ts"
           (VMeta emptyMeta) 2);
    [vm_compute; reflexivity | vm_compute; reflexivity | reflexivity
    | reflexivity | constructor | vm_compute; reflexivity
    | vm_compute; discriminate | vm_compute; reflexivity | discriminate].
Defined.

(** * Further properties of the builder *)

Lemma jsmap_get_set_eq {K V : Type} `{EqDecision K} (k : K) (v : V)
    (m : list (K * V)) :
  JsMap.get k (JsMap.set k v m) = Some v.
Proof.
  induction m as [| [k' v'] rest IH]; cbn.
  - destruct (decide (k = k)); [reflexivity | contradiction].
  - destruct (decide (k = k')) as [Heq | Hne]; cbn.
    + destruct (decide (k = k)); [reflexivity | contradiction].
    + destruct (decide (k = k')); [contradiction | exact IH].
Qed.

Lemma jsmap_get_set_ne {K V : Type} `{EqDecision K} (k j : K) (v : V)
    (m : list (K * V)) :
  j <> k -> JsMap.get j (JsMap.set k v m) = JsMap.get j m.
Proof.
  intros Hne. induction m as [| [k' v'] rest IH]; cbn.
  - destruct (decide (j = k)); [contradiction | reflexivity].
  - destruct (decide (k = k')) as [Heq | Hne']; cbn.
    + subst k'. destruct (decide (j = k)); [contradiction | reflexivity].
    + destruct (decide (j = k')); [reflexivity | exact IH].
Qed.

Lemma jsmap_has_set {K V : Type} `{EqDecision K} (k j : K) (v : V)
    (m : list (K * V)) :
  JsMap.has j (JsMap.set k v m) = true <-> j = k \/ JsMap.has j m = true.
Proof.
  unfold JsMap.has. destruct (decide (j = k)) as [-> | Hne].
  - rewrite jsmap_get_set_eq. split; auto.
  - rewrite jsmap_get_set_ne by exact Hne.
    split; [auto | intros [H | H]; [contradiction | exact H]].
Qed.

Lemma jsmap_set_Forall {K V : Type} `{EqDecision K} (P : K * V -> Prop)
    (k : K) (v : V) (m : list (K * V)) :
  P (k, v) -> Forall P m -> Forall P (JsMap.set k v m).
Proof.
  intros Hkv. induction 1 as [| [k' v'] rest Hhd Hrest IH]; cbn.
  - repeat constructor. exact Hkv.
  - destruct (decide (k = k')); constructor; auto.
Qed.

Section BuilderMore.
Variable doctrine_parse : string -> option Annotation.
Variable getCommentsBefore : SourceCode -> NodeInfo -> option (list Comment).
Variable captureTomDoc : DocStyleParser.
Variable parser :
  string -> string -> ChildContext -> ParseError + Program * option VisitorKeys.
Variable visit : Program -> option VisitorKeys -> list VisitedNode.
Variable relative : string -> string -> option Settings -> option string.
Variable isEsModuleInterop : ChildContext -> bool.
Variable isUnambiguousModule : Program -> bool.

Abbreviation parse_ :=
  (parse doctrine_parse getCommentsBefore captureTomDoc parser visit
         relative isEsModuleInterop isUnambiguousModule).

(** With esModuleInterop on, a map that [parse] returns with anything in
    its [namespace] has ['default'] in it. *)
Theorem interop_synthesizes_default (p content : string) (c : ChildContext)
    (m : ExportMap) :
  isEsModuleInterop c = true ->
  parse_ p content c = Returned (Some m) ->
  namespace m <> [] ->
  JsMap.has (Some "default") (namespace m) = true.
Proof.
  intros Hinterop. unfold parse. rewrite Hinterop.
  destruct (parser p content c) as [err | [tree keys]].
  { intros Hm. inversion Hm. cbn. contradiction. }
  destruct (visitDynamicImports relative p c (visit tree keys) false _)
    as [[h m2] | e]; [| discriminate].
  destruct (negb (isUnambiguousModule tree) && negb h); [discriminate |].
  intros Hm. inversion Hm as [Hm']. clear Hm Hm'.
  match goal with
  | |- context [walkBody ?a ?b ?c0 ?d ?e ?f ?g ?h0 ?x] =>
      generalize (walkBody a b c0 d e f g h0 x)
  end.
  intros m4 Hne.
  assert (Hns : namespace (if true
                              && (0 <? JsMap.size (namespace m4))%nat
                              && negb (JsMap.has (Some "default")
                                                 (namespace m4))
                           then namespace_set (Some "default") emptyMeta m4
                           else m4) <> [] ->
                JsMap.has (Some "default")
                  (namespace (if true
                                 && (0 <? JsMap.size (namespace m4))%nat
                                 && negb (JsMap.has (Some "default")
                                                    (namespace m4))
                              then namespace_set (Some "default") emptyMeta m4
                              else m4)) = true).
  { cbn [andb].
    destruct (0 <? JsMap.size (namespace m4))%nat eqn:Hsize; cbn [andb].
    - destruct (JsMap.has (Some "default") (namespace m4)) eqn:Hhas;
        cbn [negb]; [auto |].
      intros _. cbn. apply jsmap_has_set. auto.
    - intros Hnil. apply Nat.ltb_ge in Hsize. unfold JsMap.size in Hsize.
      destruct (namespace m4); [contradiction | cbn in Hsize; lia]. }
  destruct (isUnambiguousModule tree); cbn [with_parseGoal namespace] in *;
    auto.
Qed.
End BuilderMore.

Lemma only_namespace_core (m x : ExportMap) :
  only_namespace m x -> core x = core m.
Proof. intros ->. reflexivity. Qed.

Lemma only_namespace_dependencies (m x : ExportMap) :
  only_namespace m x -> dependencies x = dependencies m.
Proof. intros ->. reflexivity. Qed.

Lemma imports_ok_ext (m x : ExportMap) :
  imports x = imports m ->
  dependencies x = dependencies m ->
  imports_ok m -> imports_ok x.
Proof. unfold imports_ok. intros -> ->. auto. Qed.

Lemma jsmap_get_Forall {K V : Type} `{EqDecision K} (P : K * V -> Prop)
    (k : K) (v : V) (m : list (K * V)) :
  Forall P m -> JsMap.get k m = Some v -> P (k, v).
Proof.
  induction 1 as [| [k' v'] rest Hhd _ IH]; cbn; [discriminate |].
  destruct (decide (k = k')) as [-> | Hne]; [| exact IH].
  intros Hv. inversion Hv; subst. exact Hhd.
Qed.

Lemma imports_ok_set (m : ExportMap) (p : string) (e : ImportEntry) :
  getter e = p ->
  declarations e <> [] ->
  imports_ok m ->
  imports_ok (with_imports (JsMap.set p e (imports m)) m).
Proof.
  intros Hg Hd [Himp Hdeps]. split; cbn.
  - apply jsmap_set_Forall; [cbn; auto | exact Himp].
  - eapply Forall_impl; [exact Hdeps |].
    intros g Hhas. apply jsmap_has_set. auto.
Qed.

Section WalkMore.
Variable getCommentsBefore : SourceCode -> NodeInfo -> option (list Comment).
Variable relative : string -> string -> option Settings -> option string.
Variable path_ : string.
Variable context : ChildContext.
Variable source : SourceCode.
Variable docStyleParsers : list DocStyleParser.
Variable isEsModuleInteropTrue : bool.
Variable ast_body : list Statement.

Abbreviation walkStatement_ :=
  (walkStatement getCommentsBefore relative path_ context source
                 docStyleParsers isEsModuleInteropTrue ast_body).

Lemma processDynamicImport_core (source_ : option CallArgument)
    (m : ExportMap) (h : bool) (m' : ExportMap) :
  processDynamicImport relative path_ context source_ m = Returned (h, m') ->
  core m' = core m.
Proof.
  unfold processDynamicImport.
  destruct source_ as [[lit |] |];
    [| intros H; inversion H; reflexivity | discriminate].
  destruct (remotePath relative path_ context (value lit));
    intros H; inversion H; reflexivity.
Qed.

Lemma processDynamicImport_imports_ok (source_ : option CallArgument)
    (m : ExportMap) (h : bool) (m' : ExportMap) :
  processDynamicImport relative path_ context source_ m = Returned (h, m') ->
  imports_ok m -> imports_ok m'.
Proof.
  unfold processDynamicImport.
  destruct source_ as [[lit |] |];
    [| intros H; inversion H; subst; auto | discriminate].
  destruct (remotePath relative path_ context (value lit)) as [p |];
    intros H; inversion H; subst; [| auto].
  apply imports_ok_set; [reflexivity | discriminate].
Qed.

Lemma visitDynamicImports_keeps (P : ExportMap -> Prop)
    (nodes : list VisitedNode) :
  (forall source_ m h m',
      processDynamicImport relative path_ context source_ m
      = Returned (h, m') -> P m -> P m') ->
  forall (h : bool) (m : ExportMap) (h' : bool) (m' : ExportMap),
    visitDynamicImports relative path_ context nodes h m = Returned (h', m') ->
    P m -> P m'.
Proof.
  intros Hstep. induction nodes as [| v rest IH]; intros h m h' m' Hrun Hm.
  - cbn in Hrun. inversion Hrun; subst. exact Hm.
  - destruct v as [source_ | [|] arguments_];
      cbn [visitDynamicImports] in Hrun.
    + destruct (processDynamicImport relative path_ context (Some source_) m)
        as [[h1 m1] | e] eqn:Hp; [| discriminate].
      eapply IH; [exact Hrun |]. eapply Hstep; eauto.
    + destruct (processDynamicImport relative path_ context
                  (head arguments_) m)
        as [[h1 m1] | e] eqn:Hp; [| discriminate].
      eapply IH; [exact Hrun |]. eapply Hstep; eauto.
    + eauto.
Qed.

Lemma captureDependency_core (src : option Literal) (onlyTypes : bool)
    (specifierSet : list string) (m : ExportMap) :
  core (fst (captureDependency relative path_ context src onlyTypes
                               specifierSet m))
  = core m.
Proof.
  unfold captureDependency. destruct src as [s |]; [| reflexivity].
  destruct (remotePath relative path_ context (value s)); [| reflexivity].
  destruct (JsMap.get _ (imports m)); reflexivity.
Qed.

Lemma captureDependency_dependencies (src : option Literal)
    (onlyTypes : bool) (specifierSet : list string) (m : ExportMap) :
  dependencies (fst (captureDependency relative path_ context src onlyTypes
                                       specifierSet m))
  = dependencies m.
Proof.
  unfold captureDependency. destruct src as [s |]; [| reflexivity].
  destruct (remotePath relative path_ context (value s)); [| reflexivity].
  destruct (JsMap.get _ (imports m)); reflexivity.
Qed.

Lemma captureDependency_imports_ok (src : option Literal) (onlyTypes : bool)
    (specifierSet : list string) (m : ExportMap) :
  imports_ok m ->
  let captured :=
    captureDependency relative path_ context src onlyTypes specifierSet m in
  imports_ok (fst captured)
  /\ forall g, snd captured = Some g
               -> JsMap.has g (imports (fst captured)) = true.
Proof.
  intros Hok. unfold captureDependency.
  destruct src as [s |]; [| split; [exact Hok | discriminate]].
  destruct (remotePath relative path_ context (value s)) as [p |];
    [| split; [exact Hok | discriminate]].
  destruct (JsMap.get p (imports m)) as [existing |] eqn:Hget; cbn [fst snd].
  - pose proof (jsmap_get_Forall _ _ _ _ (proj1 Hok) Hget) as [Hg _].
    cbn in Hg. split.
    + apply imports_ok_set; [exact Hg | | exact Hok].
      destruct (declarations existing); discriminate.
    + intros g Heq. inversion Heq as [Hh]. cbn.
      apply jsmap_has_set. left. exact Hg.
  - split.
    + apply imports_ok_set; [reflexivity | discriminate | exact Hok].
    + intros g Heq. inversion Heq; subst. cbn.
      apply jsmap_has_set. left. reflexivity.
Qed.

Lemma processSpecifier_core (nss : list (string * string))
    (s : Specifier) (src : option Literal) (m : ExportMap) :
  core (processSpecifier relative path_ context nss s src m) = core m.
Proof.
  unfold processSpecifier. destruct s; try reflexivity.
  - destruct src; reflexivity.
  - destruct (option_map value src); [| reflexivity].
    destruct (truthy _); reflexivity.
Qed.

Lemma processSpecifier_imports_ok (nss : list (string * string))
    (s : Specifier) (src : option Literal) (m : ExportMap) :
  imports_ok m ->
  imports_ok (processSpecifier relative path_ context nss s src m).
Proof.
  intros Hok. unfold processSpecifier.
  assert (Hext : forall x, imports x = imports m ->
                           dependencies x = dependencies m -> imports_ok x).
  { intros x Hi Hd. eapply imports_ok_ext; eauto. }
  destruct s; try exact Hok.
  - destruct src; apply Hext; reflexivity.
  - destruct (option_map value src); [| exact Hok].
    destruct (truthy _); [apply Hext; reflexivity | exact Hok].
Qed.

Lemma set_add_Forall (P : string -> Prop) (g : string) (l : list string) :
  P g -> Forall P l -> Forall P (set_add g l).
Proof.
  intros Hg Hl. unfold set_add. destruct (bool_decide (g ∈ l)); [exact Hl |].
  apply Forall_app. split; [exact Hl | repeat constructor; exact Hg].
Qed.

Lemma walkStatement_core (w : Walk) (n : Statement) :
  core (walk_map (walkStatement_ w n)) = core (walk_map w).
Proof.
  assert (Hassign : forall n0,
    core (walk_map
            (if isExportAssignment isEsModuleInteropTrue n0
             then mkWalk
                    (captureExportAssignment getCommentsBefore source
                       docStyleParsers isEsModuleInteropTrue ast_body n0
                       (walk_map w))
                    (namespaces w)
             else w))
    = core (walk_map w)).
  { intros n0. destruct (isExportAssignment isEsModuleInteropTrue n0);
      [| reflexivity].
    cbn [walk_map]. apply only_namespace_core,
                      captureExportAssignment_only_namespace. }
  destruct n; cbn [walkStatement]; try apply Hassign.
  - reflexivity.
  - set (captured := captureDependency _ _ _ _ _ _ _).
    assert (Hc : core (fst captured) = core (walk_map w))
      by apply captureDependency_core.
    destruct (snd captured), exported; cbn [walk_map]; exact Hc.
  - unfold captureDependencyWithSpecifiers.
    destruct (List.find _ specifiers) as [[] |]; cbn [walk_map];
      apply captureDependency_core.
  - cbn [walk_map].
    apply (fold_left_invariant _ (fun x => core x = core (walk_map w))).
    + intros x s Hx. rewrite processSpecifier_core. exact Hx.
    + rewrite (only_namespace_core _ _
                 (captureDeclaration_only_namespace _ _ _ _ _ _)).
      apply captureDependency_core.
Qed.

Lemma walkStatement_imports_ok (w : Walk) (n : Statement) :
  imports_ok (walk_map w) -> imports_ok (walk_map (walkStatement_ w n)).
Proof.
  intros Hok.
  assert (Hassign : forall n0,
    imports_ok
      (walk_map
         (if isExportAssignment isEsModuleInteropTrue n0
          then mkWalk
                 (captureExportAssignment getCommentsBefore source
                    docStyleParsers isEsModuleInteropTrue ast_body n0
                    (walk_map w))
                 (namespaces w)
          else w))).
  { intros n0. destruct (isExportAssignment isEsModuleInteropTrue n0);
      [| exact Hok].
    cbn [walk_map].
    pose proof (captureExportAssignment_only_namespace getCommentsBefore
                  source docStyleParsers isEsModuleInteropTrue ast_body n0
                  (walk_map w)) as Hon.
    eapply imports_ok_ext; [| | exact Hok].
    - apply only_namespace_imports. exact Hon.
    - apply only_namespace_dependencies. exact Hon. }
  destruct n; cbn [walkStatement]; try apply Hassign.
  - eapply imports_ok_ext; [| | exact Hok]; reflexivity.
  - pose proof (captureDependency_imports_ok (Some source0)
                  (match exportKind with KindType => true | _ => false end)
                  [] (walk_map w) Hok) as [Hok1 Hg].
    pose proof (captureDependency_dependencies (Some source0)
                  (match exportKind with KindType => true | _ => false end)
                  [] (walk_map w)) as Hdeps.
    set (captured := captureDependency _ _ _ _ _ _ _) in *.
    assert (Hok2 : imports_ok
                     match snd captured with
                     | Some g =>
                         with_dependencies
                           (set_add g (dependencies (fst captured)))
                           (fst captured)
                     | None => fst captured
                     end).
    { destruct (snd captured) as [g |]; [| exact Hok1].
      split; cbn; [exact (proj1 Hok1) |].
      apply set_add_Forall; [auto | exact (proj2 Hok1)]. }
    destruct exported; cbn [walk_map]; [| exact Hok2].
    eapply imports_ok_ext; [| | exact Hok2]; reflexivity.
  - unfold captureDependencyWithSpecifiers.
    destruct (List.find _ specifiers) as [[] |]; cbn [walk_map];
      apply captureDependency_imports_ok; exact Hok.
  - cbn [walk_map]. apply fold_left_invariant.
    + intros x s Hx. apply processSpecifier_imports_ok. exact Hx.
    + pose proof (captureDeclaration_only_namespace getCommentsBefore
                    source docStyleParsers node declaration
                    (fst (captureDependencyWithSpecifiers relative path_
                            context source0 importKind specifiers
                            (walk_map w)))) as Hon.
      eapply imports_ok_ext.
      * apply only_namespace_imports. exact Hon.
      * apply only_namespace_dependencies. exact Hon.
      * apply captureDependency_imports_ok. exact Hok.
Qed.

Lemma walk_keeps (P : ExportMap -> Prop) (stmts : list Statement) :
  (forall w n, P (walk_map w) -> P (walk_map (walkStatement_ w n))) ->
  forall w, P (walk_map w) ->
            P (walk_map (fold_left walkStatement_ stmts w)).
Proof.
  intros Hstep. induction stmts as [| n rest IH]; intros w Hw; [exact Hw |].
  cbn [fold_left]. apply IH, Hstep, Hw.
Qed.
End WalkMore.

Lemma core_fields (x y : ExportMap) :
  core x = core y ->
  path x = path y /\ errors x = errors y /\ parseGoal x = parseGoal y
  /\ visitorKeys x = visitorKeys y /\ mtime x = mtime y /\ doc x = doc y.
Proof. unfold core. intros H. inversion H. auto 7. Qed.

Lemma set_add_elem (g : string) (l : list string) : g ∈ set_add g l.
Proof.
  unfold set_add. destruct (bool_decide (g ∈ l)) eqn:Hin.
  - apply bool_decide_eq_true in Hin. exact Hin.
  - apply elem_of_app. right. apply list_elem_of_here.
Qed.

Section ParseMore.
Variable doctrine_parse : string -> option Annotation.
Variable getCommentsBefore : SourceCode -> NodeInfo -> option (list Comment).
Variable captureTomDoc : DocStyleParser.
Variable parser :
  string -> string -> ChildContext -> ParseError + Program * option VisitorKeys.
Variable visit : Program -> option VisitorKeys -> list VisitedNode.
Variable relative : string -> string -> option Settings -> option string.
Variable isEsModuleInterop : ChildContext -> bool.
Variable isUnambiguousModule : Program -> bool.

Abbreviation parse_ :=
  (parse doctrine_parse getCommentsBefore captureTomDoc parser visit
         relative isEsModuleInterop isUnambiguousModule).

Lemma parse_tree_core (p content : string) (c : ChildContext)
    (m : ExportMap) (tree : Program) (keys : option VisitorKeys) :
  parser p content c = inr (tree, keys) ->
  parse_ p content c = Returned (Some m) ->
  path m = p /\ mtime m = None /\ errors m = [] /\ visitorKeys m = keys.
Proof.
  intros Hparser. unfold parse. rewrite Hparser.
  destruct (visitDynamicImports relative p c (visit tree keys) false _)
    as [[h m2] | e] eqn:Hvisit; [| discriminate].
  apply (visitDynamicImports_keeps relative p c
           (fun x => core x = core (with_visitorKeys keys (newExportMap p))))
    in Hvisit; [| | reflexivity].
  2:{ intros source_ x h0 x' Hp Hx. rewrite <- Hx.
      eapply processDynamicImport_core. exact Hp. }
  destruct (negb (isUnambiguousModule tree) && negb h); [discriminate |].
  intros Hm. inversion Hm as [Hm']. clear Hm.
  match goal with
  | |- context [walkBody _ _ _ _ _ _ _ _ ?m3] =>
      assert (Hm3 : path m3 = p /\ errors m3 = [] /\ visitorKeys m3 = keys
                    /\ mtime m3 = None)
        by (apply core_fields in Hvisit;
            destruct Hvisit as [H1 [H2 [_ [H4 [H5 _]]]]];
            destruct (comments tree) as [cs |];
            [destruct (moduleDoc doctrine_parse cs) |]; cbn; auto);
      pose proof (walk_keeps getCommentsBefore relative p c
                    (mkSourceCode content tree)
                    (map (availableDocStyleParsers doctrine_parse
                            captureTomDoc)
                         (styleKeys (docStylesOf c)))
                    (isEsModuleInterop c) (body tree)
                    (fun x => core x = core m3) (body tree)
                    (fun w n Hw =>
                       eq_trans (walkStatement_core _ _ _ _ _ _ _ _ w n) Hw)
                    (mkWalk m3 []) eq_refl) as Hwalk
  end.
  apply core_fields in Hwalk.
  destruct Hwalk as [W1 [W2 [_ [W4 [W5 _]]]]].
  destruct Hm3 as [H1 [H2 [H4 H5]]].
  cbn [walk_map] in W1, W2, W4, W5.
  unfold walkBody in *.
  destruct (isUnambiguousModule tree);
    match goal with
    | |- context [if ?cond then namespace_set _ _ _ else _] => destruct cond
    end; cbn [with_parseGoal namespace_set with_namespace path mtime errors
              visitorKeys];
    repeat split; congruence.
Qed.

Lemma parse_tree_imports_ok (p content : string) (c : ChildContext)
    (m : ExportMap) (tree : Program) (keys : option VisitorKeys) :
  parser p content c = inr (tree, keys) ->
  parse_ p content c = Returned (Some m) ->
  imports_ok m.
Proof.
  intros Hparser. unfold parse. rewrite Hparser.
  destruct (visitDynamicImports relative p c (visit tree keys) false _)
    as [[h m2] | e] eqn:Hvisit; [| discriminate].
  apply (visitDynamicImports_keeps relative p c imports_ok) in Hvisit;
    [| | split; constructor].
  2:{ intros source_ x h0 x' Hp Hx.
      eapply processDynamicImport_imports_ok; eauto. }
  destruct (negb (isUnambiguousModule tree) && negb h); [discriminate |].
  intros Hm. inversion Hm as [Hm']. clear Hm Hm'.
  match goal with
  | |- context [walkBody _ _ _ _ _ _ _ _ ?m3] =>
      assert (Hm3 : imports_ok m3)
        by (destruct (comments tree) as [cs |];
            [destruct (moduleDoc doctrine_parse cs) |];
            first [exact Hvisit
                  | eapply imports_ok_ext; [| | exact Hvisit]; reflexivity]);
      pose proof (walk_keeps getCommentsBefore relative p c
                    (mkSourceCode content tree)
                    (map (availableDocStyleParsers doctrine_parse
                            captureTomDoc)
                         (styleKeys (docStylesOf c)))
                    (isEsModuleInterop c) (body tree)
                    imports_ok (body tree)
                    (walkStatement_imports_ok _ _ _ _ _ _ _ _)
                    (mkWalk m3 []) Hm3) as Hwalk
  end.
  unfold walkBody.
  destruct (isUnambiguousModule tree);
    match goal with
    | |- context [if ?cond then namespace_set _ _ _ else _] => destruct cond
    end;
    first [exact Hwalk
          | eapply imports_ok_ext; [| | exact Hwalk]; reflexivity].
Qed.

Lemma parse_of_parser_error (p content : string) (c : ChildContext)
    (m : ExportMap) (err : ParseError) :
  parser p content c = inl err ->
  parse_ p content c = Returned (Some m) ->
  m = with_errors [err] (newExportMap p).
Proof.
  intros Hparser. unfold parse. rewrite Hparser.
  intros Hm. inversion Hm. reflexivity.
Qed.

(** What the cache relies on in a map that [parse] returns. *)
Lemma parse_result_ok (p content : string) (c : ChildContext)
    (m : ExportMap) :
  parse_ p content c = Returned (Some m) ->
  path m = p /\ parseGoal m <> Script /\ imports_ok m.
Proof.
  intros Hm. pose proof (parse_parseGoal _ _ _ _ _ _ _ _ _ _ _ _ Hm) as Hgoal.
  destruct (parser p content c) as [err | [tree keys]] eqn:Hparser.
  - rewrite (parse_of_parser_error _ _ _ _ _ Hparser Hm).
    split; [reflexivity |]. split; [discriminate |]. split; constructor.
  - destruct (parse_tree_core _ _ _ _ _ _ Hparser Hm) as [Hpath _].
    split; [exact Hpath |].
    split; [| exact (parse_tree_imports_ok _ _ _ _ _ _ Hparser Hm)].
    rewrite Hgoal. destruct (isUnambiguousModule tree); discriminate.
Qed.

(** Whatever [parse] finds in the body, it hands back a map for the path
    it was given, without a modification time, never classified as a
    script, with the parser's error as the only error when the parser
    threw, and with no error and the parser's visitor keys otherwise. *)
Theorem parse_returns_map_of_its_path (p content : string)
    (c : ChildContext) (m : ExportMap) :
  parse_ p content c = Returned (Some m) ->
  path m = p
  /\ mtime m = None
  /\ parseGoal m <> Script
  /\ match parser p content c with
     | inl err => errors m = [err] /\ visitorKeys m = None
     | inr (_, keys) => errors m = [] /\ visitorKeys m = keys
     end.
Proof.
  intros Hm. pose proof (parse_parseGoal _ _ _ _ _ _ _ _ _ _ _ _ Hm) as Hgoal.
  destruct (parser p content c) as [err | [tree keys]] eqn:Hparser.
  - rewrite (parse_of_parser_error _ _ _ _ _ Hparser Hm). cbn.
    repeat split. discriminate.
  - destruct (parse_tree_core _ _ _ _ _ _ Hparser Hm)
      as [Hpath [Hmtime [Herrors Hkeys]]].
    repeat split; try assumption.
    rewrite Hgoal. destruct (isUnambiguousModule tree); discriminate.
Qed.

(** In a map that [parse] returns, every entry of [imports] has a getter
    for its own key and at least one declaration, and every
    star-dependency is the getter of an entry of [imports]. *)
Theorem parse_imports_are_well_formed (p content : string)
    (c : ChildContext) (m : ExportMap) :
  parse_ p content c = Returned (Some m) ->
  imports_ok m.
Proof.
  intros Hm.
  destruct (parser p content c) as [err | [tree keys]] eqn:Hparser.
  - rewrite (parse_of_parser_error _ _ _ _ _ Hparser Hm).
    split; constructor.
  - eapply parse_tree_imports_ok; eauto.
Qed.
End ParseMore.

Lemma jsmap_set_size_of_present {K V : Type} `{EqDecision K} (k : K)
    (v : V) (m : list (K * V)) :
  JsMap.has k m = true ->
  JsMap.size (JsMap.set k v m) = JsMap.size m.
Proof.
  unfold JsMap.has, JsMap.size.
  induction m as [| [k' v'] rest IH]; cbn; [discriminate |].
  destruct (decide (k = k')); cbn; [reflexivity |].
  intros Hhas. f_equal. apply IH. exact Hhas.
Qed.

Section ImportsMore.
Variable getCommentsBefore : SourceCode -> NodeInfo -> option (list Comment).
Variable relative : string -> string -> option Settings -> option string.
Variable path_ : string.
Variable context : ChildContext.
Variable source : SourceCode.
Variable docStyleParsers : list DocStyleParser.
Variable isEsModuleInteropTrue : bool.
Variable ast_body : list Statement.

(** A static import or re-export of a file that [imports] already holds
    keeps the entry's getter, returns it, and appends its declaration to
    the entry's declarations without adding an entry; a dynamic import of
    a file replaces the whole entry by one with this single declaration. *)
Theorem static_import_appends_dynamic_import_replaces (src lit : Literal)
    (onlyTypes : bool) (specifierSet : list string) (m : ExportMap)
    (p q : string) (existing : ImportEntry) :
  remotePath relative path_ context (value src) = Some p ->
  JsMap.get p (imports m) = Some existing ->
  remotePath relative path_ context (value lit) = Some q ->
  (let captured :=
     captureDependency relative path_ context (Some src) onlyTypes
                       specifierSet m in
   snd captured = Some (getter existing)
   /\ JsMap.get p (imports (fst captured))
      = Some (mkImport (getter existing)
                (declarations existing
                 ++ [mkDecl (value src) (loc src) specifierSet None
                            (Some onlyTypes)]))
   /\ JsMap.size (imports (fst captured)) = JsMap.size (imports m))
  /\ exists m',
       processDynamicImport relative path_ context
                            (Some (LiteralArgument lit)) m
       = Returned (true, m')
       /\ JsMap.get q (imports m')
          = Some (mkImport (thunkFor q)
                    [mkDecl (value lit) (loc lit)
                            ["ImportNamespaceSpecifier"] (Some true) None]).
Proof.
  intros Hp Hget Hq. split.
  - unfold captureDependency. rewrite Hp, Hget. cbn [fst snd imports].
    split; [reflexivity |]. split.
    + cbn. apply jsmap_get_set_eq.
    + cbn. apply jsmap_set_size_of_present.
      eapply jsmap_get_has. exact Hget.
  - unfold processDynamicImport. rewrite Hq.
    eexists. split; [reflexivity |]. cbn. apply jsmap_get_set_eq.
Qed.

(** [export * as ns from './x'] of a resolvable file, met in a map that
    satisfies [imports_ok], leaves the name [ns] in [namespace] with
    empty metadata and no namespace getter, and makes the file both a
    star-dependency and an entry of [imports]. *)
Theorem named_star_export_is_also_a_dependency (w : Walk) (node : NodeInfo)
    (src : Literal) (exportKind : ImportKind) (name p : string) :
  imports_ok (walk_map w) ->
  remotePath relative path_ context (value src) = Some p ->
  let w' :=
    walkStatement getCommentsBefore relative path_ context source
      docStyleParsers isEsModuleInteropTrue ast_body w
      (ExportAllDeclaration node src exportKind (Some name)) in
  JsMap.get (Some name) (namespace (walk_map w')) = Some emptyMeta
  /\ p ∈ dependencies (walk_map w')
  /\ JsMap.has p (imports (walk_map w')) = true.
Proof.
  intros Hok Hp. cbn [walkStatement].
  unfold captureDependency. rewrite Hp.
  destruct (JsMap.get p (imports (walk_map w))) as [existing |] eqn:Hget;
    cbn [fst snd walk_map].
  - pose proof (jsmap_get_Forall _ _ _ _ (proj1 Hok) Hget) as [Hg _].
    cbn in Hg. rewrite Hg. split; [apply jsmap_get_set_eq |].
    split; [apply set_add_elem |].
    cbn. unfold JsMap.has. rewrite jsmap_get_set_eq. reflexivity.
  - split; [apply jsmap_get_set_eq |].
    split; [apply set_add_elem |].
    cbn. unfold JsMap.has. rewrite jsmap_get_set_eq. reflexivity.
Qed.
End ImportsMore.

Lemma interop_synthesizes_default_witness :
  JsMap.has (Some "default") (namespace Samples.alias_interop) = true.
Proof.
  apply (interop_synthesizes_default Fixture.doctrine_parse
           Fixture.getCommentsBefore Fixture.captureTomDoc Samples.parser
           Fixture.visit Samples.relative Samples.interop
           Fixture.isUnambiguousModule
           "/p/alias.ts" "" (Fixture.context "/p/alias.ts")
           Samples.alias_interop);
    [reflexivity | vm_compute; reflexivity | discriminate].
Defined.

Lemma parse_returns_map_of_its_path_witness :
  path Samples.both_parsed = "/p/both.ts"
  /\ mtime Samples.both_parsed = None
  /\ parseGoal Samples.both_parsed <> Script
  /\ errors Samples.both_parsed = []
  /\ visitorKeys Samples.both_parsed = None.
Proof.
  exact (parse_returns_map_of_its_path Fixture.doctrine_parse
           Fixture.getCommentsBefore Fixture.captureTomDoc Samples.parser
           Fixture.visit Samples.relative Fixture.isEsModuleInterop
           Fixture.isUnambiguousModule
           "/p/both.ts" "" (Fixture.context "/p/both.ts")
           Samples.both_parsed eq_refl).
Defined.

Lemma parse_imports_are_well_formed_witness :
  imports_ok Samples.both_parsed.
Proof.
  exact (parse_imports_are_well_formed Fixture.doctrine_parse
           Fixture.getCommentsBefore Fixture.captureTomDoc Samples.parser
           Fixture.visit Samples.relative Fixture.isEsModuleInterop
           Fixture.isUnambiguousModule
           "/p/both.ts" "" (Fixture.context "/p/both.ts")
           Samples.both_parsed eq_refl).
Defined.

Lemma static_import_appends_dynamic_import_replaces_witness :
  JsMap.size
    (imports
       (fst (captureDependency Samples.relative "/p/both.ts"
               (Fixture.context "/p/both.ts") (Some Samples.a_literal)
               false [] Samples.both_map)))
  = JsMap.size (imports Samples.both_map).
Proof.
  destruct (static_import_appends_dynamic_import_replaces
              Samples.relative "/p/both.ts" (Fixture.context "/p/both.ts")
              Samples.a_literal Samples.a_literal false []
              Samples.both_map "/p/a.ts" "/p/a.ts" Samples.a_entry)
    as [[_ [_ Hsize]] _]; [reflexivity .. |].
  exact Hsize.
Defined.

Lemma named_star_export_is_also_a_dependency_witness :
  "/p/a.ts"
  ∈ dependencies
      (walk_map
         (walkStatement Fixture.getCommentsBefore Samples.relative
            "/p/ns.ts" (Fixture.context "/p/ns.ts") Fixture.source0 []
            false []
            (mkWalk (newExportMap "/p/ns.ts") [])
            (ExportAllDeclaration Fixture.node0 Samples.a_literal
               KindValue (Some "ns")))).
Proof.
  destruct (named_star_export_is_also_a_dependency
              Fixture.getCommentsBefore Samples.relative
              "/p/ns.ts" (Fixture.context "/p/ns.ts") Fixture.source0 []
              false []
              (mkWalk (newExportMap "/p/ns.ts") []) Fixture.node0
              Samples.a_literal KindValue "ns" "/p/a.ts")
    as [_ [Hdep _]];
    [split; constructor | reflexivity |].
  exact Hdep.
Defined.

(** ** Patterns and documentation *)

Lemma Pattern_nested_ind (P : Pattern -> Prop) :
  (forall name, P (Identifier name)) ->
  (forall properties, Forall P properties -> P (ObjectPattern properties)) ->
  (forall elements,
      Forall (fun e => match e with Some q => P q | None => True end)
             elements ->
      P (ArrayPattern elements)) ->
  (forall lhs, P lhs -> P (AssignmentPattern lhs)) ->
  (forall argument, P argument -> P (RestElement argument)) ->
  (forall v, P v -> P (Property v)) ->
  P OtherPattern ->
  forall p, P p.
Proof.
  intros HId HObj HArr HAsg HRest HProp HOther.
  fix IH 1. intros [name | properties | elements | lhs | argument | v |].
  - apply HId.
  - apply HObj. induction properties as [| q rest IHrest];
      constructor; [apply IH | exact IHrest].
  - apply HArr. induction elements as [| [q |] rest IHrest];
      constructor; [apply IH | exact IHrest | exact I | exact IHrest].
  - apply HAsg, IH.
  - apply HRest, IH.
  - apply HProp, IH.
  - apply HOther.
Qed.

Lemma Forall_flat_map {A B : Type} (P : B -> Prop) (f : A -> list B)
    (l : list A) :
  Forall P (flat_map f l) <-> Forall (fun a => Forall P (f a)) l.
Proof.
  induction l as [| a rest IH]; cbn.
  - split; constructor.
  - rewrite Forall_app, IH, Forall_cons. reflexivity.
Qed.

Lemma identifiers_iff_simple_nested (p : Pattern) :
  identifiers_iff_simple p
  /\ match p with
     | Property v => identifiers_iff_simple v
     | _ => True
     end.
Proof.
  unfold identifiers_iff_simple.
  induction p as [name | properties IH | elements IH | lhs _ | argument _
                  | v [IHv _] |] using Pattern_nested_ind.
  - cbn. split; [| exact I]. split; [| reflexivity].
    intros _. constructor; [| constructor]. discriminate.
  - split; [| exact I].
    cbn [simpleBinders recursivePatternCapture].
    rewrite Forall_flat_map, forallb_forall, Forall_forall.
    rewrite Forall_forall in IH.
    split; intros H q Hq.
    + pose proof (H q (proj1 (list_elem_of_In _ _) Hq)) as Hs.
      destruct q as [| | | | a | v |]; try constructor.
      * destruct a; discriminate.
      * constructor.
      * apply (proj2 (IH (Property v) Hq)) in Hs. exact Hs.
    + apply list_elem_of_In in Hq. pose proof (H q Hq) as Hs.
      destruct q as [| | | | a | v |]; try reflexivity.
      * inversion Hs as [| ? ? Ha _]; subst.
        destruct a; try reflexivity; cbn in Ha; contradiction.
      * apply (proj2 (IH (Property v) Hq)). exact Hs.
  - split; [| exact I].
    cbn [simpleBinders recursivePatternCapture].
    rewrite Forall_flat_map, forallb_forall, Forall_forall.
    rewrite Forall_forall in IH.
    split; intros H e He.
    + pose proof (H e (proj1 (list_elem_of_In _ _) He)) as Hs.
      specialize (IH e He).
      destruct e as [q |]; [| constructor].
      destruct IH as [IH _].
      destruct q as [| | | | a | |];
        try (apply IH; exact Hs).
      destruct a; try discriminate. constructor; [discriminate | constructor].
    + apply list_elem_of_In in He. pose proof (H e He) as Hs.
      specialize (IH e He).
      destruct e as [q |]; [| reflexivity].
      destruct IH as [IH _].
      destruct q as [| | | | a | |];
        try (apply IH; exact Hs).
      inversion Hs as [| ? ? Ha _]; subst.
      destruct a; try reflexivity; cbn in Ha; contradiction.
  - split; [| exact I].
    cbn. destruct lhs; split; intros H; try reflexivity; try discriminate;
      try (constructor; [discriminate | constructor]);
      inversion H as [| ? ? Ha _]; cbn in Ha; contradiction.
  - cbn. split; [| exact I]. split; [constructor | reflexivity].
  - split; [| exact IHv]. cbn. split; [constructor | reflexivity].
  - cbn. split; [| exact I]. split; [constructor | reflexivity].
Qed.

(** Every node that [recursivePatternCapture] hands to its callback is an
    identifier, so that [id.name] is a string, exactly when every rest
    argument and every left-hand side of a default value in the pattern
    is an identifier. *)
Theorem recursivePatternCapture_identifiers_only (p : Pattern) :
  simpleBinders p = true
  <-> Forall (fun q => nameOf q <> None) (recursivePatternCapture p).
Proof. exact (proj1 (identifiers_iff_simple_nested p)). Qed.

Lemma recursivePatternCapture_identifiers_only_witness :
  Forall (fun q => nameOf q <> None)
         (recursivePatternCapture
            (ObjectPattern
               [Property (Identifier "a");
                Property (ArrayPattern [None; Some (Identifier "b")]);
                RestElement (Identifier "rest")])).
Proof.
  apply (proj1 (recursivePatternCapture_identifiers_only _)). reflexivity.
Defined.

Section DocMore.
Variable doctrine_parse : string -> option Annotation.
Variable captureTomDoc : DocStyleParser.

(** The module doc is the doc of the first block comment that doctrine
    parses with a [module] tag: the comments after it are not looked at
    (where [captureJsDoc] keeps the last block comment that parses). *)
Theorem moduleDoc_first_match_wins (before after : list Comment)
    (v : string) (d : Annotation) :
  forallb (notModuleDoc doctrine_parse) before = true ->
  doctrine_parse v = Some d ->
  existsb (fun t => String.eqb (title t) "module") (tags d) = true ->
  moduleDoc doctrine_parse (before ++ mkComment Block v :: after) = Some d.
Proof.
  intros Hbefore Hv Htag.
  induction before as [| c rest IH]; cbn [app moduleDoc].
  - cbn. rewrite Hv, Htag. reflexivity.
  - cbn in Hbefore. apply andb_true_iff in Hbefore as [Hc Hrest].
    unfold notModuleDoc in Hc.
    destruct (comment_type c); auto.
    destruct (doctrine_parse (comment_value c)) as [parsed |]; auto.
    apply negb_true_iff in Hc. rewrite Hc. auto.
Qed.

Lemma styleKeys_fold_first (s : DocStyle) (styles : list DocStyle)
    (keys1 keys2 : list DocStyle) :
  keys1 = s :: filter (fun t => t <> s) keys2 ->
  fold_left
    (fun keys style =>
       if bool_decide (style ∈ keys) then keys else keys ++ [style])
    styles keys1
  = s :: filter (fun t => t <> s)
           (fold_left
              (fun keys style =>
                 if bool_decide (style ∈ keys) then keys
                 else keys ++ [style])
              styles keys2).
Proof.
  revert keys1 keys2.
  induction styles as [| t rest IH]; intros keys1 keys2 Hkeys;
    cbn [fold_left]; [exact Hkeys |].
  apply IH. subst keys1.
  destruct (decide (t = s)) as [-> | Hne].
  - rewrite bool_decide_eq_true_2 by apply list_elem_of_here.
    destruct (bool_decide (s ∈ keys2)); [reflexivity |].
    rewrite filter_app, filter_cons_False, filter_nil, app_nil_r;
      [reflexivity | tauto].
  - destruct (bool_decide (t ∈ keys2)) eqn:Hin.
    + apply bool_decide_eq_true in Hin.
      rewrite bool_decide_eq_true_2; [reflexivity |].
      apply list_elem_of_further, list_elem_of_filter. auto.
    + apply bool_decide_eq_false in Hin.
      rewrite bool_decide_eq_false_2.
      * rewrite filter_app, filter_cons_True, filter_nil by exact Hne.
        reflexivity.
      * intros Hin'. apply elem_of_cons in Hin' as [Heq | Hin'];
          [contradiction |].
        apply list_elem_of_filter in Hin' as [_ Hin']. contradiction.
Qed.

(** The doc-style parsers run in the order in which the [docstyle]
    setting first names their styles, each style once: the style named
    first comes first, and after it come the keys of the rest of the
    setting without that style. *)
Theorem doc_styles_run_in_order_of_first_mention (s : DocStyle)
    (styles : list DocStyle) :
  styleKeys [] = []
  /\ styleKeys (s :: styles)
     = s :: filter (fun t => t <> s) (styleKeys styles).
Proof.
  split; [reflexivity |].
  unfold styleKeys. cbn [fold_left].
  rewrite bool_decide_eq_false_2 by (intros H; inversion H).
  apply styleKeys_fold_first. reflexivity.
Qed.

(** When several doc-style parsers run on the leading comments of a
    node, the doc attached is that of the last parser that yields one,
    whatever the parsers before it found. *)
Theorem last_yielding_doc_parser_wins
    (before after : list DocStyleParser) (parser : DocStyleParser)
    (leading : list Comment) (doc0 : option Annotation) (d : Annotation) :
  parser leading = Some d ->
  Forall (fun q => q leading = None) after ->
  applyParsers (before ++ parser :: after) leading doc0 = Some d.
Proof.
  intros Hp Hafter. unfold applyParsers. rewrite fold_left_app. cbn.
  rewrite Hp. clear Hp.
  induction Hafter as [| q rest Hq _ IH]; cbn; [reflexivity |].
  rewrite Hq. exact IH.
Qed.
End DocMore.

Lemma moduleDoc_first_match_wins_witness :
  moduleDoc Samples.doctrine_tags
    ([mkComment Line "@module m"; mkComment Block "first"]
     ++ mkComment Block "@module m" :: [mkComment Block "second"])
  = Some Samples.module_doc.
Proof.
  apply moduleDoc_first_match_wins; reflexivity.
Defined.

Lemma last_yielding_doc_parser_wins_witness :
  applyParsers
    ([captureJsDoc Fixture.doctrine_parse]
     ++ captureJsDoc Fixture.doctrine_parse :: [fun _ => None])
    Fixture.two_blocks None
  = captureJsDoc Fixture.doctrine_parse Fixture.two_blocks.
Proof.
  apply last_yielding_doc_parser_wins;
    [reflexivity | constructor; [reflexivity | constructor]].
Defined.

(** ** More on the resolution cache *)

Ltac absent_event :=
  let H := fresh "Hin" in
  intros H;
  repeat (apply elem_of_cons in H as [H | H]; [discriminate H |]);
  inversion H.

Section CacheMore.
Variable doctrine_parse : string -> option Annotation.
Variable getCommentsBefore : SourceCode -> NodeInfo -> option (list Comment).
Variable captureTomDoc : DocStyleParser.
Variable parser :
  string -> string -> ChildContext -> ParseError + Program * option VisitorKeys.
Variable visit : Program -> option VisitorKeys -> list VisitedNode.
Variable relative : string -> string -> option Settings -> option string.
Variable isEsModuleInterop : ChildContext -> bool.
Variable isUnambiguousModule : Program -> bool.
Variable hashObject : ChildContext -> string.
Variable hasValidExtension : string -> ChildContext -> bool.
Variable ignore : string -> ChildContext -> bool.
Variable isMaybeUnambiguousModule : string -> bool.

Abbreviation ExportMap_for :=
  (for_ doctrine_parse getCommentsBefore captureTomDoc parser visit relative
        isEsModuleInterop isUnambiguousModule hashObject hasValidExtension
        ignore isMaybeUnambiguousModule).

Abbreviation rebuild_ :=
  (rebuild doctrine_parse getCommentsBefore captureTomDoc parser visit
           relative isEsModuleInterop isUnambiguousModule hasValidExtension
           ignore isMaybeUnambiguousModule).

Abbreviation parse_ :=
  (parse doctrine_parse getCommentsBefore captureTomDoc parser visit
         relative isEsModuleInterop isUnambiguousModule).

Abbreviation keyOf := (cacheKeyOf hashObject).

(** What [rebuild] returns, throws and records does not depend on the
    process it starts in; it writes the cache exactly when it returns,
    and then under its own key. *)
Lemma rebuild_uniform (fs : FileSystem) (c : ChildContext) (key : string)
    (t : Z) :
  exists (out : Outcome (option ExportMap)) (evs : list Event),
    (forall s,
        rebuild_ fs c key t s
        = (out,
           mkProcess
             match out with
             | Returned r => <[key := r]> (exportCache s)
             | Thrown _ => exportCache s
             end
             (trace s ++ evs)))
    /\ match out with
       | Returned (Some m) =>
           exists content m0,
             readFileSync fs (context_path c) = Some content
             /\ parse_ (context_path c) content c = Returned (Some m0)
             /\ m = with_mtime (Some t) m0
       | _ => True
       end
    /\ (ReadFileSync (context_path c) ∈ evs ->
        hasValidExtension (context_path c) c = true
        /\ ignore (context_path c) c = false)
    /\ (Parse (context_path c) ∈ evs ->
        exists content,
          readFileSync fs (context_path c) = Some content
          /\ isMaybeUnambiguousModule content = true).
Proof.
  unfold rebuild, cacheNull, Eff.bind, Eff.emit, Eff.cacheSet,
    Eff.ret, Eff.orThrow, Eff.throw, Eff.ofOutcome.
  cbn [exportCache trace].
  destruct (hasValidExtension (context_path c) c) eqn:Hvalid; cbn;
    [| exists (Returned None), [HasValidExtension (context_path c)];
       split; [reflexivity |]; split; [exact I |];
       split; absent_event].
  destruct (ignore (context_path c) c) eqn:Hignore; cbn;
    [exists (Returned None),
       [HasValidExtension (context_path c); Ignore (context_path c)];
     split; [intros s; rewrite <- ?app_assoc; reflexivity |];
     split; [exact I |]; split; absent_event |].
  destruct (readFileSync fs (context_path c)) as [content |] eqn:Hread; cbn;
    [| exists (Thrown "readFileSync"),
         [HasValidExtension (context_path c); Ignore (context_path c);
          ReadFileSync (context_path c)];
       split; [intros s; rewrite <- ?app_assoc; reflexivity |];
       split; [exact I |]; split; [auto | absent_event]].
  destruct (isMaybeUnambiguousModule content) eqn:Hmaybe; cbn;
    [| exists (Returned None),
         [HasValidExtension (context_path c); Ignore (context_path c);
          ReadFileSync (context_path c); IsMaybeUnambiguousModule];
       split; [intros s; rewrite <- ?app_assoc; reflexivity |];
       split; [exact I |]; split; [auto | absent_event]].
  destruct (parse_ (context_path c) content c) as [[m0 |] | e] eqn:Hparse;
    cbn;
    [exists (Returned (Some (with_mtime (Some t) m0)))
    | exists (Returned None)
    | exists (Thrown e)];
    exists [HasValidExtension (context_path c); Ignore (context_path c);
            ReadFileSync (context_path c); IsMaybeUnambiguousModule;
            Parse (context_path c)];
    (split; [intros s; rewrite <- ?app_assoc; reflexivity |]);
    (split; [try exact I | split; eauto]).
  exists content, m0. auto.
Qed.

#[local] Arguments rebuild : simpl never.

Lemma with_mtime_imports_ok (t : option Z) (m : ExportMap) :
  imports_ok m -> imports_ok (with_mtime t m).
Proof. intros H. exact H. Qed.

Lemma rebuild_cache_ok (fs : FileSystem) (c : ChildContext) (key : string)
    (t : Z) (s : Process) :
  cache_ok s -> cache_ok (snd (rebuild_ fs c key t s)).
Proof.
  intros Hok.
  destruct (rebuild_uniform fs c key t) as [out [evs [Hrun [Hout _]]]].
  rewrite Hrun. cbn [snd]. intros k m. cbn [exportCache].
  destruct out as [[built |] | e]; [| | apply Hok].
  - destruct (decide (key = k)) as [-> | Hne].
    + rewrite lookup_insert_eq. intros H. inversion H; subst m. clear H.
      destruct Hout as [content [m0 [_ [Hparse ->]]]].
      split; [discriminate |].
      pose proof (parse_result_ok _ _ _ _ _ _ _ _ _ _ _ _ Hparse)
        as [_ [Hgoal Himports]].
      split; [exact Hgoal |].
      apply with_mtime_imports_ok. exact Himports.
    + rewrite lookup_insert_ne by exact Hne. apply Hok.
  - destruct (decide (key = k)) as [-> | Hne].
    + rewrite lookup_insert_eq. discriminate.
    + rewrite lookup_insert_ne by exact Hne. apply Hok.
Qed.

Lemma for_cache_ok (fs : FileSystem) (c : ChildContext) (s : Process) :
  cache_ok s -> cache_ok (snd (ExportMap_for fs c s)).
Proof.
  intros Hok.
  unfold for_, Eff.bind, Eff.cacheGet, Eff.emit, Eff.orThrow, Eff.ret,
    Eff.throw.
  cbn [exportCache trace].
  assert (Hs : cache_ok
                 (mkProcess (exportCache s)
                            (trace s ++ [StatSync (context_path c)])))
    by exact Hok.
  destruct (exportCache s !! keyOf c) as [[exportMap |] |];
    [| exact Hok |];
    (destruct (statSync_mtime fs (context_path c)) as [t |];
     [| exact Hs]); cbn.
  - destruct (mtime exportMap) as [t' |]; [| exact Hs].
    destruct (t' - t =? 0)%Z; [exact Hs |].
    exact (rebuild_cache_ok fs c (keyOf c) t _ Hs).
  - exact (rebuild_cache_ok fs c (keyOf c) t _ Hs).
Qed.

(** However many times [ExportMap.for] has run since the process started,
    on whatever files and with whatever outcome, every map in the cache
    carries a modification time (so that the date check of a later call
    has one to compare), is not classified as a script, and has
    well-formed [imports]. *)
Theorem cache_holds_stamped_maps
    (calls : list (FileSystem * ChildContext)) :
  cache_ok
    (fold_left (fun s call => snd (ExportMap_for (fst call) (snd call) s))
               calls (mkProcess ∅ [])).
Proof.
  apply fold_left_invariant.
  - intros s [fs c] Hok. apply for_cache_ok. exact Hok.
  - intros key m H.
    assert (He : exportCache (mkProcess ∅ []) !! key = None)
      by exact (lookup_empty key).
    rewrite He in H. discriminate.
Qed.

(** A cached map whose modification time differs from the file's is
    treated as no entry at all: the call returns or throws what it would
    with the entry forgotten, records the same calls, and when it
    returns it leaves the same cache. *)
Theorem stale_entry_is_rebuilt_as_from_cold_cache (fs : FileSystem)
    (c : ChildContext) (s : Process) (old : ExportMap) (t t' : Z) :
  exportCache s !! keyOf c = Some (Some old) ->
  mtime old = Some t ->
  statSync_mtime fs (context_path c) = Some t' ->
  t <> t' ->
  let warm := ExportMap_for fs c s in
  let cold := ExportMap_for fs c (forget (keyOf c) s) in
  fst warm = fst cold
  /\ trace (snd warm) = trace (snd cold)
  /\ (forall r, fst warm = Returned r ->
                exportCache (snd warm) = exportCache (snd cold)).
Proof.
  intros Hhit Hmtime Hstat Hne.
  unfold for_, forget, Eff.bind, Eff.cacheGet, Eff.emit, Eff.orThrow,
    Eff.ret, Eff.throw.
  cbn [exportCache trace]. rewrite Hhit, lookup_delete_eq, Hstat. cbn.
  rewrite Hmtime.
  destruct (t - t' =? 0)%Z eqn:Hsame;
    [apply Z.eqb_eq in Hsame; lia |].
  destruct (rebuild_uniform fs c (keyOf c) t') as [out [evs [Hrun _]]].
  rewrite !Hrun. cbn [fst snd exportCache trace].
  split; [reflexivity |]. split; [reflexivity |].
  intros r Hr. subst out. apply eq_sym, insert_delete_eq.
Qed.

(** The file is read only after [hasValidExtension] has accepted the path
    and [ignore] has not matched it, and it is parsed only after it was
    read and [isMaybeUnambiguousModule] accepted its content; a call that
    records nothing at all is one that found the null sentinel. *)
Theorem filters_come_before_read_and_parse (fs : FileSystem)
    (c : ChildContext) (s : Process) :
  exists evs,
    trace (snd (ExportMap_for fs c s)) = trace s ++ evs
    /\ (ReadFileSync (context_path c) ∈ evs ->
        hasValidExtension (context_path c) c = true
        /\ ignore (context_path c) c = false)
    /\ (Parse (context_path c) ∈ evs ->
        exists content,
          readFileSync fs (context_path c) = Some content
          /\ isMaybeUnambiguousModule content = true)
    /\ (evs = [] <-> exportCache s !! keyOf c = Some None).
Proof.
  unfold for_, Eff.bind, Eff.cacheGet, Eff.emit, Eff.orThrow, Eff.ret,
    Eff.throw.
  cbn [exportCache trace].
  destruct (rebuild_uniform fs c (keyOf c)
              (default 0%Z (statSync_mtime fs (context_path c))))
    as [out [evs [Hrun [_ [Hread Hparse]]]]].
  assert (Hrebuilt :
    exists evs0,
      trace s ++ [StatSync (context_path c)] ++ evs = trace s ++ evs0
      /\ (ReadFileSync (context_path c) ∈ evs0 ->
          hasValidExtension (context_path c) c = true
          /\ ignore (context_path c) c = false)
      /\ (Parse (context_path c) ∈ evs0 ->
          exists content,
            readFileSync fs (context_path c) = Some content
            /\ isMaybeUnambiguousModule content = true)
      /\ evs0 <> []).
  { exists (StatSync (context_path c) :: evs).
    split; [reflexivity |].
    split; [intros Hin; apply elem_of_cons in Hin as [Hin | Hin];
            [discriminate | auto] |].
    split; [intros Hin; apply elem_of_cons in Hin as [Hin | Hin];
            [discriminate | auto] |].
    discriminate. }
  assert (Hstat_only :
    exists evs0,
      trace s ++ [StatSync (context_path c)] = trace s ++ evs0
      /\ (ReadFileSync (context_path c) ∈ evs0 ->
          hasValidExtension (context_path c) c = true
          /\ ignore (context_path c) c = false)
      /\ (Parse (context_path c) ∈ evs0 ->
          exists content,
            readFileSync fs (context_path c) = Some content
            /\ isMaybeUnambiguousModule content = true)
      /\ evs0 <> []).
  { exists [StatSync (context_path c)].
    split; [reflexivity |]. split; [absent_event |].
    split; [absent_event | discriminate]. }
  assert (Hfinish :
    forall tr : list Event,
      (exists evs0,
          tr = trace s ++ evs0
          /\ (ReadFileSync (context_path c) ∈ evs0 ->
              hasValidExtension (context_path c) c = true
              /\ ignore (context_path c) c = false)
          /\ (Parse (context_path c) ∈ evs0 ->
              exists content,
                readFileSync fs (context_path c) = Some content
                /\ isMaybeUnambiguousModule content = true)
          /\ evs0 <> []) ->
      exportCache s !! keyOf c <> Some None ->
      exists evs0,
        tr = trace s ++ evs0
        /\ (ReadFileSync (context_path c) ∈ evs0 ->
            hasValidExtension (context_path c) c = true
            /\ ignore (context_path c) c = false)
        /\ (Parse (context_path c) ∈ evs0 ->
            exists content,
              readFileSync fs (context_path c) = Some content
              /\ isMaybeUnambiguousModule content = true)
        /\ (evs0 = [] <-> exportCache s !! keyOf c = Some None)).
  { intros tr [evs0 [H1 [H2 [H3 H4]]]] Hnot. exists evs0.
    split; [exact H1 |]. split; [exact H2 |]. split; [exact H3 |].
    split; intros; contradiction. }
  destruct (exportCache s !! keyOf c) as [[exportMap |] |] eqn:Hget.
  - apply Hfinish; [| discriminate].
    destruct (statSync_mtime fs (context_path c)) as [t |];
      [| exact Hstat_only].
    cbn. destruct (mtime exportMap) as [t' |]; [| exact Hstat_only].
    destruct (t' - t =? 0)%Z; [exact Hstat_only |].
    rewrite Hrun. cbn [snd trace].
    rewrite <- app_assoc. exact Hrebuilt.
  - exists []. cbn. rewrite app_nil_r.
    split; [reflexivity |]. split; [absent_event |].
    split; [absent_event |]. split; reflexivity.
  - apply Hfinish; [| discriminate].
    destruct (statSync_mtime fs (context_path c)) as [t |];
      [| exact Hstat_only].
    cbn. rewrite Hrun. cbn [snd trace].
    rewrite <- app_assoc. exact Hrebuilt.
Qed.

(** On a cache without an entry for the context, a map that
    [ExportMap.for] returns is the map that [parse] builds from the
    content of the file, stamped with the modification time of the
    file, and it is the map of the context's path. *)
Theorem for_on_cold_cache_is_parse_then_stamp (fs : FileSystem)
    (c : ChildContext) (s s' : Process) (m : ExportMap) :
  exportCache s !! keyOf c = None ->
  ExportMap_for fs c s = (Returned (Some m), s') ->
  exists t content m0,
    statSync_mtime fs (context_path c) = Some t
    /\ readFileSync fs (context_path c) = Some content
    /\ parse_ (context_path c) content c = Returned (Some m0)
    /\ m = with_mtime (Some t) m0
    /\ path m = context_path c.
Proof.
  intros Hcold.
  unfold for_, Eff.bind, Eff.cacheGet, Eff.emit, Eff.orThrow, Eff.ret,
    Eff.throw.
  cbn [exportCache trace]. rewrite Hcold.
  destruct (statSync_mtime fs (context_path c)) as [t |]; [| discriminate].
  cbn.
  destruct (rebuild_uniform fs c (keyOf c) t) as [out [evs [Hrun [Hout _]]]].
  rewrite Hrun. intros H. inversion H; subst. clear H.
  destruct Hout as [content [m0 [Hread [Hparse ->]]]].
  exists t, content, m0. repeat split; auto.
  pose proof (parse_result_ok _ _ _ _ _ _ _ _ _ _ _ _ Hparse)
    as [Hpath _].
  exact Hpath.
Qed.
End CacheMore.

Lemma stale_entry_is_rebuilt_as_from_cold_cache_witness :
  fst (Samples.for_later (Fixture.context "/p/a.ts") Fixture.after_a)
  = fst (Samples.for_later (Fixture.context "/p/a.ts")
           (forget "espree/p/a.ts" Fixture.after_a)).
Proof.
  assert (Hhit : exportCache Fixture.after_a
                 !! cacheKeyOf Fixture.hashObject (Fixture.context "/p/a.ts")
                 = Some (Some Fixture.a_map))
    by (vm_compute; reflexivity).
  pose proof (stale_entry_is_rebuilt_as_from_cold_cache
                Fixture.doctrine_parse Fixture.getCommentsBefore
                Fixture.captureTomDoc Fixture.parser Fixture.visit
                Fixture.relative Fixture.isEsModuleInterop
                Fixture.isUnambiguousModule Fixture.hashObject
                Fixture.hasValidExtension Fixture.ignore
                Fixture.isMaybeUnambiguousModule
                Samples.fs_later (Fixture.context "/p/a.ts")
                Fixture.after_a Fixture.a_map 1000%Z 2000%Z
                Hhit eq_refl eq_refl ltac:(lia)) as H.
  cbv zeta in H. destruct H as [H _]. exact H.
Defined.

Lemma for_on_cold_cache_is_parse_then_stamp_witness :
  path Fixture.a_map = "/p/a.ts".
Proof.
  assert (Hcold : exportCache Fixture.emptyProcess
                  !! cacheKeyOf Fixture.hashObject
                       (Fixture.context "/p/a.ts")
                  = None)
    by (vm_compute; reflexivity).
  assert (Hrun : Fixture.for_ (Fixture.context "/p/a.ts")
                   Fixture.emptyProcess
                 = (Returned (Some Fixture.a_map), Fixture.after_a))
    by (vm_compute; reflexivity).
  destruct (for_on_cold_cache_is_parse_then_stamp
              Fixture.doctrine_parse Fixture.getCommentsBefore
              Fixture.captureTomDoc Fixture.parser Fixture.visit
              Fixture.relative Fixture.isEsModuleInterop
              Fixture.isUnambiguousModule Fixture.hashObject
              Fixture.hasValidExtension Fixture.ignore
              Fixture.isMaybeUnambiguousModule
              Fixture.fs (Fixture.context "/p/a.ts")
              Fixture.emptyProcess Fixture.after_a Fixture.a_map
              Hcold Hrun)
    as [t [content [m0 [_ [_ [_ [_ Hpath]]]]]]].
  exact Hpath.
Defined.

(** * Rules *)

(** ** [max-dependencies] *)

Lemma set_add_present (x : string) (l : list string) :
  x ∈ l -> set_add x l = l.
Proof.
  intros Hin. unfold set_add. rewrite bool_decide_eq_true_2; auto.
Qed.

(** An options object without [max] switches the rule off: the default
    of ten applies only when there is no options object at all. *)
Theorem max_dependencies_without_max_never_reports
    (o : MaxDependencies.Options)
    (visits : list (Literal * option ImportKind)) :
  MaxDependencies.max o = None ->
  MaxDependencies.run (Some o) visits = [].
Proof.
  intros Hmax. unfold MaxDependencies.run, MaxDependencies.countDependencies.
  rewrite Hmax. reflexivity.
Qed.

(** A source that was counted before, and a type import that the options
    ignore, neither raise nor silence the report: they only move it to
    their own node. *)
Theorem max_dependencies_uncounted_visit_moves_report
    (options0 : option MaxDependencies.Options)
    (before : list (Literal * option ImportKind))
    (visited : Literal * option ImportKind) :
  MaxDependencies.uncounted options0 before visited ->
  MaxDependencies.run options0 (before ++ [visited])
  = map (fun r => MaxDependencies.mkReport
                    (Some (fst visited)) (MaxDependencies.report_max r))
        (MaxDependencies.run options0 before).
Proof.
  intros Hun. unfold MaxDependencies.run. rewrite fold_left_app.
  cbn [fold_left].
  set (st := fold_left (MaxDependencies.visitSource options0) before
                       (MaxDependencies.mkState [] None)) in *.
  assert (Hdeps :
    MaxDependencies.dependencies
      (MaxDependencies.visitSource options0 st visited)
    = MaxDependencies.dependencies st).
  { unfold MaxDependencies.visitSource. cbn.
    destruct Hun as [Hin | [Htype [o [-> Hignore]]]].
    - match goal with
      | |- (if ?b then _ else _) = _ => destruct b
      end; [apply set_add_present; exact Hin | reflexivity].
    - rewrite Htype, Hignore. reflexivity. }
  rewrite Hdeps. unfold MaxDependencies.countDependencies.
  destruct (match options0 with
            | Some o => MaxDependencies.max o
            | None => Some MaxDependencies.DEFAULT_MAX
            end) as [limit |]; [| reflexivity].
  destruct (limit <? _)%Z; reflexivity.
Qed.

Lemma max_dependencies_without_max_never_reports_witness :
  MaxDependencies.run
    (Some (MaxDependencies.mkOptions None (Some true)))
    [(mkLiteral "./a" (mkLoc 1 0), None);
     (mkLiteral "./b" (mkLoc 2 0), Some KindType)]
  = [].
Proof.
  apply max_dependencies_without_max_never_reports. reflexivity.
Defined.

Lemma max_dependencies_uncounted_visit_moves_report_witness :
  MaxDependencies.run
    (Some (MaxDependencies.mkOptions (Some 1%Z) None))
    ([(mkLiteral "./a" (mkLoc 1 0), None);
      (mkLiteral "./b" (mkLoc 2 0), None)]
     ++ [(mkLiteral "./a" (mkLoc 3 0), Some KindType)])
  = [MaxDependencies.mkReport (Some (mkLiteral "./a" (mkLoc 3 0))) 1%Z].
Proof.
  apply (max_dependencies_uncounted_visit_moves_report
           (Some (MaxDependencies.mkOptions (Some 1%Z) None))
           [(mkLiteral "./a" (mkLoc 1 0), None);
            (mkLiteral "./b" (mkLoc 2 0), None)]
           (mkLiteral "./a" (mkLoc 3 0), Some KindType)).
  left. vm_compute. apply list_elem_of_here.
Defined.

(** ** [no-named-as-default-member] *)

Lemma jsmap_set_key_elem {K V : Type} `{EqDecision K} (k j : K) (v : V)
    (m : list (K * V)) :
  j ∈ map fst (JsMap.set k v m) -> j = k \/ j ∈ map fst m.
Proof.
  induction m as [| [k' v'] rest IH]; cbn.
  - intros Hin. apply list_elem_of_singleton in Hin. auto.
  - destruct (decide (k = k')) as [-> | Hne]; cbn; intros Hin.
    + apply elem_of_cons in Hin as [-> | Hin]; [auto |].
      right. apply elem_of_cons. auto.
    + apply elem_of_cons in Hin as [-> | Hin].
      * right. apply list_elem_of_here.
      * destruct (IH Hin) as [-> | Hrest]; [auto |].
        right. apply elem_of_cons. auto.
Qed.

Lemma jsmap_set_keys_nodup {K V : Type} `{EqDecision K} (k : K) (v : V)
    (m : list (K * V)) :
  NoDup (map fst m) -> NoDup (map fst (JsMap.set k v m)).
Proof.
  induction m as [| [k' v'] rest IH]; cbn; intros Hnd.
  - apply NoDup_singleton.
  - apply NoDup_cons in Hnd as [Hnotin Hrest].
    destruct (decide (k = k')) as [-> | Hne]; cbn.
    + apply NoDup_cons. auto.
    + apply NoDup_cons. split; [| auto].
      intros Hin. apply jsmap_set_key_elem in Hin as [-> | Hin];
        [contradiction | contradiction].
Qed.

Lemma jsmap_get_elem {K V : Type} `{EqDecision K} (k : K) (v : V)
    (m : list (K * V)) :
  JsMap.get k m = Some v -> (k, v) ∈ m.
Proof.
  induction m as [| [k' v'] rest IH]; cbn; [discriminate |].
  destruct (decide (k = k')) as [-> | Hne].
  - intros H. inversion H. apply list_elem_of_here.
  - intros H. apply list_elem_of_further. auto.
Qed.

Lemma jsmap_elem_get {K V : Type} `{EqDecision K} (k : K) (v : V)
    (m : list (K * V)) :
  NoDup (map fst m) -> (k, v) ∈ m -> JsMap.get k m = Some v.
Proof.
  induction m as [| [k' v'] rest IH]; cbn; intros Hnd Hin.
  - inversion Hin.
  - apply NoDup_cons in Hnd as [Hnotin Hrest].
    apply elem_of_cons in Hin as [Heq | Hin].
    + inversion Heq; subst.
      destruct (decide (k' = k')); [reflexivity | contradiction].
    + destruct (decide (k = k')) as [-> | Hne]; [| auto].
      exfalso. apply Hnotin.
      apply list_elem_of_fmap. exists (k', v). auto.
Qed.

Lemma jsmap_set_elem {K V : Type} `{EqDecision K} (k j : K) (v w : V)
    (m : list (K * V)) :
  NoDup (map fst m) ->
  (j, w) ∈ JsMap.set k v m
  <-> (j = k /\ w = v) \/ (j <> k /\ (j, w) ∈ m).
Proof.
  intros Hnd. split.
  - intros Hin.
    apply jsmap_elem_get in Hin; [| apply jsmap_set_keys_nodup; exact Hnd].
    destruct (decide (j = k)) as [-> | Hne].
    + rewrite jsmap_get_set_eq in Hin. inversion Hin. auto.
    + rewrite jsmap_get_set_ne in Hin by exact Hne.
      right. split; [exact Hne |]. apply jsmap_get_elem. exact Hin.
  - intros [[-> ->] | [Hne Hin]]; apply jsmap_get_elem.
    + apply jsmap_get_set_eq.
    + rewrite jsmap_get_set_ne by exact Hne.
      apply jsmap_elem_get; assumption.
Qed.

Module NoNamedAsDefaultMemberFacts.
Import NoNamedAsDefaultMember.

Lemma storePropertyLookup_stores (o p : Key) (n : NodeInfo)
    (all : list (Key * list Lookup)) (stored : list (Key * Lookup)) :
  stores all stored ->
  stores (storePropertyLookup o p n all) (stored ++ [(o, mkLookup n p)]).
Proof.
  intros [Hnd Hall]. unfold storePropertyLookup. split.
  - apply jsmap_set_keys_nodup. exact Hnd.
  - intros o' l. rewrite elem_of_app, list_elem_of_singleton, <- Hall.
    split.
    + intros [ls [Hin Hl]].
      apply jsmap_set_elem in Hin as [[-> ->] | [Hne Hin]]; [| | exact Hnd].
      * apply elem_of_app in Hl as [Hl | Hl].
        -- left. destruct (JsMap.get o all) as [old |] eqn:Hget;
             [| inversion Hl].
           exists old. split; [apply jsmap_get_elem; exact Hget | exact Hl].
        -- apply list_elem_of_singleton in Hl. subst l. auto.
      * left. exists ls. auto.
    + intros [[ls [Hin Hl]] | Heq].
      * destruct (decide (o' = o)) as [-> | Hne].
        -- exists (default [] (JsMap.get o all) ++ [mkLookup n p]).
           split; [apply jsmap_set_elem; auto |].
           apply elem_of_app. left.
           rewrite (jsmap_elem_get _ _ _ Hnd Hin). exact Hl.
        -- exists ls. split; [| exact Hl].
           apply jsmap_set_elem; auto.
      * inversion Heq; subst.
        exists (default [] (JsMap.get o all) ++ [mkLookup n p]).
        split; [apply jsmap_set_elem; auto |].
        apply elem_of_app. right. apply list_elem_of_here.
Qed.

Lemma visit_stores (st : State) (v : Visit) (stored : list (Key * Lookup)) :
  stores (allPropertyLookups st) stored ->
  stores (allPropertyLookups (visit st v)) (stored ++ lookupsOf v).
Proof.
  destruct v as [local_name source_value [exportMap |] | o p n
                 | o properties]; cbn [visit lookupsOf].
  - destruct (errors exportMap); cbn; rewrite app_nil_r; auto.
  - rewrite app_nil_r. auto.
  - cbn. apply storePropertyLookup_stores.
  - cbn [allPropertyLookups]. generalize (allPropertyLookups st).
    revert stored.
    induction properties as [| [[key_name key] |] rest IH];
      intros stored all Hst; cbn.
    + rewrite app_nil_r. exact Hst.
    + rewrite cons_middle, app_assoc. apply IH.
      apply storePropertyLookup_stores. exact Hst.
    + apply IH. exact Hst.
Qed.

Lemma run_stores (visits : list Visit) (st : State)
    (stored : list (Key * Lookup)) :
  stores (allPropertyLookups st) stored ->
  stores (allPropertyLookups (fold_left visit visits st))
         (stored ++ flat_map lookupsOf visits).
Proof.
  revert st stored. induction visits as [| v rest IH];
    intros st stored Hst; cbn.
  - rewrite app_nil_r. exact Hst.
  - rewrite app_assoc. apply IH. apply visit_stores. exact Hst.
Qed.

Lemma run_fileImports (name : string) (visits : list Visit) (st : State)
    (found : option FileImport) :
  JsMap.get name (fileImports st) = found ->
  JsMap.get name (fileImports (fold_left visit visits st))
  = fold_left
      (fun found v =>
         match registered v with
         | Some (local_name, fileImport) =>
             if decide (name = local_name) then Some fileImport else found
         | None => found
         end)
      visits found.
Proof.
  revert st found. induction visits as [| v rest IH];
    intros st found Hst; cbn [fold_left]; [exact Hst |].
  apply IH.
  destruct v as [local_name source_value [exportMap |] | o p n
                 | o properties]; cbn [visit registered]; try exact Hst.
  destruct (errors exportMap); cbn [fileImports]; [| exact Hst].
  destruct (decide (name = local_name)) as [-> | Hne].
  - apply jsmap_get_set_eq.
  - rewrite jsmap_get_set_ne by exact Hne. exact Hst.
Qed.

Lemma run_reports (visits : list Visit) (st : State) :
  Forall (fun r => exists s e, r = ParseErrors s e) (reports st) ->
  Forall (fun r => exists s e, r = ParseErrors s e)
         (reports (fold_left visit visits st)).
Proof.
  intros Hinit. apply fold_left_invariant; [| exact Hinit].
  clear st Hinit. intros st v Hst.
  destruct v as [local_name source_value [exportMap |] | o p n
                 | o properties]; cbn [visit]; try exact Hst.
  destruct (errors exportMap); cbn [reports]; [exact Hst |].
  apply Forall_app. split; [exact Hst |].
  constructor; [eauto | constructor].
Qed.
End NoNamedAsDefaultMemberFacts.

(** The rule cautions about a property lookup [o.p] exactly when [o] is
    the local name of a default import whose map was found without parse
    errors (the last such import of that name), [p] is not ['default'],
    and the own [namespace] of that map has [p]: names that the module
    only re-exports are not looked for. *)
Theorem caution_exactly_for_own_names
    (visits : list NoNamedAsDefaultMember.Visit) (node : NodeInfo)
    (o p : Key) (sp : string) :
  NoNamedAsDefaultMember.Caution node o p sp
  ∈ NoNamedAsDefaultMember.run visits
  <-> (o, NoNamedAsDefaultMember.mkLookup node p)
      ∈ flat_map NoNamedAsDefaultMember.lookupsOf visits
      /\ p <> Some "default"
      /\ exists name fileImport,
           o = Some name
           /\ NoNamedAsDefaultMember.importedAs name visits
              = Some fileImport
           /\ NoNamedAsDefaultMember.sourcePath fileImport = sp
           /\ JsMap.has p
                (namespace
                   (NoNamedAsDefaultMember.import_exportMap fileImport))
              = true.
Proof.
  unfold NoNamedAsDefaultMember.run.
  set (init := NoNamedAsDefaultMember.mkState [] [] []).
  set (st := fold_left NoNamedAsDefaultMember.visit visits init).
  assert (Hstores :
    NoNamedAsDefaultMember.stores
      (NoNamedAsDefaultMember.allPropertyLookups st)
      (flat_map NoNamedAsDefaultMember.lookupsOf visits)).
  { apply (NoNamedAsDefaultMemberFacts.run_stores visits init []).
    split; [constructor |].
    intros o' l. split; [intros [ls [Hin _]]; inversion Hin |].
    intros Hin. inversion Hin. }
  destruct Hstores as [_ Hall].
  assert (Himports : forall name,
    JsMap.get name (NoNamedAsDefaultMember.fileImports st)
    = NoNamedAsDefaultMember.importedAs name visits).
  { intros name.
    apply (NoNamedAsDefaultMemberFacts.run_fileImports name visits init).
    reflexivity. }
  assert (Hreports :
    Forall (fun r => exists s e, r = NoNamedAsDefaultMember.ParseErrors s e)
           (NoNamedAsDefaultMember.reports st)).
  { apply NoNamedAsDefaultMemberFacts.run_reports. constructor. }
  rewrite elem_of_app. unfold NoNamedAsDefaultMember.programExit.
  rewrite <- Hall. split.
  - intros [Hin | Hin].
    { rewrite Forall_forall in Hreports.
      destruct (Hreports _ Hin) as [s [e He]]. discriminate. }
    apply list_elem_of_In, in_flat_map in Hin as [[o' ls] [Hentry Hin]].
    cbn [fst snd] in Hin.
    destruct o' as [name |]; cbn [NoNamedAsDefaultMember.fileImportOf] in Hin;
      [| inversion Hin].
    rewrite Himports in Hin.
    destruct (NoNamedAsDefaultMember.importedAs name visits)
      as [fileImport |] eqn:Himp; [| inversion Hin].
    apply in_flat_map in Hin as [l [Hl Hin]].
    destruct (bool_decide (NoNamedAsDefaultMember.propName l
                           = Some "default")) eqn:Hdefault;
      [inversion Hin |].
    apply bool_decide_eq_false in Hdefault.
    destruct (JsMap.has (NoNamedAsDefaultMember.propName l) _) eqn:Hhas;
      cbn in Hin; [| contradiction].
    destruct Hin as [Heq | []]. inversion Heq; subst.
    destruct l as [lnode lprop]. cbn in *.
    split; [exists ls; split; apply list_elem_of_In; assumption |].
    split; [exact Hdefault |].
    exists name, fileImport. auto.
  - intros [[ls [Hentry Hl]] [Hdefault [name [fileImport
             [-> [Himp [<- Hhas]]]]]]].
    right. apply list_elem_of_In, in_flat_map.
    exists (Some name, ls). split; [apply list_elem_of_In; exact Hentry |].
    cbn [fst snd NoNamedAsDefaultMember.fileImportOf].
    rewrite Himports, Himp. apply in_flat_map.
    exists (NoNamedAsDefaultMember.mkLookup node p).
    split; [apply list_elem_of_In; exact Hl |]. cbn.
    rewrite bool_decide_eq_false_2 by exact Hdefault.
    rewrite Hhas. cbn. auto.
Qed.

Lemma caution_exactly_for_own_names_witness :
  NoNamedAsDefaultMember.Caution Fixture.node0 (Some "a") (Some "x") "./a"
  ∈ NoNamedAsDefaultMember.run
      [NoNamedAsDefaultMember.MemberExpression (Some "a") (Some "x")
         Fixture.node0;
       NoNamedAsDefaultMember.ImportDefaultSpecifier "a" "./a"
         (Some Fixture.a_map)].
Proof.
  apply (proj2 (caution_exactly_for_own_names _ _ _ _ _)).
  split; [apply list_elem_of_here |].
  split; [discriminate |].
  exists "a", (NoNamedAsDefaultMember.mkFileImport Fixture.a_map "./a").
  repeat split; reflexivity.
Defined.

(** * The contexts of dependencies *)

Section ChildContextFacts.
Variable hashParserOptions : string -> string.
Variable hashSettings : option Settings -> string.

Abbreviation childContext_ := (childContext hashParserOptions hashSettings).

(** A file reached through two importers is looked up in the very same
    context, so that both share one cache entry: the child context of a
    child context depends on the importer only through what the importer
    passes on unchanged. *)
Theorem child_context_forgets_the_importer (p q1 q2 : string)
    (c : ChildContext) :
  childContext_ p (childContext_ q1 c) = childContext_ p (childContext_ q2 c)
  /\ childContext_ p (childContext_ q1 c) = childContext_ p c.
Proof.
  assert (H : forall q, childContext_ p (childContext_ q c)
                        = childContext_ p c).
  { intros q. unfold childContext. cbn. f_equal.
    destruct (truthy (filename c)) eqn:Ht; [rewrite Ht |]; reflexivity. }
  split; [rewrite !H; reflexivity | apply H].
Qed.

Variable stringifySettings : option Settings -> option string.
Variable stringifyParserOptions : string -> option string.

Abbreviation childContextMemo_ :=
  (childContextMemo stringifySettings stringifyParserOptions
                    hashParserOptions hashSettings).
Abbreviation memo_ok_ :=
  (memo_ok stringifySettings stringifyParserOptions
           hashParserOptions hashSettings).

Lemma childContextMemo_step (p : string) (c : ChildContext)
    (memo : HashMemo) :
  (forall x y, stringifySettings x = stringifySettings y ->
               hashSettings x = hashSettings y) ->
  (forall x y, stringifyParserOptions x = stringifyParserOptions y ->
               hashParserOptions x = hashParserOptions y) ->
  (forall x, stringifySettings x <> Some "") ->
  (forall x, stringifyParserOptions x <> Some "") ->
  memo_ok_ memo ->
  fst (childContextMemo_ p c memo) = childContext_ p c
  /\ memo_ok_ (snd (childContextMemo_ p c memo)).
Proof.
  intros Hsettings Hoptions Hs Ho [Hms Hmo].
  unfold childContextMemo. cbn [fst snd].
  destruct (bool_decide (stringifySettings (settings c)
                         <> prevSettings memo)) eqn:Hds;
    [apply bool_decide_eq_true in Hds
    | apply bool_decide_eq_false in Hds;
      apply dec_stable in Hds];
    cbn [prevParserOptions parserOptionsHash settingsHash prevSettings];
    (destruct (bool_decide (stringifyParserOptions (parserOptions c)
                            <> prevParserOptions memo)) eqn:Hdo;
     [apply bool_decide_eq_true in Hdo
     | apply bool_decide_eq_false in Hdo;
       apply dec_stable in Hdo]);
    cbn [prevParserOptions parserOptionsHash settingsHash prevSettings];
    unfold childContext, memo_ok;
    cbn [prevParserOptions parserOptionsHash settingsHash prevSettings].
  - split; [reflexivity |]. split; right; eauto.
  - destruct Hmo as [Hmo | [o [Hmo Hho]]];
      [rewrite Hmo in Hdo; apply Ho in Hdo; contradiction |].
    rewrite Hmo in Hdo. apply Hoptions in Hdo.
    split; [rewrite Hho, Hdo; reflexivity |].
    split; right; eauto.
  - destruct Hms as [Hms | [x [Hms Hhs]]];
      [rewrite Hms in Hds; apply Hs in Hds; contradiction |].
    rewrite Hms in Hds. apply Hsettings in Hds.
    split; [rewrite Hhs, Hds; reflexivity |].
    split; right; eauto.
  - destruct Hms as [Hms | [x [Hms Hhs]]];
      [rewrite Hms in Hds; apply Hs in Hds; contradiction |].
    destruct Hmo as [Hmo | [o [Hmo Hho]]];
      [rewrite Hmo in Hdo; apply Ho in Hdo; contradiction |].
    rewrite Hms in Hds. apply Hsettings in Hds.
    rewrite Hmo in Hdo. apply Hoptions in Hdo.
    split; [rewrite Hhs, Hds, Hho, Hdo; reflexivity |].
    split; right; eauto.
Qed.

(** When the digest of settings and of parser options is determined by
    their [JSON.stringify] text, and that text is never empty, the memo
    is invisible: after any calls since the module was loaded,
    [childContext] answers the context with the two digests of the
    context it is given. *)
Theorem childContext_memo_is_invisible
    (calls : list (string * ChildContext)) (p : string)
    (c : ChildContext) :
  (forall x y, stringifySettings x = stringifySettings y ->
               hashSettings x = hashSettings y) ->
  (forall x y, stringifyParserOptions x = stringifyParserOptions y ->
               hashParserOptions x = hashParserOptions y) ->
  (forall x, stringifySettings x <> Some "") ->
  (forall x, stringifyParserOptions x <> Some "") ->
  fst (childContextMemo_ p c
         (fold_left
            (fun memo call =>
               snd (childContextMemo_ (fst call) (snd call) memo))
            calls initialMemo))
  = childContext_ p c.
Proof.
  intros Hsettings Hoptions Hs Ho.
  apply childContextMemo_step; auto.
  apply fold_left_invariant.
  - intros memo [q d] Hok.
    apply childContextMemo_step; auto.
  - split; left; reflexivity.
Qed.
End ChildContextFacts.

(** ** The tsconfig lookup *)

Section TsConfigFacts.
Variable hashKey : option string -> option TsConfig.Project -> string.
Variable pathResolve : string -> string -> string.
Variable cwd : string.

(** The tsconfig found for one [tsconfigRootDir] and [project] is kept,
    a failed search included: a later call with options of the same
    digest answers the same and asks for no tsconfig, whatever file it
    is made for and whatever is on disk by then. *)
Theorem tsconfig_answer_is_remembered
    (getTsconfig getTsconfig' : option string -> option TsConfig.TsConfigJson)
    (parserOptions parserOptions' : TsConfig.ParserOptions)
    (filename filename' : option string) (tsconfigCache : TsConfig.Cache) :
  hashKey (TsConfig.tsconfigRootDir parserOptions')
          (TsConfig.project parserOptions')
  = hashKey (TsConfig.tsconfigRootDir parserOptions)
            (TsConfig.project parserOptions) ->
  TsConfig.isEsModuleInterop hashKey pathResolve cwd getTsconfig'
    parserOptions' filename'
    (snd (TsConfig.isEsModuleInterop hashKey pathResolve cwd getTsconfig
            parserOptions filename tsconfigCache))
  = TsConfig.isEsModuleInterop hashKey pathResolve cwd getTsconfig
      parserOptions filename tsconfigCache.
Proof.
  intros Hkey. unfold TsConfig.isEsModuleInterop. rewrite Hkey.
  destruct (tsconfigCache !! hashKey _ _) as [cached |] eqn:Hget;
    cbn [fst snd].
  - rewrite Hget. reflexivity.
  - rewrite lookup_insert_eq. reflexivity.
Qed.

(** With several projects, the first one for which a tsconfig is found
    decides; the projects after it are not looked at. *)
Theorem first_project_with_tsconfig_decides
    (getTsconfig : option string -> option TsConfig.TsConfigJson)
    (root : option string) (before after : list TsConfig.ProjectEntry)
    (entry : TsConfig.ProjectEntry) (filename : option string)
    (found : TsConfig.TsConfigJson) (options : TsConfig.CompilerOptions)
    (tsconfigCache : TsConfig.Cache) :
  tsconfigCache
  !! hashKey root (Some (TsConfig.ManyProjects (before ++ entry :: after)))
  = None ->
  Forall (fun e =>
            getTsconfig
              (TsConfig.searchPath pathResolve (TsConfig.rootDir cwd root)
                                   filename e)
            = None)
         before ->
  getTsconfig
    (TsConfig.searchPath pathResolve (TsConfig.rootDir cwd root)
                         filename entry)
  = Some found ->
  TsConfig.compilerOptions found = Some options ->
  fst (TsConfig.isEsModuleInterop hashKey pathResolve cwd getTsconfig
         (TsConfig.mkParserOptions
            root (Some (TsConfig.ManyProjects (before ++ entry :: after))))
         filename tsconfigCache)
  = TsConfig.esModuleInterop options.
Proof.
  intros Hmiss Hbefore Hentry Hoptions.
  unfold TsConfig.isEsModuleInterop.
  cbn [TsConfig.tsconfigRootDir TsConfig.project TsConfig.projectTruthy
       TsConfig.projectsOf].
  rewrite Hmiss. cbn [fst].
  assert (Hsearch :
    TsConfig.searchProjects pathResolve getTsconfig
      (TsConfig.rootDir cwd root) filename (before ++ entry :: after)
    = Some found).
  { clear Hmiss. induction Hbefore as [| e rest He _ IH]; cbn.
    - rewrite Hentry. reflexivity.
    - rewrite He. exact IH. }
  rewrite Hsearch, Hoptions. reflexivity.
Qed.
End TsConfigFacts.

Lemma childContext_memo_is_invisible_witness :
  fst (childContextMemo ConfigSamples.stringifySettings
         ConfigSamples.stringifyParserOptions Fixture.hashParserOptions
         Fixture.hashSettings "/p/b.ts" (Fixture.context "/p/a.ts")
         (fold_left
            (fun memo call =>
               snd (childContextMemo ConfigSamples.stringifySettings
                      ConfigSamples.stringifyParserOptions
                      Fixture.hashParserOptions Fixture.hashSettings
                      (fst call) (snd call) memo))
            [("/p/a.ts", Fixture.context "/p/self.ts")] initialMemo))
  = childContext Fixture.hashParserOptions Fixture.hashSettings
                 "/p/b.ts" (Fixture.context "/p/a.ts").
Proof.
  apply childContext_memo_is_invisible.
  - reflexivity.
  - intros x y H. vm_compute in H. inversion H. reflexivity.
  - intros [x |]; discriminate.
  - intros x H. vm_compute in H. discriminate.
Defined.

Lemma tsconfig_answer_is_remembered_witness :
  ConfigSamples.interopOf ConfigSamples.noTsconfig
    ConfigSamples.project_options (Some "/q/other.ts")
    (snd (ConfigSamples.interopOf ConfigSamples.getTsconfig
            ConfigSamples.project_options (Some "/p/a.ts") ∅))
  = ConfigSamples.interopOf ConfigSamples.getTsconfig
      ConfigSamples.project_options (Some "/p/a.ts") ∅.
Proof.
  unfold ConfigSamples.interopOf.
  apply tsconfig_answer_is_remembered. reflexivity.
Defined.

Lemma first_project_with_tsconfig_decides_witness :
  fst (ConfigSamples.interopOf ConfigSamples.getTsconfig
         (TsConfig.mkParserOptions None
            (Some (TsConfig.ManyProjects
                     ([TsConfig.ProjectPath "missing.json"]
                      ++ TsConfig.ProjectTrue
                         :: [TsConfig.ProjectPath "tsconfig.json"]))))
         (Some "/p/a.ts") ∅)
  = Some true.
Proof.
  unfold ConfigSamples.interopOf.
  apply (first_project_with_tsconfig_decides ConfigSamples.hashKey
           ConfigSamples.pathResolve "/p" ConfigSamples.getTsconfig None
           [TsConfig.ProjectPath "missing.json"]
           [TsConfig.ProjectPath "tsconfig.json"] TsConfig.ProjectTrue
           (Some "/p/a.ts") ConfigSamples.interop_config
           (TsConfig.mkCompilerOptions (Some true)) ∅).
  - apply lookup_empty.
  - constructor; [reflexivity | constructor].
  - reflexivity.
  - reflexivity.
Defined.

(** * What the walk over the body never undoes *)

Lemma grows_refl (m : ExportMap) : grows m m.
Proof. repeat split; auto. Qed.

Lemma grows_namespace_set (a x : ExportMap) (k : Key) (v : ExportMeta) :
  grows a x -> grows a (namespace_set k v x).
Proof.
  intros [Hn [Hr [Hd Hi]]]. repeat split; auto.
  intros j Hj. cbn. apply jsmap_has_set. auto.
Qed.

Lemma grows_reexports_set (a x : ExportMap) (k : string) (v : Reexport) :
  grows a x -> grows a (with_reexports (JsMap.set k v (reexports x)) x).
Proof.
  intros [Hn [Hr [Hd Hi]]]. repeat split; auto.
  intros j Hj. cbn. apply jsmap_has_set. auto.
Qed.

Lemma grows_imports_set (a x : ExportMap) (k : string) (v : ImportEntry) :
  grows a x -> grows a (with_imports (JsMap.set k v (imports x)) x).
Proof.
  intros [Hn [Hr [Hd Hi]]]. repeat split; auto.
  intros j Hj. cbn. apply jsmap_has_set. auto.
Qed.

Lemma grows_dependencies_add (a x : ExportMap) (g : Getter) :
  grows a x -> grows a (with_dependencies (set_add g (dependencies x)) x).
Proof.
  intros [Hn [Hr [Hd Hi]]]. repeat split; auto.
  intros j Hj. cbn. unfold set_add.
  destruct (bool_decide _); [auto |].
  apply elem_of_app. auto.
Qed.

Section WalkGrows.
Variable getCommentsBefore : SourceCode -> NodeInfo -> option (list Comment).
Variable relative : string -> string -> option Settings -> option string.
Variable path_ : string.
Variable context : ChildContext.
Variable source : SourceCode.
Variable docStyleParsers : list DocStyleParser.
Variable isEsModuleInteropTrue : bool.
Variable ast_body : list Statement.

Lemma captureDeclarators_grows
    (nodesFor : VariableDeclarator -> list NodeInfo)
    (ds : list VariableDeclarator) (a x : ExportMap) :
  grows a x ->
  grows a (captureDeclarators getCommentsBefore source docStyleParsers
                              nodesFor ds x).
Proof.
  intros Hx. unfold captureDeclarators.
  apply fold_left_invariant; [| exact Hx].
  intros y d Hy. apply fold_left_invariant; [| exact Hy].
  intros z id_ Hz. apply grows_namespace_set. exact Hz.
Qed.

Lemma captureDeclaration_grows (n : NodeInfo)
    (declaration : option Statement) (a x : ExportMap) :
  grows a x ->
  grows a (captureDeclaration getCommentsBefore source docStyleParsers n
                              declaration x).
Proof.
  intros Hx. unfold captureDeclaration.
  destruct declaration as [[] |]; try exact Hx.
  destruct type;
    first [ apply captureDeclarators_grows; exact Hx
          | apply grows_namespace_set; exact Hx
          | exact Hx ].
Qed.

Lemma captureModuleBlockNode_grows (decl : NodeInfo) (member : Statement)
    (a x : ExportMap) :
  grows a x ->
  grows a (captureModuleBlockNode getCommentsBefore source docStyleParsers
                                  decl member x).
Proof.
  intros Hx. unfold captureModuleBlockNode.
  destruct member as [| | | ? ? ? [[] |] ? | | | | |]; try exact Hx;
    try (apply grows_namespace_set; exact Hx);
    try (destruct type;
         first [ apply captureDeclarators_grows; exact Hx
               | apply grows_namespace_set; exact Hx ]).
Qed.

Lemma captureModuleBlock_grows (decl : NodeInfo) (members : list Statement)
    (a x : ExportMap) :
  grows a x ->
  grows a (fold_left
             (fun m1 member =>
                captureModuleBlockNode getCommentsBefore source
                  docStyleParsers decl member m1)
             members x).
Proof.
  intros Hx. apply fold_left_invariant; [| exact Hx].
  intros y member Hy. apply captureModuleBlockNode_grows. exact Hy.
Qed.

Lemma captureExportedDecl_grows (decl : Statement) (a x : ExportMap) :
  grows a x ->
  grows a (captureExportedDecl getCommentsBefore source docStyleParsers
                               decl x).
Proof.
  intros Hx. unfold captureExportedDecl.
  destruct decl; try (apply grows_namespace_set; exact Hx).
  destruct type; try (apply grows_namespace_set; exact Hx).
  destruct body0 as [[] |]; try exact Hx.
  - apply grows_namespace_set; exact Hx.
  - apply captureModuleBlock_grows. exact Hx.
Qed.

Lemma captureExportedDecls_grows (decls : list Statement)
    (a x : ExportMap) :
  grows a x ->
  grows a (fold_left
             (fun m2 decl =>
                captureExportedDecl getCommentsBefore source
                  docStyleParsers decl m2)
             decls x).
Proof.
  intros Hx. apply fold_left_invariant; [| exact Hx].
  intros y d Hy. apply captureExportedDecl_grows. exact Hy.
Qed.

Lemma captureExportAssignment_grows (n : Statement) (a x : ExportMap) :
  grows a x ->
  grows a (captureExportAssignment getCommentsBefore source docStyleParsers
                                   isEsModuleInteropTrue ast_body n x).
Proof.
  intros Hx. unfold captureExportAssignment.
  destruct (List.filter _ ast_body) as [| decl rest].
  - apply grows_namespace_set. exact Hx.
  - apply captureExportedDecls_grows.
    destruct (isEsModuleInteropTrue && _);
      [apply grows_namespace_set |]; exact Hx.
Qed.

Lemma captureDependency_grows (src : option Literal) (onlyTypes : bool)
    (specifierSet : list string) (a x : ExportMap) :
  grows a x ->
  grows a (fst (captureDependency relative path_ context src onlyTypes
                                  specifierSet x)).
Proof.
  intros Hx. unfold captureDependency.
  destruct src as [s |]; [| exact Hx].
  destruct (remotePath relative path_ context (value s)); [| exact Hx].
  destruct (JsMap.get _ (imports x)); apply grows_imports_set; exact Hx.
Qed.

Lemma processSpecifier_grows (nss : list (string * string))
    (s : Specifier) (src : option Literal) (a x : ExportMap) :
  grows a x ->
  grows a (processSpecifier relative path_ context nss s src x).
Proof.
  intros Hx. unfold processSpecifier.
  destruct s; try exact Hx.
  - destruct src;
      [apply grows_reexports_set | apply grows_namespace_set]; exact Hx.
  - destruct (option_map value src); [| exact Hx].
    destruct (truthy _); [apply grows_reexports_set |]; exact Hx.
  - apply grows_namespace_set. exact Hx.
Qed.

Lemma walkStatement_grows (a : ExportMap) (w : Walk) (n : Statement) :
  grows a (walk_map w) ->
  grows a (walk_map
             (walkStatement getCommentsBefore relative path_ context source
                docStyleParsers isEsModuleInteropTrue ast_body w n)).
Proof.
  intros Hw.
  assert (Hassign : forall n0,
    grows a
      (walk_map
         (if isExportAssignment isEsModuleInteropTrue n0
          then mkWalk
                 (captureExportAssignment getCommentsBefore source
                    docStyleParsers isEsModuleInteropTrue ast_body n0
                    (walk_map w))
                 (namespaces w)
          else w))).
  { intros n0. destruct (isExportAssignment isEsModuleInteropTrue n0);
      [| exact Hw].
    cbn [walk_map]. apply captureExportAssignment_grows. exact Hw. }
  destruct n; cbn [walkStatement]; try apply Hassign.
  - cbn [walk_map]. apply grows_namespace_set. exact Hw.
  - pose proof (captureDependency_grows (Some source0)
                  (match exportKind with KindType => true | _ => false end)
                  [] a (walk_map w) Hw) as Hcaptured.
    set (captured := captureDependency _ _ _ _ _ _ _) in *.
    assert (Hdeps : grows a
                      match snd captured with
                      | Some g =>
                          with_dependencies
                            (set_add g (dependencies (fst captured)))
                            (fst captured)
                      | None => fst captured
                      end).
    { destruct (snd captured); [apply grows_dependencies_add |];
        exact Hcaptured. }
    destruct exported; cbn [walk_map];
      [apply grows_namespace_set |]; exact Hdeps.
  - unfold captureDependencyWithSpecifiers.
    destruct (List.find _ specifiers) as [[] |]; cbn [walk_map];
      apply captureDependency_grows; exact Hw.
  - cbn [walk_map]. apply fold_left_invariant.
    + intros x s Hx. apply processSpecifier_grows. exact Hx.
    + apply captureDeclaration_grows.
      unfold captureDependencyWithSpecifiers.
      apply captureDependency_grows. exact Hw.
Qed.

(** The walk over the body only ever adds: an export name, a re-exported
    name, a star-dependency or an imported file that the map holds
    before a run of statements is still there after it (with whatever
    metadata the later statements wrote over it). *)
Theorem walk_only_adds (stmts : list Statement) (w : Walk) :
  grows (walk_map w)
        (walk_map
           (fold_left
              (walkStatement getCommentsBefore relative path_ context source
                 docStyleParsers isEsModuleInteropTrue ast_body)
              stmts w)).
Proof.
  apply (fold_left_invariant _ (fun x => grows (walk_map w) (walk_map x))).
  - intros x n Hx. apply walkStatement_grows. exact Hx.
  - apply grows_refl.
Qed.

Lemma grows_name (a x : ExportMap) (k : Key) :
  grows a x ->
  JsMap.has k (namespace a) = true -> JsMap.has k (namespace x) = true.
Proof. intros [Hn _]. apply Hn. Qed.

Lemma captureModuleBlock_member (decl : NodeInfo)
    (members : list Statement) (member : Statement) (name : Key)
    (x : ExportMap) :
  member ∈ members ->
  (forall y, JsMap.has name
               (namespace
                  (captureModuleBlockNode getCommentsBefore source
                     docStyleParsers decl member y)) = true) ->
  JsMap.has name
    (namespace
       (fold_left
          (fun m1 member =>
             captureModuleBlockNode getCommentsBefore source
               docStyleParsers decl member m1)
          members x)) = true.
Proof.
  intros Hin Hmember. revert x.
  induction members as [| first rest IH]; intros x; [inversion Hin |].
  apply elem_of_cons in Hin as [<- | Hin]; cbn [fold_left].
  - eapply grows_name; [| apply Hmember].
    apply captureModuleBlock_grows, grows_refl.
  - apply IH. exact Hin.
Qed.

(** An export assignment of a namespace exports every member that the
    block of the namespace declares with a name of its own, whether the
    member is itself exported or not. *)
Theorem export_assignment_exports_every_member (n : Statement)
    (m : ExportMap) (dnode : NodeInfo) (did : Key)
    (ds : list VariableDeclarator) (members : list Statement)
    (member inner : Statement) (inode : NodeInfo) (itype : DeclarationType)
    (name : Key) (ids : list VariableDeclarator)
    (ibody : option ModuleBody) :
  List.filter (isExportedDecl (exportedNameOf n)) ast_body
  = [Declaration dnode TSModuleDeclaration did ds
       (Some (ModuleBlock members))] ->
  member ∈ members ->
  (member = inner
   \/ exists enode esource ekind especifiers,
        member = ExportNamedDeclaration enode esource ekind (Some inner)
                                        especifiers) ->
  inner = Declaration inode itype name ids ibody ->
  itype <> VariableDeclaration ->
  JsMap.has name
    (namespace
       (captureExportAssignment getCommentsBefore source docStyleParsers
          isEsModuleInteropTrue ast_body n m))
  = true.
Proof.
  intros Hdecls Hin Hmember -> Htype.
  unfold captureExportAssignment. rewrite Hdecls.
  cbn [fold_left captureExportedDecl].
  apply captureModuleBlock_member with (member := member); [exact Hin |].
  intros y. unfold captureModuleBlockNode.
  destruct Hmember as [-> | [enode [esource [ekind [especifiers ->]]]]];
    destruct itype; try contradiction;
    cbn; apply jsmap_has_set; auto.
Qed.
End WalkGrows.

Lemma export_assignment_exports_every_member_witness :
  JsMap.has (Some "Hidden")
    (namespace
       (captureExportAssignment Fixture.getCommentsBefore Fixture.source0
          [] false ExportAssignmentSample.body
          ExportAssignmentSample.assignment (newExportMap "/p/ns.ts")))
  = true.
Proof.
  apply (export_assignment_exports_every_member Fixture.getCommentsBefore
           Fixture.source0 [] false ExportAssignmentSample.body
           ExportAssignmentSample.assignment (newExportMap "/p/ns.ts")
           Fixture.node0 (Some "ns") []
           [ExportAssignmentSample.hidden; ExportAssignmentSample.shown]
           ExportAssignmentSample.hidden ExportAssignmentSample.hidden
           Fixture.node0 ClassDeclaration (Some "Hidden") [] None).
  - reflexivity.
  - apply list_elem_of_here.
  - left. reflexivity.
  - reflexivity.
  - discriminate.
Defined.
